(** * CSV import service of the advanced-strapi-import plugin

    A shallow embedding of [server/services/csv-import.js]: header mapping,
    row validation and coercion, relation resolution, component (nested
    record) assembly, media attachment and the import loop, with the
    listing of the content types and the helpers on file names; and of the
    handlers of [server/controllers/csv-import.js] that list the content
    types and validate, preview and import a file, with the transformation
    and the CSV writer of the export.  Of the functions that unpack
    archives the sorting of the entries by media field is embedded; the
    uploads rest on the archive library, the file system and the upload
    plugin and are not.  The file has four parts: the embedding, the
    vocabulary in which the properties are stated, the fixtures of the
    worked examples, and the properties.

    Conventions.
    - A JavaScript object used as a map is an association list kept in
      [Object.keys] order ([Obj]); [set] overwrites in place or appends, as
      property assignment does.  Only own properties are modelled: a key
      that names a member every object inherits ([constructor], [toString]
      and the like, listed in [inheritedNames]) reads differently in the
      code, and a property that depends on such a read excludes these keys.
      Keys that look like array indices (which JavaScript lists first) are
      outside the model.
    - A text is held as the bytes of its UTF-8 encoding.  Splitting at an
      ASCII character, joining, comparing and searching are then the same on
      bytes as on characters.  White space is that of the language ([trim],
      [\s], and what [Number] and [parseInt] skip), recognised in its
      encoded form.  Case mapping is that of the ASCII letters: a property
      that depends on the case of other letters asks for ASCII text.
    - A number is named by the integer or by the decimal literal it was read
      from: the name stands for the Number value for it, which is the
      nearest double (an infinity beyond the range), so two names may stand
      for one number.  Date parsing, locale comparison and the printing of
      numbers belong to the runtime and are parameters.
    - [async]/[await] is sequential: every store call runs to completion
      before the next statement.  The entity store is an interface over a
      state; each call may change the state, return or throw, and is recorded
      in a log.
    - The outer loop of [importData] does not end for every batch size; it
      is given a number of iterations it may use.
    - A handler ends with an answer or with an error thrown, or is still in
      the import loop; [ctx.throw] throws.  The file system, the CSV parser
      and [JSON.parse] are parameters. *)

From Stdlib Require Import String Ascii List ZArith Bool Arith Lia Permutation.
From Stdlib Require Import DecimalString.
Import ListNotations.
Local Open Scope string_scope.
Local Open Scope list_scope.

(** ** Strings *)

Module Str.

Definition isUpper (c : ascii) : bool :=
  let n := nat_of_ascii c in (65 <=? n)%nat && (n <=? 90)%nat.

Definition lowerChar (c : ascii) : ascii :=
  if isUpper c then ascii_of_nat (nat_of_ascii c + 32) else c.

(** [s.toLowerCase()] *)
Fixpoint toLowerCase (s : string) : string :=
  match s with
  | EmptyString => EmptyString
  | String c r => String (lowerChar c) (toLowerCase r)
  end.

(** The white space of one byte: TAB, LF, VT, FF, CR and SPACE. *)
Definition isWhite (c : ascii) : bool :=
  let n := nat_of_ascii c in
  ((9 <=? n)%nat && (n <=? 13)%nat) || (n =? 32)%nat.

Definition ofBytes (l : list nat) : string :=
  string_of_list_ascii (map ascii_of_nat l).

(** The white space of more than one byte, encoded: U+00A0, U+1680, U+2000
    to U+200A, U+2028, U+2029, U+202F, U+205F, U+3000 and U+FEFF.  With
    [isWhite] this is the white space and the line terminators of the
    language: what [trim] strips, what [\s] matches and what [Number],
    [parseInt] and [parseFloat] skip. *)
Definition wideWhite : list string :=
  [ofBytes [194; 160];
   ofBytes [225; 154; 128];
   ofBytes [226; 128; 128]; ofBytes [226; 128; 129]; ofBytes [226; 128; 130];
   ofBytes [226; 128; 131]; ofBytes [226; 128; 132]; ofBytes [226; 128; 133];
   ofBytes [226; 128; 134]; ofBytes [226; 128; 135]; ofBytes [226; 128; 136];
   ofBytes [226; 128; 137]; ofBytes [226; 128; 138];
   ofBytes [226; 128; 168]; ofBytes [226; 128; 169];
   ofBytes [226; 128; 175];
   ofBytes [226; 129; 159];
   ofBytes [227; 128; 128];
   ofBytes [239; 187; 191]].

Fixpoint dropBytes (n : nat) (s : string) : string :=
  match n, s with
  | Datatypes.S n', String _ r => dropBytes n' r
  | _, _ => s
  end.

(** The text behind one white-space character at the head, if the text
    starts with one; [wide] lists the encoded forms of more than one
    byte. *)
Definition afterWhite (wide : list string) (s : string) : option string :=
  match s with
  | EmptyString => None
  | String c r =>
      if isWhite c then Some r
      else match find (fun w => String.prefix w s) wide with
           | Some w => Some (dropBytes (String.length w) s)
           | None => None
           end
  end.

(** At most [n] white-space characters taken off the head. *)
Fixpoint stripWhite (wide : list string) (n : nat) (s : string) : string :=
  match n with
  | O => s
  | Datatypes.S n' =>
      match afterWhite wide s with
      | Some r => stripWhite wide n' r
      | None => s
      end
  end.

Fixpoint reverseOnto (acc s : string) : string :=
  match s with
  | EmptyString => acc
  | String c r => reverseOnto (String c acc) r
  end.

Definition reverse (s : string) : string := reverseOnto EmptyString s.

(** Does the text hold a white-space character? *)
Fixpoint hasWhite (s : string) : bool :=
  match s with
  | EmptyString => false
  | String c r =>
      isWhite c || existsb (fun w => String.prefix w s) wideWhite || hasWhite r
  end.

Definition isDigit (c : ascii) : bool :=
  let n := nat_of_ascii c in (48 <=? n)%nat && (n <=? 57)%nat.

Definition isHexDigit (c : ascii) : bool :=
  let n := nat_of_ascii c in
  isDigit c || ((65 <=? n)%nat && (n <=? 70)%nat)
            || ((97 <=? n)%nat && (n <=? 102)%nat).

(** [s.trimStart()] *)
Definition trimStart (s : string) : string :=
  stripWhite wideWhite (String.length s) s.

(** [s.trimEnd()]: the same from the other end. *)
Definition trimEnd (s : string) : string :=
  reverse (stripWhite (map reverse wideWhite) (String.length s) (reverse s)).

(** [s.trim()] *)
Definition trim (s : string) : string := trimEnd (trimStart s).

(** [s.split(sep)] for a one-character separator; the result is never
    empty ([''.split(',')] is [['']]). *)
Fixpoint split (sep : ascii) (s : string) : list string :=
  match s with
  | EmptyString => [EmptyString]
  | String c r =>
      if Ascii.eqb c sep then EmptyString :: split sep r
      else match split sep r with
           | h :: t => String c h :: t
           | [] => [String c EmptyString]
           end
  end.

(** [s.includes(c)] for a one-character needle. *)
Fixpoint includesChar (c : ascii) (s : string) : bool :=
  match s with
  | EmptyString => false
  | String d r => Ascii.eqb d c || includesChar c r
  end.

(** [s.startsWith(p)] *)
Definition startsWith (p s : string) : bool := String.prefix p s.

(** [s.endsWith(p)] *)
Definition endsWith (p s : string) : bool :=
  let n := String.length s in
  let m := String.length p in
  (m <=? n)%nat && (String.substring (n - m) m s =? p).

(** [l.join(sep)] *)
Definition join (sep : string) (l : list string) : string :=
  String.concat sep l.

(** Decimal rendering of a row number inside a template literal. *)
Definition ofNat (n : nat) : string :=
  NilEmpty.string_of_uint (Nat.to_uint n).

Definition truthy (s : string) : bool := negb (s =? "").

End Str.

(** ** Objects as insertion-ordered maps *)

Definition Obj (V : Type) : Type := list (string * V).

Module Ob.
Section Ops.
Context {V : Type}.

(** [o[k]]; [None] is [undefined]. *)
Fixpoint get (k : string) (o : Obj V) : option V :=
  match o with
  | [] => None
  | (k', v) :: r => if k' =? k then Some v else get k r
  end.

(** [o[k] = v] *)
Fixpoint set (k : string) (v : V) (o : Obj V) : Obj V :=
  match o with
  | [] => [(k, v)]
  | (k', v') :: r => if k' =? k then (k, v) :: r else (k', v') :: set k v r
  end.

(** [delete o[k]] *)
Definition del (k : string) (o : Obj V) : Obj V :=
  filter (fun kv => negb (fst kv =? k)) o.

(** [Object.keys(o)] *)
Definition keys (o : Obj V) : list string := map fst o.

(** [Object.values(o)] *)
Definition values (o : Obj V) : list V := map snd o.

Definition has (k : string) (o : Obj V) : bool :=
  match get k o with Some _ => true | None => false end.
End Ops.
End Ob.

(** [a.includes(x)] on an array of strings. *)
Definition includes (x : string) (l : list string) : bool :=
  existsb (String.eqb x) l.

(** ** Values stored in rows

    The shapes the service itself builds: coerced cells, the two side-channel
    captures (objects whose properties are cell strings), resolved
    identifiers and assembled component entries.  [VNum z] is the Number
    value for the integer [z], that is the double nearest to [z], or an
    infinity when [z] is beyond the range of the doubles; [VLit l] is the
    Number value denoted by the decimal literal [l] (what [parseFloat]
    read). *)
#[warnings="-register-all"]
Inductive jsval : Type :=
| VNull
| VBool (b : bool)
| VNum (z : Z)
| VLit (l : string)
| VStr (s : string)
| VCap (o : list (string * string))
| VArr (l : list jsval)
| VObj (o : list (string * jsval)).

(** JavaScript truthiness.  A literal read by [parseFloat] is falsy when it
    denotes zero, that is when its mantissa holds no nonzero digit. *)
Fixpoint mantissaZero (s : string) : bool :=
  match s with
  | EmptyString => true
  | String c r =>
      if Ascii.eqb c "e" || Ascii.eqb c "E" then true
      else if Ascii.eqb c "I" then false
      else if Str.isDigit c && negb (Ascii.eqb c "0") then false
      else mantissaZero r
  end.

Definition truthy (v : jsval) : bool :=
  match v with
  | VNull => false
  | VBool b => b
  | VNum z => negb (z =? 0)%Z
  | VLit l => negb (mantissaZero l)
  | VStr s => Str.truthy s
  | VCap _ | VArr _ | VObj _ => true
  end.

Definition optTruthy (o : option jsval) : bool :=
  match o with Some v => truthy v | None => false end.

(** ** Schemas *)

(** An attribute descriptor; absent string properties are [""], absent
    flags [false]. *)
Record attribute : Type := mkAttr {
  type : string;
  required : bool;
  default : option jsval;
  unique : bool;
  enum : option (list string);
  relation : string;
  target : string;
  component : string;
  repeatable : bool
}.

Record schema : Type := mkSchema { attributes : Obj attribute }.

(** [strapi.contentTypes] and [strapi.components]. *)
Record registry : Type := mkRegistry {
  contentTypes : Obj schema;
  components : Obj schema
}.

(** A parsed CSV row: column name to cell text. *)
Definition csvRow : Type := Obj string.

(** A row under construction or ready for the store. *)
Definition row : Type := Obj jsval.

(** ** parseHeaderMapping *)

Record mapping : Type := mkMapping {
  field : string;
  relationField : option string;
  componentField : option string;
  isDotNotation : bool;
  isComponent : bool;
  isValid : bool;
  componentName : option string
}.

Definition invalidMapping (header : string) (dotted : bool) : mapping :=
  mkMapping header None None dotted false false None.

(** The callback of [csvHeaders.forEach].  [attributes[fieldName]] and
    [attributes[header]] are read on the keys of [attributes] itself. *)
Definition mapHeader (attrs : Obj attribute) (header : string) : mapping :=
  if Str.includesChar "." header then
    let parts := Str.split "." header in
    let fieldName := hd "" parts in
    match Ob.get fieldName attrs with
    | Some attribute =>
        if type attribute =? "relation" then
          mkMapping fieldName (Some (nth 1 parts "")) None true false true None
        else if type attribute =? "component" then
          mkMapping fieldName None (Some (Str.join "." (tl parts)))
                    true true true (Some (component attribute))
        else invalidMapping header true
    | None => invalidMapping header true
    end
  else
    match Ob.get header attrs with
    | Some _ => mkMapping header None None false false true None
    | None => invalidMapping header false
    end.

Definition parseHeaderMapping (csvHeaders : list string)
    (attrs : Obj attribute) : Obj mapping :=
  fold_left (fun hm header => Ob.set header (mapHeader attrs header) hm)
            csvHeaders [].

(** ** Numeric parsing of the runtime *)

Module Num.

(** Longest run of decimal digits at the head, and the rest. *)
Fixpoint spanDigits (s : string) : string * string :=
  match s with
  | EmptyString => (EmptyString, EmptyString)
  | String c r =>
      if Str.isDigit c
      then let (d, t) := spanDigits r in (String c d, t)
      else (EmptyString, s)
  end.

Fixpoint digitsValue (acc : Z) (ds : string) : Z :=
  match ds with
  | EmptyString => acc
  | String c r => digitsValue (10 * acc + Z.of_nat (nat_of_ascii c - 48)) r
  end.

(** An optional sign at the head: is it a minus, and what follows. *)
Definition spanSign (s : string) : bool * string :=
  match s with
  | String "-" r => (true, r)
  | String "+" r => (false, r)
  | _ => (false, s)
  end.

(** [parseInt(s, 10)]; [None] stands for NaN.  The result is the integer
    that the digits denote; the Number that the code holds for it is the
    double nearest to it. *)
Definition parseInt10 (s : string) : option Z :=
  let (neg, body) := spanSign (Str.trimStart s) in
  let (ds, _) := spanDigits body in
  if ds =? "" then None
  else Some (if neg then (- digitsValue 0 ds)%Z else digitsValue 0 ds).

(** [!isNaN(parseInt(s))] with no radix: a leading [0x] switches to
    hexadecimal digits. *)
Definition parseIntOk (s : string) : bool :=
  let (_, body) := spanSign (Str.trimStart s) in
  match body with
  | String "0" (String x r) =>
      if Ascii.eqb x "x" || Ascii.eqb x "X"
      then match r with String h _ => Str.isHexDigit h | EmptyString => false end
      else true
  | String c _ => Str.isDigit c
  | EmptyString => false
  end.

(** An exponent part at the head, if a complete one is there. *)
Definition spanExponent (s : string) : string * string :=
  match s with
  | String e r =>
      if Ascii.eqb e "e" || Ascii.eqb e "E" then
        let (sg, r1) :=
          match r with
          | String "+" r' => ("+", r')
          | String "-" r' => ("-", r')
          | _ => ("", r)
          end in
        let (ds, r2) := spanDigits r1 in
        if ds =? "" then ("", s) else (String e (sg ++ ds)%string, r2)
      else ("", s)
  | EmptyString => ("", "")
  end.

(** Longest head that is a StrUnsignedDecimalLiteral, and the rest. *)
Definition spanUnsigned (s : string) : option (string * string) :=
  if String.prefix "Infinity" s
  then Some ("Infinity", String.substring 8 (String.length s - 8) s)
  else
    let (ip, r1) := spanDigits s in
    match r1 with
    | String "." r2 =>
        let (fp, r3) := spanDigits r2 in
        if (ip =? "") && (fp =? "") then None
        else let (ex, r4) := spanExponent r3 in
             Some ((ip ++ "." ++ fp ++ ex)%string, r4)
    | _ =>
        if ip =? "" then None
        else let (ex, r4) := spanExponent r1 in Some ((ip ++ ex)%string, r4)
    end.

(** Longest head that is a StrDecimalLiteral, and the rest. *)
Definition spanDecimal (s : string) : option (string * string) :=
  match s with
  | String "-" r =>
      match spanUnsigned r with
      | Some (l, t) => Some (String "-" l, t)
      | None => None
      end
  | String "+" r =>
      match spanUnsigned r with
      | Some (l, t) => Some (String "+" l, t)
      | None => None
      end
  | _ => spanUnsigned s
  end.

(** [parseFloat(s)]: the literal that was read; [None] stands for NaN. *)
Definition parseFloat (s : string) : option string :=
  match spanDecimal (Str.trimStart s) with
  | Some (l, _) => Some l
  | None => None
  end.

Fixpoint allChars (p : ascii -> bool) (s : string) : bool :=
  match s with
  | EmptyString => true
  | String c r => p c && allChars p r
  end.

Definition isBinDigit (c : ascii) : bool :=
  Ascii.eqb c "0" || Ascii.eqb c "1".

Definition isOctDigit (c : ascii) : bool :=
  let n := nat_of_ascii c in (48 <=? n)%nat && (n <=? 55)%nat.

(** A NonDecimalIntegerLiteral: [0x], [0o] or [0b] and at least one digit. *)
Definition nonDecimal (s : string) : bool :=
  match s with
  | String "0" (String x (String d r)) =>
      let body := String d r in
      if Ascii.eqb x "x" || Ascii.eqb x "X" then allChars Str.isHexDigit body
      else if Ascii.eqb x "o" || Ascii.eqb x "O" then allChars isOctDigit body
      else if Ascii.eqb x "b" || Ascii.eqb x "B" then allChars isBinDigit body
      else false
  | _ => false
  end.

(** [!isNaN(Number(s))]: the trimmed text is empty or a complete numeric
    literal. *)
Definition numberOk (s : string) : bool :=
  let t := Str.trim s in
  (t =? "") || nonDecimal t ||
  match spanDecimal t with
  | Some (_, EmptyString) => true
  | _ => false
  end.

(** The guard of the identifier branch of [findRelatedEntity]:
    [!isNaN(Number(value)) && !isNaN(parseInt(String(value)))]. *)
Definition isNumeric (value : string) : bool :=
  numberOk value && parseIntOk value.

End Num.

(** The test of [/^[^\s@]+@[^\s@]+\.[^\s@]+$/]: no white space, exactly one
    [@] with text before it, and after it a dot that is neither first nor
    last. *)
Definition emailChar (c : ascii) : bool := negb (Ascii.eqb c "@").

Fixpoint dotInside (s : string) : bool :=
  match s with
  | EmptyString => false
  | String c r => (Ascii.eqb c "." && negb (r =? "")) || dotInside r
  end.

Definition emailTest (value : string) : bool :=
  negb (Str.hasWhite value) &&
  match Str.split "@" value with
  | [a; d] =>
      negb (a =? "") && Num.allChars emailChar a && Num.allChars emailChar d &&
      match d with
      | String _ r => dotInside r
      | EmptyString => false
      end
  | _ => false
  end.

(** ** validateCsvData *)

(** The double-quote character of the messages. *)
Definition dq : string := String (ascii_of_nat 34) EmptyString.

Definition quoted (s : string) : string := (dq ++ s ++ dq)%string.

(** The two side-channel keys a row carries between validation and the later
    stages. *)
Definition componentDataKey (fieldName : string) : string :=
  ("__" ++ fieldName ++ "_componentData")%string.

Definition dotNotationKey (fieldName : string) : string :=
  ("__" ++ fieldName ++ "_dotNotation")%string.

(** The relation capture [{ relationField, value }]. *)
Definition dotCapture (relationField value : string) : jsval :=
  VCap [("relationField", relationField); ("value", value)].

(** What the map callback of [validateCsvData] returns for one row; the
    property [errors] of the source is the local [rowErrors]. *)
Record rowResult : Type := mkRowResult {
  data : row;
  rowErrors : list string;
  originalRow : csvRow
}.

Module Validation.
Record t : Type := mk {
  errors : list string;
  warnings : list string;
  validData : list row;
  invalidRows : option (list rowResult)
}.
End Validation.

(** Outcome of the type switch for one present cell. *)
Inductive coerced : Type :=
| Store (v : jsval)
| Reject (msg : string)
| Skip.

Definition rowLabel (index : nat) : string :=
  ("Row " ++ Str.ofNat (index + 1) ++ ": ")%string.

(** [`Row ${index + 1}: "${fieldName}"${text}`] *)
Definition cellError (index : nat) (fieldName text : string) : string :=
  (rowLabel index ++ quoted fieldName ++ text)%string.

Definition booleanTokens : list string :=
  ["true"; "false"; "1"; "0"; "yes"; "no"].

Definition trueTokens : list string := ["true"; "1"; "yes"].

Section Validate.

(** [new Date(value)] followed by [toISOString()]; [None] when the date is
    invalid.  Date parsing is left to the runtime. *)
Variable toISOString : string -> option string.

(** The [switch (attribute.type)] of the row callback, for a cell that is
    neither [undefined] nor empty. *)
Definition coerceCell (index : nat) (fieldName : string)
    (attribute : attribute) (value : string) : coerced :=
  let t := type attribute in
  let reject := fun text => Reject (cellError index fieldName text) in
  if (t =? "integer") || (t =? "biginteger") then
    match Num.parseInt10 value with
    | None => reject " must be a number"
    | Some intVal => Store (VNum intVal)
    end
  else if (t =? "decimal") || (t =? "float") then
    match Num.parseFloat value with
    | None => reject " must be a decimal number"
    | Some floatVal => Store (VLit floatVal)
    end
  else if t =? "boolean" then
    let boolVal := Str.toLowerCase value in
    if includes boolVal booleanTokens
    then Store (VBool (includes boolVal trueTokens))
    else reject " must be true/false, 1/0, or yes/no"
  else if (t =? "date") || (t =? "datetime") || (t =? "time") then
    match toISOString value with
    | None => reject " must be a valid date"
    | Some iso => Store (VStr iso)
    end
  else if t =? "email" then
    if negb (emailTest value)
    then reject " must be a valid email"
    else Store (VStr value)
  else if t =? "enumeration" then
    match enum attribute with
    | Some allowed =>
        if negb (includes value allowed)
        then reject (" must be one of: " ++ Str.join ", " allowed)%string
        else Store (VStr value)
    | None => Store (VStr value)
    end
  else if t =? "relation" then Store (VStr value)
  else if t =? "component" then Skip
  else Store (VStr value).

(** The side-channel store at the head of the header callback.  [None] is the
    TypeError that strict mode raises when the component capture key already
    holds a truthy primitive (an attribute that is itself named like the
    key); arrays and component entries are built only after validation. *)
Definition storeCapture (m : mapping) (value : string)
    (validatedRow : row) : option row :=
  if isDotNotation m then
    if isComponent m then
      let key := componentDataKey (field m) in
      let prop := match componentField m with Some p => p | None => "undefined" end in
      match Ob.get key validatedRow with
      | Some (VCap o) =>
          Some (Ob.set key (VCap (Ob.set prop value o)) validatedRow)
      | Some v =>
          if truthy v then None
          else Some (Ob.set key (VCap [(prop, value)]) validatedRow)
      | None => Some (Ob.set key (VCap [(prop, value)]) validatedRow)
      end
    else
      let rf := match relationField m with Some p => p | None => "" end in
      Some (Ob.set (dotNotationKey (field m)) (dotCapture rf value) validatedRow)
  else Some validatedRow.

(** The body of [Object.keys(row).forEach(csvHeader => ...)].  The keys of
    an object are distinct, so the loop is a traversal of the row's entries
    and [value] is never [undefined].  [None]: an exception leaves the
    callback. *)
Definition validateCell (attrs : Obj attribute) (headerMapping : Obj mapping)
    (index : nat) (st : row * list string) (cell : string * string)
    : option (row * list string) :=
  let (csvHeader, value) := cell in
  let (validatedRow, rowErrors) := st in
  match Ob.get csvHeader headerMapping with
  | None => Some st
  | Some m =>
      if negb (isValid m) then Some st
      else
        let fieldName := field m in
        match storeCapture m value validatedRow with
        | None => None
        | Some validatedRow1 =>
            match Ob.get fieldName attrs with
            | None => None
            | Some attribute =>
                if negb (value =? "") then
                  match coerceCell index fieldName attribute value with
                  | Store v => Some (Ob.set fieldName v validatedRow1, rowErrors)
                  | Reject msg => Some (validatedRow1, rowErrors ++ [msg])
                  | Skip => Some (validatedRow1, rowErrors)
                  end
                else if required attribute
                        && negb (optTruthy (default attribute))
                        && negb (isDotNotation m)
                then Some (validatedRow1,
                           rowErrors ++ [(rowLabel index ++ "Required field "
                                          ++ quoted fieldName ++ " is missing")%string])
                else Some (validatedRow1, rowErrors)
            end
        end
  end.

Fixpoint validateCells (attrs : Obj attribute) (headerMapping : Obj mapping)
    (index : nat) (cells : list (string * string)) (st : row * list string)
    : option (row * list string) :=
  match cells with
  | [] => Some st
  | cell :: rest =>
      match validateCell attrs headerMapping index st cell with
      | None => None
      | Some st' => validateCells attrs headerMapping index rest st'
      end
  end.

(** The callback of [data.map((row, index) => ...)]. *)
Definition validateRow (attrs : Obj attribute) (headerMapping : Obj mapping)
    (index : nat) (r : csvRow) : option rowResult :=
  match validateCells attrs headerMapping index r ([], []) with
  | None => None
  | Some (validatedRow, rowErrors) => Some (mkRowResult validatedRow rowErrors r)
  end.

Fixpoint validateRows (attrs : Obj attribute) (headerMapping : Obj mapping)
    (index : nat) (rows : list csvRow) : option (list rowResult) :=
  match rows with
  | [] => Some []
  | r :: rest =>
      match validateRow attrs headerMapping index r with
      | None => None
      | Some res =>
          match validateRows attrs headerMapping (S index) rest with
          | None => None
          | Some more => Some (res :: more)
          end
      end
  end.

(** *** validateRelationFieldUniqueness *)

Record relationInfo : Type := mkRelationInfo {
  ri_csvHeader : string;
  ri_relationField : option string;
  ri_attribute : attribute
}.

Definition collectRelationFields (headerMapping : Obj mapping)
    (attrs : Obj attribute) : Obj relationInfo :=
  fold_left
    (fun relationFields (entry : string * mapping) =>
       let (csvHeader, m) := entry in
       if isValid m && negb (isComponent m) && isDotNotation m then
         match Ob.get (field m) attrs with
         | Some attribute =>
             if type attribute =? "relation"
             then Ob.set (field m)
                    (mkRelationInfo csvHeader (relationField m) attribute)
                    relationFields
             else relationFields
         | None => relationFields
         end
       else relationFields)
    headerMapping [].

Definition checkRelationField (strapi : registry)
    (acc : list string * list string) (entry : string * relationInfo)
    : list string * list string :=
  let (fieldName, info) := entry in
  let (errs, warns) := acc in
  let targetContentType := target (ri_attribute info) in
  match ri_relationField info with
  | None => acc
  | Some searchField =>
      if negb (Str.truthy targetContentType) || negb (Str.truthy searchField)
      then acc
      else
        match Ob.get targetContentType (contentTypes strapi) with
        | None =>
            (errs, warns ++ [("Target content type " ++ quoted targetContentType
                              ++ " not found for relation field "
                              ++ quoted fieldName)%string])
        | Some targetSchema =>
            let path := quoted (fieldName ++ "." ++ searchField) in
            match Ob.get searchField (attributes targetSchema) with
            | None =>
                (errs ++ [("Target field " ++ quoted searchField
                           ++ " not found in content type "
                           ++ quoted targetContentType
                           ++ " for relation field " ++ path)%string], warns)
            | Some targetAttribute =>
                if unique targetAttribute then acc
                else
                  (errs ++ [("Field " ++ quoted searchField
                             ++ " in content type " ++ quoted targetContentType
                             ++ " must be set as unique for relation field "
                             ++ path)%string], warns)
            end
        end
  end.

(** Returns [(errors, warnings)]. *)
Definition validateRelationFieldUniqueness (strapi : registry)
    (headerMapping : Obj mapping) (attrs : Obj attribute)
    : list string * list string :=
  fold_left (checkRelationField strapi)
            (collectRelationFields headerMapping attrs) ([], []).

(** *** The whole validation *)

Definition requiredFields (attrs : Obj attribute) : list string :=
  map fst
      (filter (fun entry : string * attribute =>
                 required (snd entry) && negb (optTruthy (default (snd entry))))
              attrs).

Definition missingRequired (attrs : Obj attribute)
    (headerMapping : Obj mapping) : list string :=
  let mappedFieldNames := map field (Ob.values headerMapping) in
  filter (fun f => negb (includes f mappedFieldNames)) (requiredFields attrs).

Definition missingRequiredMessage (missing : list string) : string :=
  ("Missing required fields: " ++ Str.join ", " missing)%string.

Definition unknownFields (csvHeaders : list string)
    (headerMapping : Obj mapping) : list string :=
  filter (fun header =>
            match Ob.get header headerMapping with
            | None => true
            | Some m => negb (isValid m) && negb (isDotNotation m)
            end)
         csvHeaders.

Definition noErrors (res : rowResult) : bool :=
  match rowErrors res with [] => true | _ :: _ => false end.

(** [None]: an exception thrown inside the row callback reaches the
    caller. *)
Definition validateCsvData (strapi : registry) (rows : list csvRow)
    (contentType : schema) : option Validation.t :=
  let attrs := attributes contentType in
  match rows with
  | [] =>
      Some (Validation.mk ["CSV file is empty or invalid"] [] [] None)
  | first :: _ =>
      let csvHeaders := Ob.keys first in
      let headerMapping := parseHeaderMapping csvHeaders attrs in
      let missing := missingRequired attrs headerMapping in
      let errors0 :=
        match missing with
        | [] => []
        | _ :: _ => [missingRequiredMessage missing]
        end in
      let unknown := unknownFields csvHeaders headerMapping in
      let warnings0 :=
        match unknown with
        | [] => []
        | _ :: _ =>
            [("Unknown fields (will be ignored): " ++ Str.join ", " unknown)%string]
        end in
      let (relErrors, relWarnings) :=
        validateRelationFieldUniqueness strapi headerMapping attrs in
      match validateRows attrs headerMapping 0 rows with
      | None => None
      | Some results =>
          let allRowErrors := flat_map rowErrors results in
          Some (Validation.mk
                  ((errors0 ++ relErrors) ++ allRowErrors)
                  (warnings0 ++ relWarnings)
                  (map data (filter noErrors results))
                  (Some (filter (fun res => negb (noErrors res)) results)))
      end
  end.

End Validate.

(** ** The entity store *)

Module Entity.
Record t : Type := mk { id : Z; fields : Obj jsval }.
End Entity.

(** The [filters] object of a [findMany] call (every call here passes
    [limit: 1]).  [ById value] is [{ id: Number(value) }]: the number is
    named by the text it is converted from. *)
Inductive filters : Type :=
| Eqi (fieldName value : string)
| Containsi (fieldName value : string)
| ById (value : string)
| Equals (fieldName : string) (value : jsval).

Inductive call : Type :=
| FindMany (uid : string) (f : filters)
| Create (uid : string) (d : row)
| Update (uid : string) (id : Z) (d : row).

(** A call either returns or throws an error with a message. *)
Inductive result (A : Type) : Type :=
| Ok (a : A)
| Throw (message : string).
Arguments Ok {A} a.
Arguments Throw {A} message.

(** [strapi.entityService] over a store state [S]. *)
Record entityService (S : Type) : Type := mkService {
  findMany : string -> filters -> S -> result (list Entity.t) * S;
  create : string -> row -> S -> result Entity.t * S;
  update : string -> Z -> row -> S -> result Entity.t * S
}.
Arguments mkService {S}.
Arguments findMany {S}.
Arguments create {S}.
Arguments update {S}.

(** The store together with the log of the calls made so far. *)
Record world (S : Type) : Type := mkWorld { store : S; log : list call }.
Arguments mkWorld {S}.
Arguments store {S}.
Arguments log {S}.

(** Computations that call the store and may throw. *)
Definition M (S A : Type) : Type := world S -> result A * world S.

Definition ret {S A : Type} (a : A) : M S A := fun w => (Ok a, w).

Definition bind {S A B : Type} (m : M S A) (k : A -> M S B) : M S B :=
  fun w =>
    match m w with
    | (Ok a, w') => k a w'
    | (Throw e, w') => (Throw e, w')
    end.

(** [try { m } catch (error) { handler(error.message) }] *)
Definition tryCatch {S A : Type} (m : M S A) (handler : string -> M S A)
    : M S A :=
  fun w =>
    match m w with
    | (Ok a, w') => (Ok a, w')
    | (Throw e, w') => handler e w'
    end.

Declare Scope store_scope.
Delimit Scope store_scope with store.
Notation "x <- m ;; k" := (bind m (fun x => k))
  (at level 61, m at next level, right associativity) : store_scope.
Local Open Scope store_scope.

Section WithStore.

Context {S : Type}.
Variable svc : entityService S.

Definition callFindMany (uid : string) (f : filters) : M S (list Entity.t) :=
  fun w =>
    let (r, s) := findMany svc uid f (store w) in
    (r, mkWorld s (log w ++ [FindMany uid f])).

Definition callCreate (uid : string) (d : row) : M S Entity.t :=
  fun w =>
    let (r, s) := create svc uid d (store w) in
    (r, mkWorld s (log w ++ [Create uid d])).

Definition callUpdate (uid : string) (id : Z) (d : row) : M S Entity.t :=
  fun w =>
    let (r, s) := update svc uid id d (store w) in
    (r, mkWorld s (log w ++ [Update uid id d])).

(** [entities && entities.length > 0 ? entities[0] : null] *)
Definition firstOf (entities : list Entity.t) : option Entity.t :=
  match entities with
  | e :: _ => Some e
  | [] => None
  end.

(** ** findRelatedEntity *)

Definition commonFields : list string :=
  ["name"; "title"; "slug"; "displayName"; "label"; "country"].

Definition isStringAttr (attrs : Obj attribute) (fieldName : string) : bool :=
  match Ob.get fieldName attrs with
  | Some a => type a =? "string"
  | None => false
  end.

(** The loop over [searchFields]: the first exact hit wins. *)
Fixpoint findByCommonFields (targetContentType value : string)
    (searchFields : list string) : M S (option Entity.t) :=
  match searchFields with
  | [] => ret None
  | f :: rest =>
      entities <- callFindMany targetContentType (Eqi f value) ;;
      match firstOf entities with
      | Some e => ret (Some e)
      | None => findByCommonFields targetContentType value rest
      end
  end.

(** The first block: the explicit search field, when it is truthy and the
    target schema declares it. *)
Definition findBySearchField (strapi : registry)
    (targetContentType value : string) (searchField : option string)
    : M S (option Entity.t) :=
  match searchField with
  | None => ret None
  | Some sf =>
      if Str.truthy sf then
        match Ob.get targetContentType (contentTypes strapi) with
        | None => ret None
        | Some sch =>
            if Ob.has sf (attributes sch) then
              entities <- callFindMany targetContentType (Eqi sf value) ;;
              match firstOf entities with
              | Some e => ret (Some e)
              | None =>
                  partialEntities <-
                    callFindMany targetContentType (Containsi sf value) ;;
                  ret (firstOf partialEntities)
              end
            else ret None
        end
      else ret None
  end.

(** The second block: lookup by identifier for a numeric value. *)
Definition findById (targetContentType value : string)
    : M S (option Entity.t) :=
  if Num.isNumeric value then
    entityById <- callFindMany targetContentType (ById value) ;;
    ret (firstOf entityById)
  else ret None.

(** The rest: the common string fields of the target schema, exact match on
    each and then a contains match on the first. *)
Definition findByCommon (strapi : registry) (targetContentType value : string)
    : M S (option Entity.t) :=
  match Ob.get targetContentType (contentTypes strapi) with
  | None => ret None
  | Some sch =>
      let searchFields := filter (isStringAttr (attributes sch)) commonFields in
      found <- findByCommonFields targetContentType value searchFields ;;
      match found with
      | Some e => ret (Some e)
      | None =>
          match searchFields with
          | f0 :: _ =>
              entities <- callFindMany targetContentType (Containsi f0 value) ;;
              ret (firstOf entities)
          | [] => ret None
          end
      end
  end.

(** [findRelatedEntity(targetContentType, value, searchField = null)], for a
    string [value] as its documentation states.  The whole body is inside
    [try]; any error returns [null]. *)
Definition findRelatedEntity (strapi : registry)
    (targetContentType value : string) (searchField : option string)
    : M S (option Entity.t) :=
  tryCatch
    (bySearchField <-
       findBySearchField strapi targetContentType value searchField ;;
     match bySearchField with
     | Some e => ret (Some e)
     | None =>
         byId <- findById targetContentType value ;;
         match byId with
         | Some e => ret (Some e)
         | None => findByCommon strapi targetContentType value
         end
     end)
    (fun _ => ret None).

End WithStore.

(** ** processRelations *)

(** What [processRelations] reads for one relation attribute: the value to
    resolve ([None] when it is not a string) and the search field, or
    nothing at all. *)
Inductive rawRelation : Type :=
| Raw (relationValue : option string) (searchField : option string)
| NoRaw.

(** The capture wins over the plain field.  A row reaches this stage with a
    capture object under the capture key and cell text under the relation
    field; any other truthy value has no string [value]. *)
Definition readRelation (r : row) (fieldName : string) : rawRelation :=
  match Ob.get (dotNotationKey fieldName) r with
  | Some (VCap dotNotationData) =>
      Raw (Ob.get "value" dotNotationData) (Ob.get "relationField" dotNotationData)
  | dotNotationData =>
      if optTruthy dotNotationData then Raw None None
      else
        match Ob.get fieldName r with
        | Some (VStr s) => if Str.truthy s then Raw (Some s) None else NoRaw
        | plain => if optTruthy plain then Raw None None else NoRaw
        end
  end.

(** [relationValue.split(',').map(val => val.trim())] *)
Definition splitTrim (s : string) : list string :=
  map Str.trim (Str.split "," s).

Definition isDotNotationKey (key : string) : bool :=
  Str.startsWith "__" key && Str.endsWith "_dotNotation" key.

(** The clean-up of the temporary relation captures. *)
Definition cleanupDotNotation (processedRow : row) : row :=
  filter (fun entry : string * jsval => negb (isDotNotationKey (fst entry)))
         processedRow.

Definition idsOf (entities : list Entity.t) : jsval :=
  VArr (map (fun e => VNum (Entity.id e)) entities).

Section Relations.

Context {S : Type}.
Variable svc : entityService S.
Variable strapi : registry.

(** The loop of the to-many case: each value is looked up on its own and
    the hits are kept in order. *)
Fixpoint findRelatedEntities (targetContentType : string)
    (values : list string) (searchField : option string)
    : M S (list Entity.t) :=
  match values with
  | [] => ret []
  | value :: rest =>
      entity <- findRelatedEntity svc strapi targetContentType value searchField ;;
      relatedEntities <- findRelatedEntities targetContentType rest searchField ;;
      ret (match entity with
           | Some e => e :: relatedEntities
           | None => relatedEntities
           end)
  end.

(** The body of the loop over the attributes, for one attribute: reads
    [row], writes [processedRow].  A value that is not a string makes
    [split] throw in the to-many case, which the [catch] turns into a
    delete; in the to-one case it would reach [findRelatedEntity] outside
    its documented domain, and the model leaves the row as it is (rows
    built by validation never get there:
    [validated_row_relation_is_text]). *)
Definition processRelationField (r processedRow : row)
    (entry : string * attribute) : M S row :=
  let (fieldName, attribute) := entry in
  if type attribute =? "relation" then
    match readRelation r fieldName with
    | NoRaw => ret processedRow
    | Raw relationValue searchField =>
        let kind := relation attribute in
        tryCatch
          (if (kind =? "oneToOne") || (kind =? "manyToOne") then
             match relationValue with
             | Some value =>
                 relatedEntity <-
                   findRelatedEntity svc strapi (target attribute) value searchField ;;
                 match relatedEntity with
                 | Some e => ret (Ob.set fieldName (VNum (Entity.id e)) processedRow)
                 | None => ret (Ob.del fieldName processedRow)
                 end
             | None => ret processedRow
             end
           else if (kind =? "oneToMany") || (kind =? "manyToMany") then
             match relationValue with
             | Some value =>
                 relatedEntities <-
                   findRelatedEntities (target attribute) (splitTrim value) searchField ;;
                 match relatedEntities with
                 | _ :: _ => ret (Ob.set fieldName (idsOf relatedEntities) processedRow)
                 | [] => ret (Ob.del fieldName processedRow)
                 end
             | None => fun w => (Throw "relationValue.split is not a function", w)
             end
           else ret processedRow)
          (fun _ => ret (Ob.del fieldName processedRow))
    end
  else ret processedRow.

Fixpoint processRelationFields (r : row) (attrs : list (string * attribute))
    (processedRow : row) : M S row :=
  match attrs with
  | [] => ret processedRow
  | entry :: rest =>
      processedRow' <- processRelationField r processedRow entry ;;
      processRelationFields r rest processedRow'
  end.

Definition processRelationsRow (attrs : Obj attribute) (r : row) : M S row :=
  processedRow <- processRelationFields r attrs r ;;
  ret (cleanupDotNotation processedRow).

Fixpoint processRelationsRows (attrs : Obj attribute) (rows : list row)
    : M S (list row) :=
  match rows with
  | [] => ret []
  | r :: rest =>
      processedRow <- processRelationsRow attrs r ;;
      processedData <- processRelationsRows attrs rest ;;
      ret (processedRow :: processedData)
  end.

Definition processRelations (rows : list row) (contentType : schema)
    : M S (list row) :=
  processRelationsRows (attributes contentType) rows.

End Relations.

(** ** processComponents *)

(** [parseComponentRows(componentData)]: one candidate entry per position
    of the longest comma-separated list. *)
Definition parseComponentRows (componentData : Obj string)
    : list (Obj string) :=
  match componentData with
  | [] => []
  | _ :: _ =>
      let parsedFields :=
        map (fun entry : string * string => (fst entry, splitTrim (snd entry)))
            componentData in
      let maxRows :=
        fold_left (fun m (entry : string * list string) =>
                     Nat.max m (length (snd entry)))
                  parsedFields 1 in
      flat_map
        (fun i =>
           let rowData :=
             fold_left
               (fun (rowData : Obj string) (entry : string * list string) =>
                  let value := nth i (snd entry) "" in
                  if Str.truthy value then Ob.set (fst entry) value rowData
                  else rowData)
               parsedFields [] in
           match rowData with
           | [] => []
           | _ :: _ => [rowData]
           end)
        (seq 0 maxRows)
  end.

Section Components.

Variable toISOString : string -> option string.

(** [convertComponentFieldValue(value, attribute)] for a string value. *)
Definition convertComponentFieldValue (value : string)
    (attribute : attribute) : jsval :=
  if value =? "" then VNull
  else
    let t := type attribute in
    if (t =? "integer") || (t =? "biginteger") then
      match Num.parseInt10 value with
      | None => VNull
      | Some intVal => VNum intVal
      end
    else if (t =? "decimal") || (t =? "float") then
      match Num.parseFloat value with
      | None => VNull
      | Some floatVal => VLit floatVal
      end
    else if t =? "boolean" then
      let boolVal := Str.toLowerCase value in
      VBool (includes boolVal trueTokens)
    else if (t =? "date") || (t =? "datetime") || (t =? "time") then
      match toISOString value with
      | None => VNull
      | Some iso => VStr iso
      end
    else VStr value.

Context {S : Type}.
Variable svc : entityService S.
Variable strapi : registry.

(** The loop of [processComponentData] over the entries of the capture;
    [componentAttributes[actualFieldName]] is read on the keys of
    [componentAttributes] itself. *)
Fixpoint processComponentEntries (componentAttributes : Obj attribute)
    (entries : list (string * string)) (processedData : row) : M S row :=
  match entries with
  | [] => ret processedData
  | (fieldName, value) :: rest =>
      if negb (Str.truthy value)
      then processComponentEntries componentAttributes rest processedData
      else
        let parts := Str.split "." fieldName in
        let actualFieldName := hd "" parts in
        let searchField :=
          match parts with
          | _ :: p1 :: _ => Some p1
          | _ => None
          end in
        match Ob.get actualFieldName componentAttributes with
        | None => processComponentEntries componentAttributes rest processedData
        | Some attribute =>
            if type attribute =? "relation" then
              relatedEntity <-
                findRelatedEntity svc strapi (target attribute) value searchField ;;
              processComponentEntries componentAttributes rest
                (match relatedEntity with
                 | Some e => Ob.set actualFieldName (VNum (Entity.id e)) processedData
                 | None => processedData
                 end)
            else
              processComponentEntries componentAttributes rest
                (Ob.set actualFieldName
                        (convertComponentFieldValue value attribute)
                        processedData)
        end
  end.

(** [processComponentData(componentData, componentAttributes)]; [None] is
    [null]. *)
Definition processComponentData (componentData : Obj string)
    (componentAttributes : Obj attribute) : M S (option row) :=
  processedData <- processComponentEntries componentAttributes componentData [] ;;
  ret (match processedData with
       | [] => None
       | _ :: _ => Some processedData
       end).

Fixpoint processComponentRows (componentRows : list (Obj string))
    (componentAttributes : Obj attribute) : M S (list row) :=
  match componentRows with
  | [] => ret []
  | componentRowData :: rest =>
      processed <- processComponentData componentRowData componentAttributes ;;
      componentEntries <- processComponentRows rest componentAttributes ;;
      ret (match processed with
           | Some d => d :: componentEntries
           | None => componentEntries
           end)
  end.

(** The body of the loop over the attributes of [processComponents], for
    one attribute.  Only a capture object with at least one property is
    processed. *)
Definition processComponentField (r processedRow : row)
    (entry : string * attribute) : M S row :=
  let (fieldName, attribute) := entry in
  if type attribute =? "component" then
    let componentDataKey := componentDataKey fieldName in
    match Ob.get componentDataKey r with
    | Some (VCap ((_ :: _) as componentData)) =>
        tryCatch
          (match Ob.get (component attribute) (components strapi) with
           | None => ret processedRow
           | Some componentSchema =>
               componentEntries <-
                 (if repeatable attribute then
                    processComponentRows (parseComponentRows componentData)
                                         (attributes componentSchema)
                  else
                    processed <-
                      processComponentData componentData (attributes componentSchema) ;;
                    ret (match processed with Some d => [d] | None => [] end)) ;;
               ret (Ob.del componentDataKey
                      (match componentEntries with
                       | [] => processedRow
                       | first :: _ =>
                           Ob.set fieldName
                             (if repeatable attribute
                              then VArr (map VObj componentEntries)
                              else VObj first)
                             processedRow
                       end))
           end)
          (fun _ => ret (Ob.del componentDataKey processedRow))
    | _ => ret processedRow
    end
  else ret processedRow.

Fixpoint processComponentFields (r : row) (attrs : list (string * attribute))
    (processedRow : row) : M S row :=
  match attrs with
  | [] => ret processedRow
  | entry :: rest =>
      processedRow' <- processComponentField r processedRow entry ;;
      processComponentFields r rest processedRow'
  end.

Fixpoint processComponentsRows (attrs : Obj attribute) (rows : list row)
    : M S (list row) :=
  match rows with
  | [] => ret []
  | r :: rest =>
      processedRow <- processComponentFields r attrs r ;;
      processedData <- processComponentsRows attrs rest ;;
      ret (processedRow :: processedData)
  end.

Definition processComponents (rows : list row) (contentType : schema)
    : M S (list row) :=
  processComponentsRows (attributes contentType) rows.

End Components.

(** ** processMediaFields *)

Module File.
Record t : Type := mk {
  id : Z;
  name : option string;
  originalName : option string
}.
End File.

Module Media.
Record t : Type := mk {
  field : string;
  uploadedFiles : option (list File.t);
  matchField : option string
}.
End Media.

(** [file.name || file.originalName]; [None] is [undefined]. *)
Definition fileNameOf (file : File.t) : option string :=
  match File.name file with
  | Some n => if Str.truthy n then Some n else File.originalName file
  | None => File.originalName file
  end.

(** [filename.split('.').pop().toLowerCase()] *)
Definition getFileExtension (filename : string) : string :=
  Str.toLowerCase (last (Str.split "." filename) "").

(** ** escapeRegExp *)

Definition backslash : ascii := ascii_of_nat 92.

(** The characters of the class that [escapeRegExp] replaces: the dot, the
    star, the plus, the question mark, the caret, the dollar, the braces,
    the parentheses, the bar, the brackets and the backslash. *)
Definition regExpSpecials : string :=
  (".*+?^${}()|[]" ++ String backslash EmptyString)%string.

Definition isRegExpSpecial (c : ascii) : bool :=
  Str.includesChar c regExpSpecials.

(** [escapeRegExp(string)]: every special character gets a backslash in
    front of it. *)
Fixpoint escapeRegExp (s : string) : string :=
  match s with
  | EmptyString => EmptyString
  | String c r =>
      if isRegExpSpecial c
      then String backslash (String c (escapeRegExp r))
      else String c (escapeRegExp r)
  end.

(** ** The regular expression of the numbered pattern

    [new RegExp(source, 'i')] for the sources that the service builds: a
    caret, then characters that stand for themselves, characters made
    literal by a backslash, and the class [\d] with a plus behind it. *)
Inductive atom : Type :=
| Literal (c : ascii)
| Digits.

(** The atoms of a source behind its caret; [None] for a source outside
    these forms. *)
Fixpoint parseAtoms (source : string) : option (list atom) :=
  match source with
  | EmptyString => Some []
  | String c r =>
      if Ascii.eqb c backslash then
        match r with
        | String e r' =>
            if Ascii.eqb e "d" then
              match r' with
              | String "+" r'' => option_map (cons Digits) (parseAtoms r'')
              | _ => None
              end
            else if isRegExpSpecial e
            then option_map (cons (Literal e)) (parseAtoms r')
            else None
        | EmptyString => None
        end
      else if isRegExpSpecial c then None
      else option_map (cons (Literal c)) (parseAtoms r)
  end.

Definition upperChar (c : ascii) : ascii :=
  let n := nat_of_ascii c in
  if (97 <=? n)%nat && (n <=? 122)%nat then ascii_of_nat (n - 32) else c.

(** Two characters match under the flag [i] when their upper cases are the
    same. *)
Definition sameLetter (c d : ascii) : bool :=
  Ascii.eqb (upperChar c) (upperChar d).

(** A match of the atoms at the head of the text; the digits are one or
    more, as many as the rest of the atoms allows. *)
Fixpoint matchAtoms (atoms : list atom) : string -> bool :=
  match atoms with
  | [] => fun _ => true
  | Literal c :: rest =>
      fun s =>
        match s with
        | String d s' => sameLetter c d && matchAtoms rest s'
        | EmptyString => false
        end
  | Digits :: rest =>
      fix digits (s : string) : bool :=
        match s with
        | String d s' => Str.isDigit d && (matchAtoms rest s' || digits s')
        | EmptyString => false
        end
  end.

(** [new RegExp(source, 'i').test(s)] for a source with a caret at its
    head; [None] for a source outside the forms above. *)
Definition regExpTest (source s : string) : option bool :=
  match source with
  | String "^" body =>
      option_map (fun atoms => matchAtoms atoms s) (parseAtoms body)
  | _ => None
  end.

(** ['^' + escapeRegExp(v) + '_\\d+\\.'] *)
Definition numberedPattern (v : string) : string :=
  ("^" ++ escapeRegExp v ++ "_" ++ String backslash "d+"
       ++ String backslash ".")%string.

(** [numberedPatternRegex.test(fileNameLower)]; the pattern is always
    inside the forms above. *)
Definition numberedMatch (v fileNameLower : string) : bool :=
  match regExpTest (numberedPattern v) fileNameLower with
  | Some matched => matched
  | None => false
  end.

Section MediaFields.

(** [String(n)] for the two number shapes, and the sign of
    [a.localeCompare(b)]: both are left to the runtime. *)
Variable numberToString : jsval -> string.
Variable localeCompare : string -> string -> comparison.

(** [String(v)] *)
Fixpoint toStringJs (v : jsval) : string :=
  match v with
  | VNull => "null"
  | VBool true => "true"
  | VBool false => "false"
  | VNum _ | VLit _ => numberToString v
  | VStr s => s
  | VCap _ | VObj _ => "[object Object]"
  | VArr l =>
      Str.join ","
        (map (fun e => match e with VNull => "" | _ => toStringJs e end) l)
  end.

(** The filter callback; [None] when the file has no name, where
    [fileName.toLowerCase()] throws. *)
Definition fileMatches (matchValue : jsval) (file : File.t) : option bool :=
  match fileNameOf file with
  | None => None
  | Some fileName =>
      let fileNameLower := Str.toLowerCase fileName in
      let matchValueLower := Str.toLowerCase (toStringJs matchValue) in
      let exactMatch :=
        fileNameLower =? (matchValueLower ++ "." ++ getFileExtension fileName)%string in
      let numbered := numberedMatch matchValueLower fileNameLower in
      let startsWithMatch := Str.startsWith matchValueLower fileNameLower in
      Some (exactMatch || numbered || startsWithMatch)
  end.

Fixpoint filterFiles (matchValue : jsval) (files : list File.t)
    : option (list File.t) :=
  match files with
  | [] => Some []
  | file :: rest =>
      match fileMatches matchValue file with
      | None => None
      | Some keep =>
          match filterFiles matchValue rest with
          | None => None
          | Some more => Some (if keep then file :: more else more)
          end
      end
  end.

Definition lowerName (file : File.t) : string :=
  match fileNameOf file with
  | Some n => Str.toLowerCase n
  | None => ""
  end.

(** [Array.prototype.sort] with the comparator on lower-cased names: a
    stable insertion sort. *)
Fixpoint insertFile (file : File.t) (sorted : list File.t) : list File.t :=
  match sorted with
  | [] => [file]
  | g :: rest =>
      match localeCompare (lowerName file) (lowerName g) with
      | Gt => g :: insertFile file rest
      | _ => file :: sorted
      end
  end.

Definition sortFiles (files : list File.t) : list File.t :=
  fold_right insertFile [] files.

(** [processMediaFields(csvItem, mediaFieldMappings, matchField)]: the item
    is changed in place and the function never throws; an error inside the
    loop ends it and keeps what was set before. *)
Fixpoint processMediaFields (csvItem : row) (mediaFieldMappings : list Media.t)
    (matchField : string) : row :=
  match mediaFieldMappings with
  | [] => csvItem
  | m :: rest =>
      let key :=
        if Str.truthy matchField then matchField
        else match Media.matchField m with
             | Some k => k
             | None => "undefined"
             end in
      match Ob.get key csvItem, Media.uploadedFiles m with
      | Some matchValue, Some ((_ :: _) as files) =>
          if truthy matchValue then
            match filterFiles matchValue files with
            | None => csvItem
            | Some [] => processMediaFields csvItem rest matchField
            | Some matchingFiles =>
                processMediaFields
                  (Ob.set (Media.field m)
                          (VArr (map (fun f => VNum (File.id f))
                                     (sortFiles matchingFiles)))
                          csvItem)
                  rest matchField
            end
          else processMediaFields csvItem rest matchField
      | _, _ => processMediaFields csvItem rest matchField
      end
  end.

End MediaFields.

(** ** importData *)

Module RowError.
Record t : Type := mk { row : row; error : string }.
End RowError.

Module Results.
Record t : Type := mk {
  created : nat;
  updated : nat;
  errors : list RowError.t
}.
End Results.

Module Options.
Record t : Type := mk {
  upsert : bool;
  batchSize : Z;
  upsertField : string;
  mediaFieldMappings : list Media.t
}.
(** The defaults of the destructuring in [importData]. *)
Definition defaults : t := mk false 100 "id" [].
End Options.

(** [a.slice(start, end)] with JavaScript's reading of negative indices. *)
Definition sliceIndex (len k : Z) : Z :=
  if (k <? 0)%Z then Z.max (len + k) 0 else Z.min k len.

Definition slice {A : Type} (l : list A) (start stop : Z) : list A :=
  let len := Z.of_nat (length l) in
  let from := sliceIndex len start in
  let to := sliceIndex len stop in
  firstn (Z.to_nat (to - from)) (skipn (Z.to_nat from) l).

Section ImportLoop.

Variable numberToString : jsval -> string.
Variable localeCompare : string -> string -> comparison.
Context {S : Type}.
Variable svc : entityService S.

(** [findExistingRecord]: a failing lookup is logged and reads as no
    record. *)
Definition findExistingRecord (contentTypeUid fieldName : string)
    (fieldValue : jsval) : M S (option Entity.t) :=
  tryCatch
    (entities <- callFindMany svc contentTypeUid (Equals fieldName fieldValue) ;;
     ret (firstOf entities))
    (fun _ => ret None).

Definition addCreated (results : Results.t) : Results.t :=
  Results.mk (Datatypes.S (Results.created results)) (Results.updated results)
             (Results.errors results).

Definition addUpdated (results : Results.t) : Results.t :=
  Results.mk (Results.created results) (Datatypes.S (Results.updated results))
             (Results.errors results).

Definition addError (results : Results.t) (item : row) (message : string)
    : Results.t :=
  Results.mk (Results.created results) (Results.updated results)
             (Results.errors results ++ [RowError.mk item message]).

(** The item as the media step leaves it. *)
Definition withMedia (opts : Options.t) (item : row) : row :=
  match Options.mediaFieldMappings opts with
  | [] => item
  | _ :: _ =>
      processMediaFields numberToString localeCompare item
        (Options.mediaFieldMappings opts) (Options.upsertField opts)
  end.

(** The value of [item[upsertField]] when [upsert && item[upsertField]]
    holds. *)
Definition upsertValue (opts : Options.t) (item : row) : option jsval :=
  if Options.upsert opts then
    match Ob.get (Options.upsertField opts) item with
    | Some v => if truthy v then Some v else None
    | None => None
    end
  else None.

(** The body of [for (const item of batch)]: the [try] and its [catch]. *)
Definition importItem (contentTypeUid : string) (opts : Options.t)
    (results : Results.t) (item : row) : M S Results.t :=
  let item' := withMedia opts item in
  tryCatch
    (match upsertValue opts item' with
     | Some fieldValue =>
         existing <-
           findExistingRecord contentTypeUid (Options.upsertField opts) fieldValue ;;
         match existing with
         | Some e =>
             _ <- callUpdate svc contentTypeUid (Entity.id e) item' ;;
             ret (addUpdated results)
         | None =>
             _ <- callCreate svc contentTypeUid item' ;;
             ret (addCreated results)
         end
     | None =>
         _ <- callCreate svc contentTypeUid item' ;;
         ret (addCreated results)
     end)
    (fun message => ret (addError results item' message)).

Fixpoint importBatch (contentTypeUid : string) (opts : Options.t)
    (batch : list row) (results : Results.t) : M S Results.t :=
  match batch with
  | [] => ret results
  | item :: rest =>
      results' <- importItem contentTypeUid opts results item ;;
      importBatch contentTypeUid opts rest results'
  end.

(** The outer loop [for (let i = 0; i < validData.length; i += batchSize)].
    It does not end for every batch size, so the model counts iterations:
    [None] means the fuel ran out before the loop condition failed. *)
Fixpoint importBatches (fuel : nat) (contentTypeUid : string)
    (opts : Options.t) (validData : list row) (i : Z) (results : Results.t)
    : M S (option Results.t) :=
  match fuel with
  | O => ret None
  | Datatypes.S fuel' =>
      if (i <? Z.of_nat (length validData))%Z then
        let batch := slice validData i (i + Options.batchSize opts) in
        results' <- importBatch contentTypeUid opts batch results ;;
        importBatches fuel' contentTypeUid opts validData
                      (i + Options.batchSize opts)%Z results'
      else ret (Some results)
  end.

Definition importData (fuel : nat) (contentTypeUid : string)
    (validData : list row) (opts : Options.t) : M S (option Results.t) :=
  importBatches fuel contentTypeUid opts validData 0 (Results.mk 0 0 []).

End ImportLoop.

(** ** getContentTypes *)

Module ContentType.

(** [contentType.info]; a property that is absent is [None]. *)
Record info : Type := mkInfo {
  singularName : string;
  pluralName : option string;
  displayName : option string
}.

(** An entry of [strapi.contentTypes] as [getContentTypes] reads it. *)
Record t : Type := mk {
  info_ : option info;
  attributes : Obj attribute
}.

End ContentType.

Module ApiContentType.

(** An entry of the object that [getContentTypes] returns. *)
Record t : Type := mk {
  uid : string;
  singularName : string;
  pluralName : option string;
  displayName : string;
  attributes : Obj attribute
}.

End ApiContentType.

(** [displayName || singularName] *)
Definition displayNameOr (i : ContentType.info) : string :=
  match ContentType.displayName i with
  | Some d => if Str.truthy d then d else ContentType.singularName i
  | None => ContentType.singularName i
  end.

(** The callback of [Object.keys(contentTypes).forEach]: a content type
    whose key starts with [api::] is entered under its singular name.
    [None] is the TypeError of destructuring an [info] that is not
    there. *)
Definition apiStep (acc : option (Obj ApiContentType.t))
    (entry : string * ContentType.t) : option (Obj ApiContentType.t) :=
  match acc with
  | None => None
  | Some apiContentTypes =>
      let (key, contentType) := entry in
      if Str.startsWith "api::" key then
        match ContentType.info_ contentType with
        | None => None
        | Some i =>
            Some (Ob.set (ContentType.singularName i)
                    (ApiContentType.mk key
                       (ContentType.singularName i)
                       (ContentType.pluralName i)
                       (displayNameOr i)
                       (ContentType.attributes contentType))
                    apiContentTypes)
        end
      else Some apiContentTypes
  end.

(** [getContentTypes()] *)
Definition getContentTypes (contentTypes : Obj ContentType.t)
    : option (Obj ApiContentType.t) :=
  fold_left apiStep contentTypes (Some []).

(** ** filterFilesForMediaField *)

Module ZipEntry.
(** An entry of the archive, as far as the service reads it. *)
Record t : Type := mk { entryName : string; isDirectory : bool }.
End ZipEntry.

Module FileInfo.
(** A file found in the archive; [folderName] is set for the files outside
    the folders of the media fields. *)
Record t : Type := mk {
  fileName : string;
  filePath : string;
  entry : ZipEntry.t;
  folderName : option string
}.
End FileInfo.

(** [hay.includes(needle)] *)
Fixpoint includesText (needle hay : string) : bool :=
  String.prefix needle hay ||
  match hay with
  | String _ r => includesText needle r
  | EmptyString => false
  end.

Definition fieldKeywords : Obj (list string) :=
  [("reports", ["report"; "rpt"; "analysis"; "summary"; "result"]);
   ("lab_docs", ["lab"; "test"; "analysis"; "sample"]);
   ("referee_result", ["referee"; "ref"; "audit"; "verification"; "check"]);
   ("payment_docs", ["payment"; "pay"; "invoice"; "bill"; "receipt"; "financial"]);
   ("challan_docs", ["challan"; "delivery"; "transport"; "dispatch"; "shipping"])].

(** [filterFilesForMediaField(files, mediaFieldName)]: the files whose
    lower-cased name holds a keyword of the field.
    [fieldKeywords[mediaFieldName]] is read on the five keys of the
    table. *)
Definition filterFilesForMediaField (files : list FileInfo.t)
    (mediaFieldName : string) : list FileInfo.t :=
  let keywords :=
    match Ob.get mediaFieldName fieldKeywords with
    | Some k => k
    | None => []
    end in
  filter
    (fun file =>
       let fileName := Str.toLowerCase (FileInfo.fileName file) in
       match find (fun keyword => includesText (Str.toLowerCase keyword) fileName)
                  keywords with
       | Some matchingKeyword => Str.truthy matchingKeyword
       | None => false
       end)
    files.

(** ** extractAndProcessMediaZip: the files of the archive by media field

    The part of the function between the reading of the archive and the
    uploads: it sorts the entries by the media fields of the content type.
    The uploads and the mappings made of them are not embedded. *)

(** The keys of [mediaFields]: the attributes of type [media]. *)
Definition mediaFieldNames (attrs : Obj attribute) : list string :=
  map fst (filter (fun entry : string * attribute => type (snd entry) =? "media")
                  attrs).

(** [entryPath.includes('__MACOSX') || pathParts.some(part =>
    part.startsWith('._'))] *)
Definition isSystemPath (entryPath : string) : bool :=
  includesText "__MACOSX" entryPath
  || existsb (Str.startsWith "._") (Str.split "/" entryPath).

(** The loop over the folders of the path: the first folder that is a key
    of [mediaFields], or [null]; [mediaFields[folderName]] is read on the
    keys of [mediaFields] itself. *)
Definition matchedMediaField (mediaFields : list string)
    (pathParts : list string) : option string :=
  find (fun folderName => includes folderName mediaFields) (removelast pathParts).

(** [if (!folderFiles[field]) folderFiles[field] = [];] followed by
    [folderFiles[field].push(file)]. *)
Definition pushFile (fieldName : string) (file : FileInfo.t)
    (folderFiles : Obj (list FileInfo.t)) : Obj (list FileInfo.t) :=
  match Ob.get fieldName folderFiles with
  | Some files => Ob.set fieldName (files ++ [file]) folderFiles
  | None => Ob.set fieldName [file] folderFiles
  end.

(** The body of [for (const entry of zipEntries)], on [folderFiles] and
    [allFiles]. *)
Definition organizeEntry (mediaFields : list string)
    (acc : Obj (list FileInfo.t) * list FileInfo.t) (entry : ZipEntry.t)
    : Obj (list FileInfo.t) * list FileInfo.t :=
  let (folderFiles, allFiles) := acc in
  if ZipEntry.isDirectory entry then acc
  else
    let entryPath := ZipEntry.entryName entry in
    let pathParts := Str.split "/" entryPath in
    if isSystemPath entryPath then acc
    else if (2 <=? length pathParts)%nat then
      let fileName := last pathParts "" in
      let general :=
        (folderFiles,
         allFiles ++ [FileInfo.mk fileName entryPath entry
                                  (Some (hd "" pathParts))]) in
      match matchedMediaField mediaFields pathParts with
      | Some field =>
          if Str.truthy field
          then (pushFile field (FileInfo.mk fileName entryPath entry None)
                         folderFiles,
                allFiles)
          else general
      | None => general
      end
    else acc.

(** [folderFiles] as the uploads find it: the files under the folders of
    the media fields, or, when there is no such file, the files of the
    other folders given to every media field by their names. *)
Definition organizeFiles (targetAttributes : Obj attribute)
    (zipEntries : list ZipEntry.t) : Obj (list FileInfo.t) :=
  let mediaFields := mediaFieldNames targetAttributes in
  let (folderFiles, allFiles) :=
    fold_left (organizeEntry mediaFields) zipEntries ([], []) in
  if (length (Ob.keys folderFiles) =? 0)%nat && (0 <? length allFiles)%nat
  then fold_left
         (fun (distributed : Obj (list FileInfo.t)) mediaFieldName =>
            Ob.set mediaFieldName
                   (filterFilesForMediaField allFiles mediaFieldName)
                   distributed)
         mediaFields folderFiles
  else folderFiles.

(** ** exportCsv: the transformation of the entries and the CSV text *)

(** [typeof v === 'object'] *)
Definition isObjectType (v : jsval) : bool :=
  match v with
  | VNull | VCap _ | VArr _ | VObj _ => true
  | _ => false
  end.

(** [Array.isArray(v)] fails and [v && typeof v === 'object'] holds. *)
Definition isPlainObject (v : jsval) : bool :=
  match v with
  | VCap _ | VObj _ => true
  | _ => false
  end.

Fixpoint indexed {A : Type} (i : nat) (l : list A) : list (nat * A) :=
  match l with
  | [] => []
  | x :: r => (i, x) :: indexed (S i) r
  end.

(** The own properties of an object value in [Object.keys] order; those of
    an array are its indices. *)
Definition properties (v : jsval) : Obj jsval :=
  match v with
  | VObj o => o
  | VCap o => map (fun e : string * string => (fst e, VStr (snd e))) o
  | VArr l => map (fun e : nat * jsval => (Str.ofNat (fst e), snd e)) (indexed 0 l)
  | _ => []
  end.

(** A row of the export: a value may be [undefined], which is [None]. *)
Definition exportRow : Type := Obj (option jsval).

(** [a || b] on values that may be [undefined]. *)
Definition orElse (a b : option jsval) : option jsval :=
  if optTruthy a then a else b.

(** [Object.keys(targetContentType.attributes)[0]], inside a template or
    as a property name. *)
Definition firstFieldOf (targetContentType : schema) : string :=
  match Ob.keys (attributes targetContentType) with
  | k :: _ => k
  | [] => "undefined"
  end.

(** [item[targetFirstField] || item.name || item.title || item.displayName
    || item.id] *)
Definition firstColumnValue (targetFirstField : string) (item : jsval)
    : option jsval :=
  let p := properties item in
  orElse (orElse (orElse (orElse (Ob.get targetFirstField p) (Ob.get "name" p))
                         (Ob.get "title" p))
                 (Ob.get "displayName" p))
         (Ob.get "id" p).

(** The name of the column that stands for a relation field. *)
Definition relationColumnName (fieldName : string) (targetContentType : schema)
    : string :=
  (fieldName ++ "." ++ firstFieldOf targetContentType)%string.

(** The loop over the keys of one component: every key but [id] and
    [__component] whose value is not an object becomes a column. *)
Definition flattenComponent (columnPrefix : string) (component : jsval)
    (transformedEntry : exportRow) : exportRow :=
  fold_left
    (fun (te : exportRow) (e : string * jsval) =>
       let (key, value) := e in
       if negb (key =? "id") && negb (key =? "__component")
          && negb (isObjectType value)
       then Ob.set (columnPrefix ++ "." ++ key)%string (Some value) te
       else te)
    (properties component) transformedEntry.

Section ExportCsv.

Variable numberToString : jsval -> string.
Variable strapi : registry.

(** [relationValues.join(', ')]: [null] and [undefined] give the empty
    text. *)
Definition joinValues (sep : string) (values : list (option jsval)) : string :=
  Str.join sep
    (map (fun v => match v with
                   | None | Some VNull => ""
                   | Some x => toStringJs numberToString x
                   end)
         values).

(** The body of [Object.keys(schema).forEach(fieldName => ...)]: reads
    [entry], writes [transformedEntry]. *)
Definition transformField (entry : row) (transformedEntry : exportRow)
    (e : string * attribute) : exportRow :=
  let (fieldName, field) := e in
  match Ob.get fieldName entry with
  | None => transformedEntry
  | Some v =>
      if negb (truthy v) then transformedEntry
      else if type field =? "component" then
        match v with
        | VArr componentData =>
            Ob.del fieldName
              (fold_left
                 (fun (te : exportRow) (c : nat * jsval) =>
                    let (index, component) := c in
                    if truthy component && isObjectType component
                    then flattenComponent
                           (fieldName ++ "." ++ Str.ofNat (index + 1))%string
                           component te
                    else te)
                 (indexed 0 componentData) transformedEntry)
        | _ =>
            if isPlainObject v
            then Ob.del fieldName (flattenComponent fieldName v transformedEntry)
            else transformedEntry
        end
      else if type field =? "relation" then
        Ob.del fieldName
          (match v with
           | VArr relationData =>
               match Ob.get (target field) (contentTypes strapi) with
               | Some targetContentType =>
                   let relationValues :=
                     flat_map
                       (fun item =>
                          if truthy item && isObjectType item
                          then [firstColumnValue (firstFieldOf targetContentType) item]
                          else [])
                       relationData in
                   Ob.set (relationColumnName fieldName targetContentType)
                          (Some (VStr (joinValues ", " relationValues)))
                          transformedEntry
               | None => transformedEntry
               end
           | _ =>
               if isPlainObject v then
                 match Ob.get (target field) (contentTypes strapi) with
                 | Some targetContentType =>
                     Ob.set (relationColumnName fieldName targetContentType)
                            (firstColumnValue (firstFieldOf targetContentType) v)
                            transformedEntry
                 | None => transformedEntry
                 end
               else transformedEntry
           end)
      else transformedEntry
  end.

(** The callback of [entries.map(entry => ...)]. *)
Definition transformEntry (schemaAttributes : Obj attribute) (entry : row)
    : exportRow :=
  let transformedEntry : exportRow :=
    map (fun e : string * jsval => (fst e, Some (snd e))) entry in
  Ob.del "publishedAt"
    (Ob.del "updatedAt"
       (Ob.del "createdAt"
          (fold_left (transformField entry) schemaAttributes transformedEntry))).

(** *** createCsvContent *)

Definition dqChar : ascii := ascii_of_nat 34.

Definition newline : string := String (ascii_of_nat 10) EmptyString.

(** The [replace] of the cell callback: every double quote is doubled. *)
Fixpoint doubleQuotes (s : string) : string :=
  match s with
  | EmptyString => EmptyString
  | String c r =>
      if Ascii.eqb c dqChar
      then String dqChar (String dqChar (doubleQuotes r))
      else String c (doubleQuotes r)
  end.

(** The text of a string cell. *)
Definition textCell (s : string) : string :=
  if Str.includesChar "," s || Str.includesChar dqChar s
  then quoted (doubleQuotes s)
  else s.

(** The callback of [headers.map(header => ...)] followed by the
    conversion that [join] makes of its result. *)
Definition cellText (value : option jsval) : string :=
  match value with
  | None | Some VNull => ""
  | Some (VStr s) => textCell s
  | Some v => toStringJs numberToString v
  end.

(** The columns: the keys of the first row that do not start with two
    underscores and whose value in the first row is not an object. *)
Definition exportHeaders (first : exportRow) : list string :=
  map fst
      (filter (fun e : string * option jsval =>
                 negb (Str.startsWith "__" (fst e))
                 && negb (match snd e with
                          | Some v => isObjectType v
                          | None => false
                          end))
              first).

(** [row[header]]: an absent key and an [undefined] value read alike. *)
Definition cellOf (r : exportRow) (header : string) : option jsval :=
  match Ob.get header r with
  | Some v => v
  | None => None
  end.

Definition csvLine (headers : list string) (r : exportRow) : string :=
  Str.join "," (map (fun header => cellText (cellOf r header)) headers).

Definition createCsvContent (data : list exportRow) : string :=
  match data with
  | [] => "No data available"
  | first :: _ =>
      let headers := exportHeaders first in
      Str.join newline (Str.join "," headers :: map (csvLine headers) data)
  end.

End ExportCsv.

(** ** The controller

    A handler reads the request from [ctx] and leaves a response or an
    error.  The model keeps what the handlers read of the request, and the
    response as a status with a body.  [ctx.throw(status, message)] throws
    an error that carries the status; the body of every handler is inside
    [try], so that error reaches the [catch] of the handler like any
    other. *)

Module Http.

(** An error object.  One made by [ctx.throw] has a status; an error of
    the runtime or of a service has none. *)
Record error : Type := mkError { status : option Z; message : string }.

Record response (B : Type) : Type := mkResponse { code : Z; body : B }.
Arguments mkResponse {B}.
Arguments code {B}.
Arguments body {B}.

End Http.

(** How a handler ends: with a value, with an error thrown, or not at all
    (within the iterations that the import loop was given). *)
Inductive step (A : Type) : Type :=
| Done (a : A)
| Raised (e : Http.error)
| Running.
Arguments Done {A} a.
Arguments Raised {A} e.
Arguments Running {A}.

Definition Handler (S A : Type) : Type := world S -> step A * world S.

Definition retH {S A : Type} (a : A) : Handler S A := fun w => (Done a, w).

Definition bindH {S A B : Type} (m : Handler S A) (k : A -> Handler S B)
    : Handler S B :=
  fun w =>
    match m w with
    | (Done a, w') => k a w'
    | (Raised e, w') => (Raised e, w')
    | (Running, w') => (Running, w')
    end.

(** [ctx.throw(status, message)] *)
Definition ctxThrow {S A : Type} (status : Z) (message : string) : Handler S A :=
  fun w => (Raised (Http.mkError (Some status) message), w).

(** [try { m } catch (error) { handler(error) }] *)
Definition catchH {S A : Type} (m : Handler S A) (handler : Http.error -> Handler S A)
    : Handler S A :=
  fun w =>
    match m w with
    | (Raised e, w') => handler e w'
    | other => other
    end.

(** [await] of a call of the service: a rejection is thrown on. *)
Definition await {S A : Type} (m : M S A) : Handler S A :=
  fun w =>
    match m w with
    | (Ok a, w') => (Done a, w')
    | (Throw message, w') => (Raised (Http.mkError None message), w')
    end.

(** [await] of the import loop, which may not end. *)
Definition awaitLoop {S A : Type} (m : M S (option A)) : Handler S A :=
  fun w =>
    match m w with
    | (Ok (Some a), w') => (Done a, w')
    | (Ok None, w') => (Running, w')
    | (Throw message, w') => (Raised (Http.mkError None message), w')
    end.

(** A call that touches no store. *)
Definition ofResult {S A : Type} (r : result A) : Handler S A :=
  await (fun w => (r, w)).

Declare Scope handler_scope.
Delimit Scope handler_scope with handler.
Notation "x <~ m ;; k" := (bindH m (fun x => k))
  (at level 61, m at next level, right associativity) : handler_scope.
Local Open Scope handler_scope.

(** What the handlers read of an uploaded file. *)
Module UploadedFile.
Record t : Type := mk { name : string; path : string }.
End UploadedFile.

(** [ctx.params.contentType] and [ctx.request.files.file]. *)
Module FileRequest.
Record t : Type := mk {
  contentType : string;
  file : option UploadedFile.t
}.
End FileRequest.

(** The fields of [ctx.request.body] that [importCsv] reads; an absent
    field is [None].  The batch size is a number: one that arrives as text
    makes [i += batchSize] of the import loop a concatenation and is outside
    the model. *)
Module ImportFields.
Record t : Type := mk {
  upsert : option jsval;
  batchSize : option Z;
  upsertField : option string;
  mediaFieldMappings : option string
}.
(** [ctx.request.body || {}] for a request without body. *)
Definition none : t := mk None None None None.
End ImportFields.

Module ImportRequest.
Record t : Type := mk {
  contentType : string;
  file : option UploadedFile.t;
  fields : option ImportFields.t
}.
End ImportRequest.

(** The [details] of the answer to a file that failed validation. *)
Module Rejection.
Record t : Type := mk {
  errors : list string;
  warnings : list string;
  invalidRows : option (list rowResult);
  fileName : option string;
  totalRows : option nat
}.
End Rejection.

(** The [data] of the answer of [importCsv]. *)
Module ImportReport.
Record t : Type := mk {
  created : nat;
  updated : nat;
  errors : list RowError.t;
  totalProcessed : nat;
  warnings : list string;
  contentType : string
}.
End ImportReport.

(** The [data] of the answer of [uploadCsv]. *)
Module UploadReport.
Record t : Type := mk {
  contentType : ApiContentType.t;
  validation : Validation.t;
  preview : list csvRow;
  totalRows : nat;
  fileName : string
}.
End UploadReport.

(** The [data] of the answer of [previewCsv]. *)
Module Preview.
Record t : Type := mk {
  headers : list string;
  preview : list csvRow;
  totalRows : nat;
  contentTypeAttributes : list string;
  fileName : string
}.
End Preview.

Inductive importBody : Type :=
| Imported (data : ImportReport.t)
| ImportRejected (details : Rejection.t).

Inductive uploadBody : Type :=
| Uploaded (data : UploadReport.t)
| UploadRejected (details : Rejection.t).

(** The registry as the services of the plugin read it. *)
Definition registryOf (contentTypes : Obj ContentType.t)
    (components : Obj schema) : registry :=
  mkRegistry
    (map (fun e : string * ContentType.t =>
            (fst e, mkSchema (ContentType.attributes (snd e))))
         contentTypes)
    components.

(** A listed content type, read as the [contentType] argument of the
    services. *)
Definition schemaOf (targetContentType : ApiContentType.t) : schema :=
  mkSchema (ApiContentType.attributes targetContentType).

Definition notFound (contentType : string) : string :=
  ("Content type " ++ quoted contentType ++ " not found")%string.

(** [upsert === 'true' || upsert === true] *)
Definition upsertBoolean (upsert : jsval) : bool :=
  match upsert with
  | VStr s => s =? "true"
  | VBool b => b
  | _ => false
  end.

Module Controller.

Section Handlers.

(** The runtime and the surroundings of the plugin: the clock-free parts
    of [Date], [String] of a number, [localeCompare], [fs.readFileSync],
    the CSV parser behind [parseCsv], [JSON.parse] on the text of the media
    mappings ([None] when it throws; a text that parses holds an array of
    mappings), and the message of the TypeError of the engine. *)
Variable toISOString : string -> option string.
Variable numberToString : jsval -> string.
Variable localeCompare : string -> string -> comparison.
Variable readFileSync : string -> result string.
Variable parseCsv : string -> result (list csvRow).
Variable parseMappings : string -> option (list Media.t).
Variable typeError : string.

(** The iterations that the import loop may use. *)
Variable fuel : nat.

(** [strapi.contentTypes], [strapi.components] and
    [strapi.entityService]. *)
Variable contentTypes : Obj ContentType.t.
Variable components : Obj schema.
Context {S : Type}.
Variable svc : entityService S.

(** [csvImportService.getContentTypes()] inside [try]. *)
Definition listContentTypes : Handler S (Obj ApiContentType.t) :=
  match getContentTypes contentTypes with
  | Some api => retH api
  | None => fun w => (Raised (Http.mkError None typeError), w)
  end.

(** [getContentTypes(ctx)]: the listed types and their count. *)
Definition getContentTypes
    : Handler S (Http.response (Obj ApiContentType.t * nat)) :=
  catchH
    (api <~ listContentTypes ;;
     retH (Http.mkResponse 200 (api, length (Ob.keys api))))
    (fun error =>
       ctxThrow 500 ("Failed to fetch content types: " ++ Http.message error)).

(** [validateCsvData] as the handlers call it. *)
Definition validate (csvData : list csvRow)
    (targetContentType : ApiContentType.t) : Handler S Validation.t :=
  match validateCsvData toISOString (registryOf contentTypes components)
                        csvData (schemaOf targetContentType) with
  | Some validation => retH validation
  | None => fun w => (Raised (Http.mkError None typeError), w)
  end.

(** [uploadCsv(ctx)] *)
Definition uploadCsv (ctx : FileRequest.t) : Handler S (Http.response uploadBody) :=
  catchH
    (api <~ listContentTypes ;;
     match Ob.get (FileRequest.contentType ctx) api with
     | None => ctxThrow 404 (notFound (FileRequest.contentType ctx))
     | Some targetContentType =>
         match FileRequest.file ctx with
         | None => ctxThrow 400 "No file uploaded"
         | Some file =>
             fileBuffer <~ ofResult (readFileSync (UploadedFile.path file)) ;;
             csvData <~ ofResult (parseCsv fileBuffer) ;;
             validation <~ validate csvData targetContentType ;;
             match Validation.errors validation with
             | _ :: _ =>
                 retH (Http.mkResponse 400
                         (UploadRejected
                            (Rejection.mk (Validation.errors validation)
                               (Validation.warnings validation)
                               (Validation.invalidRows validation)
                               (Some (UploadedFile.name file))
                               (Some (length csvData)))))
             | [] =>
                 retH (Http.mkResponse 200
                         (Uploaded
                            (UploadReport.mk targetContentType validation
                               (slice csvData 0 5) (length csvData)
                               (UploadedFile.name file))))
             end
         end
     end)
    (fun error =>
       ctxThrow 500 ("Failed to process CSV: " ++ Http.message error)).

(** [previewCsv(ctx)] *)
Definition previewCsv (ctx : FileRequest.t) : Handler S (Http.response Preview.t) :=
  catchH
    (match FileRequest.file ctx with
     | None => ctxThrow 400 "No file uploaded"
     | Some file =>
         fileBuffer <~ ofResult (readFileSync (UploadedFile.path file)) ;;
         api <~ listContentTypes ;;
         match Ob.get (FileRequest.contentType ctx) api with
         | None => ctxThrow 404 (notFound (FileRequest.contentType ctx))
         | Some targetContentType =>
             csvData <~ ofResult (parseCsv fileBuffer) ;;
             retH (Http.mkResponse 200
                     (Preview.mk
                        (match csvData with
                         | first :: _ => Ob.keys first
                         | [] => []
                         end)
                        (slice csvData 0 10) (length csvData)
                        (Ob.keys (ApiContentType.attributes targetContentType))
                        (UploadedFile.name file)))
         end
     end)
    (fun error =>
       ctxThrow 500 ("Failed to preview CSV: " ++ Http.message error)).

(** The options that [importCsv] passes to [importData]. *)
Definition importOptions (fields : ImportFields.t) : Options.t :=
  Options.mk
    (match ImportFields.upsert fields with
     | Some upsert => upsertBoolean upsert
     | None => false
     end)
    (match ImportFields.batchSize fields with
     | Some batchSize => batchSize
     | None => 100%Z
     end)
    (match ImportFields.upsertField fields with
     | Some upsertField => upsertField
     | None => "id"
     end)
    (match parseMappings
             (match ImportFields.mediaFieldMappings fields with
              | Some text => text
              | None => "[]"
              end) with
     | Some parsedMediaMappings => parsedMediaMappings
     | None => []
     end).

(** [importCsv(ctx)] *)
Definition importCsv (ctx : ImportRequest.t) : Handler S (Http.response importBody) :=
  catchH
    (let fields :=
       match ImportRequest.fields ctx with
       | Some fields => fields
       | None => ImportFields.none
       end in
     match ImportRequest.file ctx with
     | None => ctxThrow 400 "No file uploaded"
     | Some file =>
         fileBuffer <~ ofResult (readFileSync (UploadedFile.path file)) ;;
         api <~ listContentTypes ;;
         match Ob.get (ImportRequest.contentType ctx) api with
         | None => ctxThrow 404 (notFound (ImportRequest.contentType ctx))
         | Some targetContentType =>
             csvData <~ ofResult (parseCsv fileBuffer) ;;
             validation <~ validate csvData targetContentType ;;
             match Validation.errors validation with
             | _ :: _ =>
                 retH (Http.mkResponse 400
                         (ImportRejected
                            (Rejection.mk (Validation.errors validation)
                               (Validation.warnings validation)
                               (Validation.invalidRows validation)
                               None None)))
             | [] =>
                 relationsProcessedData <~
                   await (processRelations svc
                            (registryOf contentTypes components)
                            (Validation.validData validation)
                            (schemaOf targetContentType)) ;;
                 processedData <~
                   await (processComponents toISOString svc
                            (registryOf contentTypes components)
                            relationsProcessedData
                            (schemaOf targetContentType)) ;;
                 importResults <~
                   awaitLoop (importData numberToString localeCompare svc fuel
                                (ApiContentType.uid targetContentType)
                                processedData (importOptions fields)) ;;
                 retH (Http.mkResponse 200
                         (Imported
                            (ImportReport.mk
                               (Results.created importResults)
                               (Results.updated importResults)
                               (Results.errors importResults)
                               (length processedData)
                               (Validation.warnings validation)
                               (ApiContentType.displayName targetContentType))))
             end
         end
     end)
    (fun error =>
       ctxThrow 500 ("Failed to import CSV: " ++ Http.message error)).

End Handlers.

End Controller.

(** * Vocabulary of the properties *)

(** The names of the members that every object inherits: a read [o[k]]
    with one of them as key finds the inherited member when [o] has no key
    of its own under that name. *)
Definition inheritedNames : list string :=
  ["constructor"; "__defineGetter__"; "__defineSetter__"; "hasOwnProperty";
   "__lookupGetter__"; "__lookupSetter__"; "isPrototypeOf";
   "propertyIsEnumerable"; "toString"; "valueOf"; "__proto__";
   "toLocaleString"].

Definition inheritedName (k : string) : bool := includes k inheritedNames.

(** None of the names is the name of an inherited member. *)
Definition ownNames (names : list string) : bool :=
  forallb (fun k => negb (inheritedName k)) names.

(** A text of ASCII characters only. *)
Definition asciiText (s : string) : bool :=
  Num.allChars (fun c => (nat_of_ascii c <? 128)%nat) s.

(** A text without a line feed and without a carriage return. *)
Definition singleLine (s : string) : bool :=
  negb (Str.includesChar (ascii_of_nat 10) s)
  && negb (Str.includesChar (ascii_of_nat 13) s).

(** The keys of the row under construction that a column with mapping [m]
    may assign. *)
Definition writes (m : mapping) (k : string) : bool :=
  isValid m &&
  ((field m =? k) ||
   (isDotNotation m &&
    ((if isComponent m then componentDataKey (field m)
      else dotNotationKey (field m)) =? k))).

Definition cellWrites (headerMapping : Obj mapping) (cell : string * string)
    (k : string) : bool :=
  match Ob.get (fst cell) headerMapping with
  | Some m => writes m k
  | None => false
  end.

(** No attribute name starts with two underscores, so none can coincide
    with a capture key. *)
Definition plainNames (attrs : Obj attribute) : bool :=
  forallb (fun k => negb (Str.startsWith "__" k)) (Ob.keys attrs).

Definition isCapture (v : jsval) : bool :=
  match v with VCap _ => true | _ => false end.

(** Every value of the row under construction is a capture or sits under an
    attribute name. *)
Definition rowShape (attrs : Obj attribute) (r : row) : Prop :=
  forall k v, Ob.get k r = Some v -> isCapture v = true \/ In k (Ob.keys attrs).

(** The shape of a row that validation built: captures sit under keys that
    start with two underscores, a relation attribute holds cell text, and a
    relation capture key holds a relation capture. *)
Definition validatedShape (attrs : Obj attribute) (r : row) : Prop :=
  (forall k v,
      Ob.get k r = Some v ->
      (Str.startsWith "__" k = true /\ isCapture v = true)
      \/ (exists a, Ob.get k attrs = Some a
                    /\ (type a = "relation" -> exists s, v = VStr s)))
  /\ (forall f v,
        Ob.get (dotNotationKey f) r = Some v ->
        exists relationField value, v = dotCapture relationField value).

Fixpoint lastChar (s : string) : option ascii :=
  match s with
  | EmptyString => None
  | String c EmptyString => Some c
  | String _ r => lastChar r
  end.

(** What the spec calls rejecting the whole file: the joint error is
    reported and no row reaches [validData] or [invalidRows]. *)
Definition fileRejected (message : string) (v : Validation.t) : Prop :=
  In message (Validation.errors v) /\
  Validation.validData v = [] /\
  (Validation.invalidRows v = None \/ Validation.invalidRows v = Some []).

(** The message about an empty cell of a required attribute. *)
Definition requiredMissing (index : nat) (fieldName : string) : string :=
  (rowLabel index ++ "Required field " ++ quoted fieldName ++ " is missing")%string.

(** The messages that one cell adds to the errors of its row: for a column
    with a valid mapping, the message of the type switch when the cell is
    present and rejected, and the message about a required field when the
    cell is empty, the attribute is required without a default and the
    header has no dot. *)
Definition cellMessages (toISOString : string -> option string)
    (attrs : Obj attribute) (headerMapping : Obj mapping) (index : nat)
    (cell : string * string) : list string :=
  match Ob.get (fst cell) headerMapping with
  | Some m =>
      if isValid m then
        match Ob.get (field m) attrs with
        | Some attribute =>
            if negb (snd cell =? "") then
              match coerceCell toISOString index (field m) attribute (snd cell) with
              | Reject msg => [msg]
              | Store _ | Skip => []
              end
            else if required attribute
                    && negb (optTruthy (default attribute))
                    && negb (isDotNotation m)
            then [requiredMissing index (field m)]
            else []
        | None => []
        end
      else []
  | None => []
  end.

(** What the row callback returns for the row [r] at position [index]: the
    row itself, the messages of its cells in cell order and, when no part
    of a header is the name of an inherited member, the data that the cells
    leave behind. *)
Definition rowOutcome (toISOString : string -> option string)
    (attrs : Obj attribute) (csvHeaders : list string) (index : nat)
    (r : csvRow) (res : rowResult) : Prop :=
  let headerMapping := parseHeaderMapping csvHeaders attrs in
  originalRow res = r
  /\ rowErrors res
     = flat_map (cellMessages toISOString attrs headerMapping index) r
  /\ (ownNames (flat_map (Str.split ".") csvHeaders) = true ->
      validateCells toISOString attrs headerMapping index r ([], [])
      = Some (data res, rowErrors res)).

(** The entries of a repeatable component as the specification words them,
    for a given way of cutting a cell into segments: entry [i] takes the
    [i]-th segment of every subfield that has one and whose segment is not
    empty; there are as many candidate entries as the longest list of
    segments, and the empty ones are dropped. *)
Definition entryAt (segments : string -> list string)
    (componentData : Obj string) (i : nat) : Obj string :=
  flat_map
    (fun entry : string * string =>
       match nth_error (segments (snd entry)) i with
       | Some segment => if segment =? "" then [] else [(fst entry, segment)]
       | None => []
       end)
    componentData.

Definition longestSplit (segments : string -> list string)
    (componentData : Obj string) : nat :=
  fold_right (fun (entry : string * string) m =>
                Nat.max (length (segments (snd entry))) m)
             0 componentData.

Definition populated (entry : Obj string) : bool :=
  match entry with [] => false | _ :: _ => true end.

Definition componentEntries (segments : string -> list string)
    (componentData : Obj string) : list (Obj string) :=
  filter populated
         (map (entryAt segments componentData)
              (seq 0 (longestSplit segments componentData))).


Definition total (results : Results.t) : nat :=
  Results.created results + Results.updated results
  + length (Results.errors results).

(** A computation that returns, seen as one that returns [Some]. *)
Definition asSome {S A : Type} (x : result A * world S)
    : result (option A) * world S :=
  match x with
  | (Ok a, w) => (Ok (Some a), w)
  | (Throw e, w) => (Throw e, w)
  end.

Section StoreVocabulary.

Context {S : Type}.

(** A computation only adds calls at the end of the log. *)
Definition appendsLog {A : Type} (m : M S A) : Prop :=
  forall w, exists l, log (snd (m w)) = (log w ++ l)%list.

Variable svc : entityService S.
Variable strapi : registry.

(** The rest of [findRelatedEntity] once the search-field block found
    nothing. *)
Definition afterSearchField (t v : string)
    : M S (option Entity.t) :=
  tryCatch
    (byId <- findById svc t v ;;
     match byId with
     | Some e => ret (Some e)
     | None => findByCommon svc strapi t v
     end)
    (fun _ => ret None).

(** Resolving a list of values one after the other, each with its own
    lookup, keeping the hits in order and skipping the misses. *)
Inductive resolvesTo (t : string) (sf : option string)
    : list string -> world S -> list Entity.t -> world S -> Prop :=
| resolves_nil (w : world S) : resolvesTo t sf [] w [] w
| resolves_hit (value : string) (rest : list string) (w w1 w2 : world S)
    (e : Entity.t) (es : list Entity.t) :
    findRelatedEntity svc strapi t value sf w = (Ok (Some e), w1) ->
    resolvesTo t sf rest w1 es w2 ->
    resolvesTo t sf (value :: rest) w (e :: es) w2
| resolves_miss (value : string) (rest : list string) (w w1 w2 : world S)
    (es : list Entity.t) :
    findRelatedEntity svc strapi t value sf w = (Ok None, w1) ->
    resolvesTo t sf rest w1 es w2 ->
    resolvesTo t sf (value :: rest) w es w2.

(** The last call of a row, create or update, and what the [catch] makes of
    its outcome. *)
Definition settle (results counted : Results.t) (item : row) (c : call)
    (reply : result Entity.t * S) (w : world S) : result Results.t * world S :=
  let w' := mkWorld (snd reply) (log w ++ [c]) in
  match fst reply with
  | Ok _ => (Ok counted, w')
  | Throw message => (Ok (addError results item message), w')
  end.

End StoreVocabulary.

(** ** Relations *)

(** The names of the relation attributes of a schema. *)
Definition relationNames (attrs : Obj attribute) : list string :=
  map fst (filter (fun entry : string * attribute => type (snd entry) =? "relation")
                  attrs).

(** The four kinds of relation that [processRelations] resolves. *)
Definition relationKinds : list string :=
  ["oneToOne"; "manyToOne"; "oneToMany"; "manyToMany"].

Section QueryVocabulary.

Context {S : Type}.

(** A computation makes at most [n] store calls, each of them a [findMany]
    on the content type [t]. *)
Definition queriesOnly {A : Type} (t : string) (n : nat) (m : M S A) : Prop :=
  forall w, exists calls,
    log (snd (m w)) = log w ++ calls
    /\ length calls <= n
    /\ forall c, In c calls -> exists f, c = FindMany t f.

(** Every [findMany] of the service throws. *)
Definition lookupsFail (svc : entityService S) : Prop :=
  forall uid f s, exists message s', findMany svc uid f s = (Throw message, s').

End QueryVocabulary.

(** ** Components *)

(** The names of the component attributes of a schema. *)
Definition componentNames (attrs : Obj attribute) : list string :=
  map fst (filter (fun entry : string * attribute => type (snd entry) =? "component")
                  attrs).

(** The attribute a captured subfield belongs to: the text before its first
    dot. *)
Definition subfieldHead (subfield : string) : string :=
  hd "" (Str.split "." subfield).

(** ** Validated rows and relation columns *)

(** The shape of the value that the type switch stores for an attribute: a
    number for the integer types, a decimal literal for the decimal types,
    a boolean for booleans, nothing for components and text for all the
    rest. *)
Definition storedAs (a : attribute) (v : jsval) : bool :=
  let t := type a in
  if (t =? "integer") || (t =? "biginteger") then
    match v with VNum _ => true | _ => false end
  else if (t =? "decimal") || (t =? "float") then
    match v with VLit _ => true | _ => false end
  else if t =? "boolean" then
    match v with VBool _ => true | _ => false end
  else if t =? "component" then false
  else match v with VStr _ => true | _ => false end.

(** What a key of a validated row may be: an attribute with a value of its
    type, the capture key of a relation attribute with a relation capture,
    or the capture key of a component attribute with a capture object. *)
Definition typedEntry (attrs : Obj attribute) (k : string) (x : jsval) : Prop :=
  (exists a, Ob.get k attrs = Some a /\ storedAs a x = true)
  \/ (exists f a,
        Ob.get f attrs = Some a /\ type a = "relation"
        /\ k = dotNotationKey f
        /\ exists relationField value, x = dotCapture relationField value)
  \/ (exists f a,
        Ob.get f attrs = Some a /\ type a = "component"
        /\ k = componentDataKey f /\ isCapture x = true).

Definition typedRow (attrs : Obj attribute) (r : row) : Prop :=
  forall k x, Ob.get k r = Some x -> typedEntry attrs k x.

(** A column that carries a relation capture. *)
Definition isRelationColumn (m : mapping) : bool :=
  isValid m && isDotNotation m && negb (isComponent m).



(** ** The uniqueness check *)


(** The step of the loop that collects the relation columns. *)
Definition collectStep (attrs : Obj attribute)
    (relationFields : Obj relationInfo)
    (entry : string * mapping) : Obj relationInfo :=
  let (csvHeader, m) := entry in
  if isValid m && negb (isComponent m) && isDotNotation m then
    match Ob.get (field m) attrs with
    | Some attribute =>
        if type attribute =? "relation"
        then Ob.set (field m)
               (mkRelationInfo csvHeader (relationField m) attribute)
               relationFields
        else relationFields
    | None => relationFields
    end
  else relationFields.

(** ** Media fields *)



(** ** Patterns, content types and keywords *)

(** A pattern made of plain characters and of characters with a backslash
    in front, read back as the text it matches; [None] when a special
    character stands without its backslash. *)
Fixpoint literalOf (pattern : string) : option string :=
  match pattern with
  | EmptyString => Some EmptyString
  | String c r =>
      if Ascii.eqb c backslash then
        match r with
        | String d r' => option_map (String d) (literalOf r')
        | EmptyString => None
        end
      else if isRegExpSpecial c then None
      else option_map (String c) (literalOf r)
  end.

(** The keywords of a media field. *)
Definition keywordsOf (mediaFieldName : string) : list string :=
  match Ob.get mediaFieldName fieldKeywords with
  | Some keywords => keywords
  | None => []
  end.

(** What an entry of the result says about the registry. *)
Definition listedFrom (contentTypes : Obj ContentType.t) (name : string)
    (a : ApiContentType.t) : Prop :=
  Str.startsWith "api::" (ApiContentType.uid a) = true
  /\ exists contentType i,
       In (ApiContentType.uid a, contentType) contentTypes
       /\ ContentType.info_ contentType = Some i
       /\ ContentType.singularName i = name
       /\ a = ApiContentType.mk (ApiContentType.uid a) name
                (ContentType.pluralName i) (displayNameOr i)
                (ContentType.attributes contentType).

(** ** The files of an archive *)

(** An entry that can reach a media field: a file, not a system file of
    macOS, inside at least one folder. *)
Definition inFolder (entry : ZipEntry.t) : bool :=
  negb (ZipEntry.isDirectory entry)
  && negb (isSystemPath (ZipEntry.entryName entry))
  && (2 <=? length (Str.split "/" (ZipEntry.entryName entry)))%nat.

(** The media field whose folder the entry is in, if any. *)
Definition folderField (mediaFields : list string) (entry : ZipEntry.t)
    : option string :=
  match matchedMediaField mediaFields (Str.split "/" (ZipEntry.entryName entry)) with
  | Some field => if Str.truthy field then Some field else None
  | None => None
  end.

(** The folders of the path of an entry: its segments but the last. *)
Definition foldersOf (entry : ZipEntry.t) : list string :=
  removelast (Str.split "/" (ZipEntry.entryName entry)).

(** The record made of an entry: its path and the last segment of it. *)
Definition describes (file : FileInfo.t) : Prop :=
  FileInfo.filePath file = ZipEntry.entryName (FileInfo.entry file)
  /\ FileInfo.fileName file
     = last (Str.split "/" (ZipEntry.entryName (FileInfo.entry file))) "".

(** ** Reading a line of the export *)

(** Reading one line of comma-separated fields with the usual quoting: a
    field that starts with a double quote runs to its closing double quote,
    and a doubled double quote inside it stands for one.  The text is one
    record: the end of a record is not looked for. *)
Inductive csvMode : Type := AtStart | Plain | Quoted.

(** A character put in front of the first field. *)
Definition pushHead (c : ascii) (fields : list string) : list string :=
  match fields with
  | f :: rest => String c f :: rest
  | [] => [String c EmptyString]
  end.

Fixpoint csvFields (m : csvMode) (s : string) : list string :=
  match s with
  | EmptyString => [EmptyString]
  | String c r =>
      match m with
      | Quoted =>
          if Ascii.eqb c dqChar then
            match r with
            | String d r' =>
                if Ascii.eqb d dqChar
                then pushHead dqChar (csvFields Quoted r')
                else csvFields Plain r
            | EmptyString => [EmptyString]
            end
          else pushHead c (csvFields Quoted r)
      | AtStart =>
          if Ascii.eqb c dqChar then csvFields Quoted r
          else if Ascii.eqb c "," then EmptyString :: csvFields AtStart r
          else pushHead c (csvFields Plain r)
      | Plain =>
          if Ascii.eqb c "," then EmptyString :: csvFields AtStart r
          else pushHead c (csvFields Plain r)
      end
  end.

(** The fields of one line. *)
Definition readCsvLine (line : string) : list string := csvFields AtStart line.

(** No attribute name holds a dot. *)
Definition dotlessNames (attrs : Obj attribute) : bool :=
  forallb (fun k => negb (Str.includesChar "." k)) (Ob.keys attrs).

(** The text that a cell stands for, for the cells that are text, [null] or
    [undefined]. *)
Definition cellString (value : option jsval) : option string :=
  match value with
  | None | Some VNull => Some ""
  | Some (VStr s) => Some s
  | Some _ => None
  end.

(** A text put in front of the first field. *)
Definition pushHeadText (s : string) (fields : list string) : list string :=
  match fields with
  | f :: rest => (s ++ f)%string :: rest
  | [] => [s]
  end.

(** What may follow a cell in a line: the end, or a comma and the rest. *)
Definition cellEnd (tail : string) : Prop :=
  tail = "" \/ exists more, tail = String "," more.

(** The keys that the step for field [g] may touch are [g] itself and the
    keys that start with [g] and a dot. *)
Definition ownedBy (g k : string) : bool :=
  (g =? k) || Str.startsWith (g ++ ".") k.

(** ** The controller *)

(** The error that leaves a handler: thrown by [ctx.throw] with status 500
    and a message that starts with the text of the handler. *)
Definition serverError (intro : string) (e : Http.error) : Prop :=
  Http.status e = Some 500%Z /\ String.prefix intro (Http.message e) = true.

Section ImportTail.

Variable toISOString : string -> option string.
Variable numberToString : jsval -> string.
Variable localeCompare : string -> string -> comparison.
Variable parseMappings : string -> option (list Media.t).
Variable fuel : nat.
Variable contentTypes : Obj ContentType.t.
Variable components : Obj schema.
Context {S : Type}.
Variable svc : entityService S.

(** The part of [importCsv] that follows a validation without errors. *)
Definition importValid (fields : ImportFields.t)
    (targetContentType : ApiContentType.t) (validation : Validation.t)
    : Handler S (Http.response importBody) :=
  relationsProcessedData <~
    await (processRelations svc (registryOf contentTypes components)
             (Validation.validData validation)
             (schemaOf targetContentType)) ;;
  processedData <~
    await (processComponents toISOString svc
             (registryOf contentTypes components) relationsProcessedData
             (schemaOf targetContentType)) ;;
  importResults <~
    awaitLoop (importData numberToString localeCompare svc fuel
                 (ApiContentType.uid targetContentType)
                 processedData
                 (Controller.importOptions parseMappings fields)) ;;
  retH (Http.mkResponse 200
          (Imported
             (ImportReport.mk
                (Results.created importResults)
                (Results.updated importResults)
                (Results.errors importResults)
                (length processedData)
                (Validation.warnings validation)
                (ApiContentType.displayName targetContentType)))).

End ImportTail.

(** [ctx.request.body || {}] *)
Definition fieldsOf (ctx : ImportRequest.t) : ImportFields.t :=
  match ImportRequest.fields ctx with
  | Some fields => fields
  | None => ImportFields.none
  end.

(** What a handler has in hand after the validation: the uploaded file,
    the listed content type, the parsed rows and their validation. *)
Record validated : Type := mkValidated {
  ofFile : UploadedFile.t;
  ofTarget : ApiContentType.t;
  ofRows : list csvRow;
  ofValidation : Validation.t
}.

Section ControllerVocabulary.

Variable toISOString : string -> option string.
Variable readFileSync : string -> result string.
Variable parseCsv : string -> result (list csvRow).
Variable contentTypes : Obj ContentType.t.
Variable components : Obj schema.

(** The request got as far as the validation: the file was there and was
    read and parsed, the content type is listed, and the validation
    returned. *)
Definition reaches (file : option UploadedFile.t) (contentType : string)
    (v : validated) : Prop :=
  file = Some (ofFile v)
  /\ (exists fileBuffer,
        readFileSync (UploadedFile.path (ofFile v)) = Ok fileBuffer
        /\ parseCsv fileBuffer = Ok (ofRows v))
  /\ (exists api,
        getContentTypes contentTypes = Some api
        /\ Ob.get contentType api = Some (ofTarget v))
  /\ validateCsvData toISOString (registryOf contentTypes components)
       (ofRows v) (schemaOf (ofTarget v)) = Some (ofValidation v).

End ControllerVocabulary.

(** * Fixtures *)

(** ** The schemas of the test suite *)

Module Fixtures.

Definition plainAttr (t : string) : attribute :=
  mkAttr t false None false None "" "" "" false.

Definition requiredAttr (t : string) : attribute :=
  mkAttr t true None false None "" "" "" false.

Definition uniqueAttr (t : string) : attribute :=
  mkAttr t false None true None "" "" "" false.

Definition relationAttr (kind targetUid : string) : attribute :=
  mkAttr "relation" false None false None kind targetUid "" false.


(** [mockContentTypes.country] *)
Definition country : schema :=
  mkSchema [("name", requiredAttr "string"); ("code", uniqueAttr "string")].

(** [mockContentTypes.company] *)
Definition company : schema :=
  mkSchema
    [("name", requiredAttr "string");
     ("country", relationAttr "manyToOne" "api::country.country");
     ("established", plainAttr "integer");
     ("active", mkAttr "boolean" false (Some (VBool true)) false None "" "" "" false)].

(** [strapi.components['test.address']] of the test setup. *)
Definition address : schema :=
  mkSchema
    [("street", plainAttr "string");
     ("city", plainAttr "string");
     ("country", relationAttr "manyToOne" "api::country.country")].

Definition strapi : registry :=
  mkRegistry
    [("api::country.country", country); ("api::company.company", company)]
    [("test.address", address)].

(** A runtime in which no text is a date; the fixtures have no date
    column. *)
Definition noDates (value : string) : option string := None.

End Fixtures.

(** ** An in-memory store for the worked examples *)

Module MemoryStore.

(** The entities of every content type, in creation order. *)
Definition t : Type := list (string * Entity.t).

Definition fieldText (e : Entity.t) (fieldName : string) : option string :=
  match Ob.get fieldName (Entity.fields e) with
  | Some (VStr s) => Some s
  | _ => None
  end.

Fixpoint containsText (needle hay : string) : bool :=
  String.prefix needle hay ||
  match hay with
  | String _ r => containsText needle r
  | EmptyString => false
  end.

Definition sameScalar (a b : jsval) : bool :=
  match a, b with
  | VStr x, VStr y => x =? y
  | VNum x, VNum y => (x =? y)%Z
  | VBool x, VBool y => Bool.eqb x y
  | _, _ => false
  end.

(** Identifiers are compared with the integer written as a plain decimal
    literal. *)
Definition matches (f : filters) (e : Entity.t) : bool :=
  match f with
  | Eqi fieldName value =>
      match fieldText e fieldName with
      | Some s => Str.toLowerCase s =? Str.toLowerCase value
      | None => false
      end
  | Containsi fieldName value =>
      match fieldText e fieldName with
      | Some s => containsText (Str.toLowerCase value) (Str.toLowerCase s)
      | None => false
      end
  | ById value =>
      match Num.parseInt10 value with
      | Some z => (Entity.id e =? z)%Z
      | None => false
      end
  | Equals fieldName value =>
      if fieldName =? "id"
      then sameScalar (VNum (Entity.id e)) value
      else match Ob.get fieldName (Entity.fields e) with
           | Some x => sameScalar x value
           | None => false
           end
  end.

Definition ofType (uid : string) (s : t) : list Entity.t :=
  map snd (filter (fun entry : string * Entity.t => fst entry =? uid) s).

Definition nextId (s : t) : Z :=
  1 + fold_left (fun m (entry : string * Entity.t) => Z.max m (Entity.id (snd entry)))
                s 0%Z.

Definition service : entityService t :=
  mkService
    (fun uid f s => (Ok (firstn 1 (filter (matches f) (ofType uid s))), s))
    (fun uid d s =>
       let e := Entity.mk (nextId s) d in (Ok e, (s ++ [(uid, e)])%list))
    (fun uid id d s =>
       let e := Entity.mk id d in
       (Ok e,
        map (fun entry : string * Entity.t =>
               if (fst entry =? uid) && (Entity.id (snd entry) =? id)%Z
               then (uid, e) else entry)
            s)).

(** The same store with a failing operation, like the rejected mocks of
    the test suite. *)
Definition failingCreate (message : string) : entityService t :=
  mkService (findMany service) (fun _ _ s => (Throw message, s)) (update service).

Definition failingFindMany (message : string) : entityService t :=
  mkService (fun _ _ s => (Throw message, s)) (create service) (update service).

(** A world with an empty log. *)
Definition start (s : t) : world t := mkWorld s [].

(** The country of the test suite. *)
Definition india : Entity.t :=
  Entity.mk 1 [("name", VStr "India"); ("code", VStr "IN")].

Definition countries : t := [("api::country.country", india)].

End MemoryStore.

(** The registry and the store of the test [should handle multiple
    relations]. *)
Module Tags.

Definition tag : schema := mkSchema [("name", Fixtures.plainAttr "string")].

Definition article : schema :=
  mkSchema [("tags", Fixtures.relationAttr "manyToMany" "api::tag.tag")].

Definition strapi : registry := mkRegistry [("api::tag.tag", tag)] [].

Definition store : MemoryStore.t :=
  [("api::tag.tag", Entity.mk 1 [("name", VStr "tag1")]);
   ("api::tag.tag", Entity.mk 2 [("name", VStr "tag2")])].

End Tags.

(** A runtime for the worked examples: integers are written in decimal,
    literals as they were read, and names compare by character code. *)
Module SampleRuntime.

Definition numberToString (v : jsval) : string :=
  match v with
  | VNum z => NilZero.string_of_int (Z.to_int z)
  | VLit l => l
  | _ => ""
  end.

Definition localeCompare (a b : string) : comparison := String.compare a b.

End SampleRuntime.

(** The rows of the test [should handle batch processing]. *)
Definition fiveCountries : list row :=
  [[("name", VStr "Country 0"); ("code", VStr "C0")];
   [("name", VStr "Country 1"); ("code", VStr "C1")];
   [("name", VStr "Country 2"); ("code", VStr "C2")];
   [("name", VStr "Country 3"); ("code", VStr "C3")];
   [("name", VStr "Country 4"); ("code", VStr "C4")]].

(** ** The site of the test suite, as the controller sees it *)

Module Site.

(** [strapi.contentTypes] of the service tests, with the type of the
    upload plugin that [should exclude non-API content types] adds. *)
Definition contentTypes : Obj ContentType.t :=
  [("api::country.country",
    ContentType.mk
      (Some (ContentType.mkInfo "country" (Some "countries") (Some "Country")))
      (attributes Fixtures.country));
   ("api::company.company",
    ContentType.mk
      (Some (ContentType.mkInfo "company" (Some "companies") (Some "Company")))
      (attributes Fixtures.company));
   ("plugin::upload.file",
    ContentType.mk (Some (ContentType.mkInfo "file" None (Some "File"))) [])].

Definition components : Obj schema := [("test.address", Fixtures.address)].

(** The uploaded file of the controller tests and [validCountries]. *)
Definition file : UploadedFile.t := UploadedFile.mk "test.csv" "/tmp/test.csv".

Definition newlineChar : string := String (ascii_of_nat 10) EmptyString.

Definition countriesCsv : string :=
  String.concat newlineChar
    ["name,code"; "India,IN"; "United States,US"; "China,CN"].

Definition validCountries : list csvRow :=
  [[("name", "India"); ("code", "IN")];
   [("name", "United States"); ("code", "US")];
   [("name", "China"); ("code", "CN")]].

(** A file system that holds the one file, and a parser that reads it. *)
Definition readFileSync (path : string) : result string :=
  if path =? "/tmp/test.csv" then Ok countriesCsv
  else Throw "ENOENT: no such file or directory".

Definition parseCsv (text : string) : result (list csvRow) :=
  if text =? countriesCsv then Ok validCountries else Ok [].

(** [JSON.parse] on the default text of the media mappings. *)
Definition parseMappings (text : string) : option (list Media.t) :=
  if text =? "[]" then Some [] else None.

Definition typeError : string :=
  "Cannot destructure property 'singularName' of 'contentType.info' as it is undefined.".

(** A populated company as [findMany] returns it for the export. *)
Definition exportedCompany : row :=
  [("id", VNum 1);
   ("name", VStr "Test, Company");
   ("country", VObj [("id", VNum 1); ("name", VStr "India"); ("code", VStr "IN")])].

(** What [uploadCsv] reports for the file. *)
Definition countriesUpload : UploadReport.t :=
  UploadReport.mk
    (ApiContentType.mk "api::country.country" "country" (Some "countries")
       "Country" (attributes Fixtures.country))
    (Validation.mk [] []
       [[("name", VStr "India"); ("code", VStr "IN")];
        [("name", VStr "United States"); ("code", VStr "US")];
        [("name", VStr "China"); ("code", VStr "CN")]]
       (Some []))
    validCountries 3 "test.csv".

End Site.

(** ** An archive with a folder for a media field *)

Module Archive.

Definition attributes : Obj attribute :=
  [("name", Fixtures.requiredAttr "string");
   ("reports", Fixtures.plainAttr "media");
   ("payment_docs", Fixtures.plainAttr "media")].

Definition report : ZipEntry.t := ZipEntry.mk "reports/q1.pdf" false.

Definition zipEntries : list ZipEntry.t :=
  [ZipEntry.mk "reports/" true;
   report;
   ZipEntry.mk "__MACOSX/reports/._q1.pdf" false;
   ZipEntry.mk "readme.txt" false;
   ZipEntry.mk "data/invoice.pdf" false].

Definition reportFile : FileInfo.t :=
  FileInfo.mk "q1.pdf" "reports/q1.pdf" report None.

End Archive.

(** * Properties *)

(** ** Strings and numbers *)

Example parseInt10_samples :
  Num.parseInt10 "2010" = Some 2010%Z /\ Num.parseInt10 " -12abc" = Some (-12)%Z /\
  Num.parseInt10 "invalid" = None /\ Num.parseInt10 "" = None.
Proof. repeat split; reflexivity. Qed.

Example isNumeric_samples :
  Num.isNumeric "1" = true /\ Num.isNumeric " 42 " = true /\
  Num.isNumeric "1e3" = true /\ Num.isNumeric "0x1F" = true /\
  Num.isNumeric "" = false /\ Num.isNumeric "India" = false /\
  Num.isNumeric "12abc" = false /\ Num.isNumeric "Infinity" = false /\
  Num.isNumeric ".5" = false /\ Num.isNumeric "1,2" = false.
Proof. repeat split; reflexivity. Qed.

Example parseFloat_samples :
  Num.parseFloat "3.14abc" = Some "3.14" /\ Num.parseFloat "1e" = Some "1" /\
  Num.parseFloat "-.5e-3x" = Some "-.5e-3" /\ Num.parseFloat "." = None /\
  Num.parseFloat "abc" = None.
Proof. repeat split; reflexivity. Qed.

Example emailTest_samples :
  emailTest "valid@example.com" = true /\ emailTest "invalid-email" = false /\
  emailTest "a@b" = false /\ emailTest "a@b." = false /\ emailTest "a@.b" = false /\
  emailTest "a b@c.d" = false /\ emailTest "a@b@c.d" = false /\
  emailTest "a@b.c.d" = true.
Proof. repeat split; reflexivity. Qed.

(** White space beyond ASCII counts as white space.  A no-break space
    (U+00A0, the bytes 194 and 160) and a line separator (U+2028, the
    bytes 226, 128 and 168) are trimmed at both ends, leave no trace in
    the segments of a cell, are skipped in front of a number and make an
    address invalid; a letter whose encoding ends with the byte 160 is
    kept. *)
Example wide_white_space_samples :
  Str.trim (Str.ofBytes [194; 160] ++ "tag2" ++ Str.ofBytes [226; 128; 168])%string
  = "tag2"
  /\ Str.trim (Str.ofBytes [118; 111; 105; 108; 195; 160])
     = Str.ofBytes [118; 111; 105; 108; 195; 160]
  /\ splitTrim ("tag1," ++ Str.ofBytes [194; 160] ++ "tag2")%string = ["tag1"; "tag2"]
  /\ parseComponentRows
       [("street", ("Rue A," ++ Str.ofBytes [194; 160] ++ "Rue B")%string);
        ("city", ("Orleans," ++ Str.ofBytes [194; 160])%string)]
     = [[("street", "Rue A"); ("city", "Orleans")]; [("street", "Rue B")]]
  /\ Num.parseInt10 (Str.ofBytes [194; 160] ++ "12")%string = Some 12%Z
  /\ Num.isNumeric (Str.ofBytes [194; 160] ++ "12" ++ Str.ofBytes [226; 128; 168])%string
     = true
  /\ emailTest ("a" ++ Str.ofBytes [194; 160] ++ "x@b.c")%string = false.
Proof. repeat split; reflexivity. Qed.

(** ** Objects *)

Section ObjFacts.
Context {V : Type}.

Lemma get_set_same (k : string) (v : V) (o : Obj V) :
  Ob.get k (Ob.set k v o) = Some v.
Proof.
  induction o as [|[k' v'] o IH]; simpl.
  - now rewrite String.eqb_refl.
  - destruct (k' =? k) eqn:E; simpl.
    + now rewrite String.eqb_refl.
    + now rewrite E.
Qed.

Lemma get_set_other (k k' : string) (v : V) (o : Obj V) :
  k' <> k -> Ob.get k (Ob.set k' v o) = Ob.get k o.
Proof.
  intros Hne. apply String.eqb_neq in Hne.
  induction o as [|[k0 v0] o IH]; simpl.
  - now rewrite Hne.
  - destruct (k0 =? k') eqn:E; simpl.
    + apply String.eqb_eq in E. subst k0. now rewrite Hne.
    + destruct (k0 =? k); [reflexivity | exact IH].
Qed.

Lemma get_in_keys (k : string) (v : V) (o : Obj V) :
  Ob.get k o = Some v -> In k (Ob.keys o).
Proof.
  induction o as [|[k0 v0] o IH]; simpl; [discriminate|].
  destruct (k0 =? k) eqn:E.
  - apply String.eqb_eq in E. now left.
  - intros H. right. now apply IH.
Qed.

End ObjFacts.

(** ** Header mapping *)

Lemma parseHeaderMapping_fold (attrs : Obj attribute) (hs : list string) :
  forall acc h m,
    (forall h' m', Ob.get h' acc = Some m' -> m' = mapHeader attrs h') ->
    Ob.get h (fold_left (fun hm header => Ob.set header (mapHeader attrs header) hm)
                        hs acc) = Some m ->
    m = mapHeader attrs h.
Proof.
  induction hs as [|h0 hs IH]; intros acc h m Hacc Hget; simpl in Hget.
  - now apply Hacc.
  - apply (IH _ _ _) in Hget; [exact Hget|].
    intros h' m' H'.
    destruct (String.eqb_spec h0 h') as [->|Hne].
    + rewrite get_set_same in H'. congruence.
    + rewrite get_set_other in H' by exact Hne. now apply Hacc.
Qed.

(** Every entry of the header mapping is the mapping of its own header. *)
Lemma parseHeaderMapping_get (attrs : Obj attribute) (hs : list string)
    (h : string) (m : mapping) :
  Ob.get h (parseHeaderMapping hs attrs) = Some m -> m = mapHeader attrs h.
Proof.
  unfold parseHeaderMapping. apply parseHeaderMapping_fold.
  intros h' m' H. discriminate H.
Qed.

(** A valid mapping names an attribute; a dotted one names a relation or a
    component. *)
Lemma mapHeader_valid (attrs : Obj attribute) (h : string) :
  isValid (mapHeader attrs h) = true ->
  exists a, Ob.get (field (mapHeader attrs h)) attrs = Some a /\
    (isDotNotation (mapHeader attrs h) = true ->
       (isComponent (mapHeader attrs h) = false /\ type a = "relation"
        /\ relationField (mapHeader attrs h) = Some (nth 1 (Str.split "." h) ""))
       \/ (isComponent (mapHeader attrs h) = true /\ type a = "component")).
Proof.
  unfold mapHeader.
  destruct (Str.includesChar "." h).
  - destruct (Ob.get (hd "" (Str.split "." h)) attrs) as [a|] eqn:Ha;
      [|discriminate].
    destruct (type a =? "relation") eqn:Er.
    + simpl. intros _. exists a. split; [exact Ha|]. intros _. left.
      apply String.eqb_eq in Er. auto.
    + destruct (type a =? "component") eqn:Ec; [|discriminate].
      simpl. intros _. exists a. split; [exact Ha|]. intros _. right.
      apply String.eqb_eq in Ec. auto.
  - destruct (Ob.get h attrs) as [a|] eqn:Ha; [|discriminate].
    simpl. intros _. exists a. split; [exact Ha|]. discriminate.
Qed.


(** ** validateCsvData on the data of the test suite *)

(** [should validate correct data successfully] *)
Example validate_valid_countries :
  validateCsvData Fixtures.noDates Fixtures.strapi
    [[("name", "India"); ("code", "IN")];
     [("name", "United States"); ("code", "US")];
     [("name", "China"); ("code", "CN")]]
    Fixtures.country
  = Some (Validation.mk [] []
            [[("name", VStr "India"); ("code", VStr "IN")];
             [("name", VStr "United States"); ("code", VStr "US")];
             [("name", VStr "China"); ("code", VStr "CN")]]
            (Some [])).
Proof. reflexivity. Qed.

(** [should validate boolean fields correctly] *)
Example validate_boolean_fields :
  option_map Validation.validData
    (validateCsvData Fixtures.noDates Fixtures.strapi
       [[("name", "Test1"); ("active", "true")];
        [("name", "Test2"); ("active", "false")];
        [("name", "Test3"); ("active", "1")];
        [("name", "Test4"); ("active", "0")];
        [("name", "Test5"); ("active", "yes")];
        [("name", "Test6"); ("active", "no")]]
       Fixtures.company)
  = Some [[("name", VStr "Test1"); ("active", VBool true)];
          [("name", VStr "Test2"); ("active", VBool false)];
          [("name", VStr "Test3"); ("active", VBool true)];
          [("name", VStr "Test4"); ("active", VBool false)];
          [("name", VStr "Test5"); ("active", VBool true)];
          [("name", VStr "Test6"); ("active", VBool false)]].
Proof. reflexivity. Qed.

(** [should detect invalid data types]: the first row of
    [invalidCompanies] fails three times and is kept out of [validData]. *)
Example validate_invalid_companies :
  validateCsvData Fixtures.noDates Fixtures.strapi
    [[("name", ""); ("country", "India"); ("established", "invalid");
      ("active", "maybe")];
     [("name", "Company D"); ("country", "Unknown Country");
      ("established", "2020"); ("active", "true")]]
    Fixtures.company
  = Some (Validation.mk
            [(rowLabel 0 ++ "Required field " ++ quoted "name" ++ " is missing")%string;
             cellError 0 "established" " must be a number";
             cellError 0 "active" " must be true/false, 1/0, or yes/no"]
            []
            [[("name", VStr "Company D"); ("country", VStr "Unknown Country");
              ("established", VNum 2020); ("active", VBool true)]]
            (Some
               [mkRowResult
                  [("country", VStr "India")]
                  [(rowLabel 0 ++ "Required field " ++ quoted "name" ++ " is missing")%string;
                   cellError 0 "established" " must be a number";
                   cellError 0 "active" " must be true/false, 1/0, or yes/no"]
                  [("name", ""); ("country", "India");
                   ("established", "invalid"); ("active", "maybe")]])).
Proof. reflexivity. Qed.

(** [should validate email fields] *)
Example validate_email_fields :
  option_map (fun v => (length (Validation.errors v), length (Validation.validData v)))
    (validateCsvData Fixtures.noDates Fixtures.strapi
       [[("email", "valid@example.com")]; [("email", "invalid-email")]]
       (mkSchema [("email", Fixtures.requiredAttr "email")]))
  = Some (1, 1).
Proof. reflexivity. Qed.

(** ** C7: boolean cells *)



(** ** Keys written by a cell *)

Lemma length_append (s1 s2 : string) :
  String.length (s1 ++ s2) = String.length s1 + String.length s2.
Proof. induction s1 as [|c s1 IH]; simpl; [reflexivity | now rewrite IH]. Qed.

Lemma dotNotationKey_fresh (f : string) : f <> dotNotationKey f.
Proof.
  intros H. apply (f_equal String.length) in H.
  unfold dotNotationKey in H. rewrite !length_append in H. simpl in H. lia.
Qed.

Lemma storeCapture_frame (m : mapping) (value : string) (r r' : row)
    (k : string) :
  storeCapture m value r = Some r' ->
  isValid m = true -> writes m k = false ->
  Ob.get k r' = Ob.get k r.
Proof.
  unfold storeCapture, writes. intros H Hv Hw. rewrite Hv in Hw. simpl in Hw.
  apply orb_false_iff in Hw. destruct Hw as [_ Hw].
  destruct (isDotNotation m); [|congruence]. simpl in Hw.
  destruct (isComponent m).
  - apply String.eqb_neq in Hw.
    destruct (Ob.get (componentDataKey (field m)) r) as [v|].
    + destruct v; try (destruct (truthy _); [discriminate|]);
        injection H as <-; now apply get_set_other.
    + injection H as <-. now apply get_set_other.
  - apply String.eqb_neq in Hw. injection H as <-. now apply get_set_other.
Qed.

Section ValidateFacts.

Variable toISOString : string -> option string.
Variable attrs : Obj attribute.
Variable headerMapping : Obj mapping.
Variable index : nat.

Lemma validateCell_frame (st st' : row * list string)
    (cell : string * string) (k : string) :
  validateCell toISOString attrs headerMapping index st cell = Some st' ->
  cellWrites headerMapping cell k = false ->
  Ob.get k (fst st') = Ob.get k (fst st).
Proof.
  destruct cell as [h v], st as [r errs]. unfold validateCell, cellWrites. simpl.
  destruct (Ob.get h headerMapping) as [m|]; [|now intros [= <-]].
  destruct (isValid m) eqn:Hv; simpl; [|now intros [= <-]].
  destruct (storeCapture m v r) as [r1|] eqn:Hs; [|discriminate].
  destruct (Ob.get (field m) attrs) as [a|]; [|discriminate].
  intros H Hw.
  pose proof (storeCapture_frame _ _ _ _ k Hs Hv Hw) as Hframe.
  assert (Hf : field m <> k).
  { unfold writes in Hw. rewrite Hv in Hw. simpl in Hw.
    apply orb_false_iff in Hw. destruct Hw as [Hw _].
    now apply String.eqb_neq. }
  destruct (negb (v =? "")).
  - destruct (coerceCell _ _ _ _ _); injection H as <-; simpl;
      [rewrite get_set_other by exact Hf|..]; exact Hframe.
  - destruct (_ && _); injection H as <-; exact Hframe.
Qed.

Lemma validateCells_frame (cells : list (string * string)) (k : string) :
  forall st st',
    validateCells toISOString attrs headerMapping index cells st = Some st' ->
    forallb (fun cell => negb (cellWrites headerMapping cell k)) cells = true ->
    Ob.get k (fst st') = Ob.get k (fst st).
Proof.
  induction cells as [|cell cells IH]; intros st st' H Hq; simpl in *.
  - now injection H as <-.
  - apply andb_true_iff in Hq. destruct Hq as [Hc Hq].
    apply negb_true_iff in Hc.
    destruct (validateCell _ _ _ _ st cell) as [st1|] eqn:E; [|discriminate].
    rewrite (IH _ _ H Hq). now apply (validateCell_frame _ _ _ _ E).
Qed.

Lemma validateCells_app (c1 c2 : list (string * string)) :
  forall st,
    validateCells toISOString attrs headerMapping index (c1 ++ c2) st =
    match validateCells toISOString attrs headerMapping index c1 st with
    | Some st1 => validateCells toISOString attrs headerMapping index c2 st1
    | None => None
    end.
Proof.
  induction c1 as [|c c1 IH]; intros st; simpl; [reflexivity|].
  destruct (validateCell _ _ _ _ st c); [apply IH | reflexivity].
Qed.

Lemma validateCells_cons (c : string * string) (cs : list (string * string))
    (st : row * list string) :
  validateCells toISOString attrs headerMapping index (c :: cs) st =
  match validateCell toISOString attrs headerMapping index st c with
  | Some st1 => validateCells toISOString attrs headerMapping index cs st1
  | None => None
  end.
Proof. reflexivity. Qed.

(** What one column with a relation capture leaves in the row. *)
Lemma validateCell_dotted_relation (st st' : row * list string)
    (h v s : string) (m : mapping) (a : attribute) :
  Ob.get h headerMapping = Some m ->
  isValid m = true -> isDotNotation m = true -> isComponent m = false ->
  relationField m = Some s ->
  Ob.get (field m) attrs = Some a -> type a = "relation" ->
  v <> "" ->
  validateCell toISOString attrs headerMapping index st (h, v) = Some st' ->
  Ob.get (field m) (fst st') = Some (VStr v) /\
  Ob.get (dotNotationKey (field m)) (fst st') = Some (dotCapture s v).
Proof.
  intros Hget Hv Hd Hc Hs Ha Ht Hne. destruct st as [r errs].
  unfold validateCell. rewrite Hget, Hv. simpl negb. cbv iota.
  unfold storeCapture. rewrite Hd, Hc, Hs, Ha.
  apply String.eqb_neq in Hne. rewrite Hne. simpl negb. cbv iota.
  unfold coerceCell. rewrite Ht.
  cbv beta iota zeta delta [String.eqb Ascii.eqb Bool.eqb orb].
  intros [= <-]. simpl. split.
  - apply get_set_same.
  - rewrite get_set_other by apply dotNotationKey_fresh. apply get_set_same.
Qed.

End ValidateFacts.

(** ** C10: the raw relation value in the row's own namespace *)

(** C10, as stated, fails when two columns target the same relation: the
    company row with [country.name = India] followed by [country.code = IN]
    is valid, and its field [country] holds [IN], not [India]. *)
Lemma dotted_relation_overwritten_by_later_column :
  exists v,
    validateCsvData Fixtures.noDates Fixtures.strapi
      [[("name", "Acme"); ("country.name", "India"); ("country.code", "IN")]]
      Fixtures.company = Some v
    /\ isValid (mapHeader (attributes Fixtures.company) "country.name") = true
    /\ exists r, Validation.validData v = [r]
         /\ Ob.get "country" r <> Some (VStr "India").
Proof.
  eexists. split; [reflexivity|]. split; [reflexivity|].
  eexists. split; [reflexivity|]. discriminate.
Qed.

(** C10 (amended). For a row with a valid dotted relation header [f.s] and a
    non-empty cell [v], after which no column of the row assigns [f] or the
    capture key of [f], the validated row carries both the capture
    [{ relationField: s, value: v }] and the plain field [f] set to the raw
    string [v]. *)
Theorem dotted_relation_value_in_row :
  forall (toISOString : string -> option string) (attrs : Obj attribute)
         (csvHeaders : list string) (index : nat)
         (before after : list (string * string)) (h v s : string)
         (m : mapping) (a : attribute) (res : rowResult),
    Ob.get h (parseHeaderMapping csvHeaders attrs) = Some m ->
    isValid m = true ->
    isDotNotation m = true ->
    relationField m = Some s ->
    Ob.get (field m) attrs = Some a ->
    type a = "relation" ->
    v <> "" ->
    forallb (fun cell =>
               negb (cellWrites (parseHeaderMapping csvHeaders attrs) cell (field m))
               && negb (cellWrites (parseHeaderMapping csvHeaders attrs) cell
                                   (dotNotationKey (field m))))
            after = true ->
    validateRow toISOString attrs (parseHeaderMapping csvHeaders attrs) index
                (before ++ (h, v) :: after) = Some res ->
    Ob.get (field m) (data res) = Some (VStr v) /\
    Ob.get (dotNotationKey (field m)) (data res) = Some (dotCapture s v).
Proof.
  intros toISO attrs hs index before after h v s m a res
         Hget Hv Hd Hs Ha Ht Hne Hquiet Hrow.
  assert (Hc : isComponent m = false).
  { pose proof (parseHeaderMapping_get _ _ _ _ Hget) as Hm. subst m.
    destruct (mapHeader_valid attrs h Hv) as [a' [Ha' Hdot]].
    rewrite Ha' in Ha. injection Ha as ->.
    destruct (Hdot Hd) as [[Hc _]|[_ Ht']]; [exact Hc|].
    rewrite Ht' in Ht. discriminate. }
  unfold validateRow in Hrow.
  rewrite validateCells_app in Hrow.
  destruct (validateCells toISO attrs _ index before ([], [])) as [st0|];
    [|discriminate].
  rewrite validateCells_cons in Hrow.
  destruct (validateCell toISO attrs _ index st0 (h, v)) as [st1|] eqn:Ecell;
    [|discriminate].
  destruct (validateCells toISO attrs _ index after st1) as [[r errs]|] eqn:Eafter;
    [|discriminate].
  injection Hrow as <-. simpl.
  destruct (validateCell_dotted_relation toISO attrs _ index st0 st1 h v s m a
              Hget Hv Hd Hc Hs Ha Ht Hne Ecell) as [Hf Hk].
  assert (Hq1 : forallb (fun cell =>
             negb (cellWrites (parseHeaderMapping hs attrs) cell (field m))) after = true).
  { rewrite forallb_forall in *. intros c Hin.
    specialize (Hquiet c Hin). now apply andb_true_iff in Hquiet. }
  assert (Hq2 : forallb (fun cell =>
             negb (cellWrites (parseHeaderMapping hs attrs) cell
                              (dotNotationKey (field m)))) after = true).
  { rewrite forallb_forall in *. intros c Hin.
    specialize (Hquiet c Hin). now apply andb_true_iff in Hquiet. }
  pose proof (validateCells_frame toISO attrs _ index after _ _ _ Eafter Hq1) as F1.
  pose proof (validateCells_frame toISO attrs _ index after _ _ _ Eafter Hq2) as F2.
  simpl in F1, F2. rewrite F1, F2. split; assumption.
Qed.

Lemma dotted_relation_value_in_row_witness :
  Ob.get "country"
    [("name", VStr "Acme");
     ("__country_dotNotation", dotCapture "name" "India");
     ("country", VStr "India")] = Some (VStr "India")
  /\
  Ob.get (dotNotationKey "country")
    [("name", VStr "Acme");
     ("__country_dotNotation", dotCapture "name" "India");
     ("country", VStr "India")] = Some (dotCapture "name" "India").
Proof.
  refine (dotted_relation_value_in_row Fixtures.noDates
            (attributes Fixtures.company) ["name"; "country.name"] 0
            [("name", "Acme")] [] "country.name" "India" "name"
            (mkMapping "country" (Some "name") None true false true None)
            (Fixtures.relationAttr "manyToOne" "api::country.country")
            (mkRowResult
               [("name", VStr "Acme");
                ("__country_dotNotation", dotCapture "name" "India");
                ("country", VStr "India")]
               []
               [("name", "Acme"); ("country.name", "India")])
            eq_refl eq_refl eq_refl eq_refl eq_refl eq_refl _ eq_refl eq_refl).
  discriminate.
Defined.

(** ** C1: missing required columns *)

(** The rows of [validData] and [invalidRows] are the validated rows split
    by the presence of row errors. *)
Lemma validateRows_length (toISOString : string -> option string)
    (attrs : Obj attribute) (hm : Obj mapping) (rows : list csvRow) :
  forall index results,
    validateRows toISOString attrs hm index rows = Some results ->
    length results = length rows.
Proof.
  induction rows as [|r rows IH]; intros index results H; simpl in H.
  - now injection H as <-.
  - destruct (validateRow _ _ _ _ r); [|discriminate].
    destruct (validateRows _ _ _ _ rows) eqn:E; [|discriminate].
    injection H as <-. simpl. f_equal. now apply (IH (S index)).
Qed.

Lemma filter_split_length {A : Type} (p : A -> bool) (l : list A) :
  length (filter p l) + length (filter (fun x => negb (p x)) l) = length l.
Proof.
  induction l as [|x l IH]; simpl; [reflexivity|].
  destruct (p x); simpl; lia.
Qed.

Lemma componentDataKey_underscores (f : string) :
  Str.startsWith "__" (componentDataKey f) = true.
Proof.
  unfold componentDataKey, Str.startsWith. simpl.
  destruct (f ++ "_componentData")%string; reflexivity.
Qed.

Lemma rowShape_set (attrs : Obj attribute) (r : row) (k : string) (v : jsval) :
  rowShape attrs r ->
  isCapture v = true \/ In k (Ob.keys attrs) ->
  rowShape attrs (Ob.set k v r).
Proof.
  intros Hr Hv k' v' H.
  destruct (String.eqb_spec k k') as [->|Hne].
  - rewrite get_set_same in H. injection H as <-. exact Hv.
  - rewrite get_set_other in H by exact Hne. now apply Hr.
Qed.

Section Totality.

Variable toISOString : string -> option string.
Variable attrs : Obj attribute.
Variable csvHeaders : list string.
Hypothesis Hplain : plainNames attrs = true.

Lemma validateCell_returns (index : nat) (st : row * list string)
    (cell : string * string) :
  rowShape attrs (fst st) ->
  exists st',
    validateCell toISOString attrs (parseHeaderMapping csvHeaders attrs)
                 index st cell = Some st'
    /\ rowShape attrs (fst st').
Proof.
  destruct cell as [h v], st as [r errs]. simpl. intros Hshape.
  unfold validateCell.
  destruct (Ob.get h (parseHeaderMapping csvHeaders attrs)) as [m|] eqn:Hget;
    [|now exists (r, errs)].
  destruct (isValid m) eqn:Hv; simpl; [|now exists (r, errs)].
  pose proof (parseHeaderMapping_get _ _ _ _ Hget) as Hm.
  assert (Hattr : exists a, Ob.get (field m) attrs = Some a).
  { rewrite Hm in Hv |- *.
    destruct (mapHeader_valid attrs h Hv) as [a [Ha _]]. now exists a. }
  destruct Hattr as [a Ha].
  assert (Hcap : exists r1, storeCapture m v r = Some r1 /\ rowShape attrs r1).
  { unfold storeCapture. destruct (isDotNotation m); [|now exists r].
    destruct (isComponent m).
    - destruct (Ob.get (componentDataKey (field m)) r) as [x|] eqn:Hx.
      + destruct (Hshape _ _ Hx) as [Hc|Hin].
        * destruct x; try discriminate.
          eexists. split; [reflexivity|]. apply rowShape_set; auto.
        * exfalso. unfold plainNames in Hplain.
          rewrite forallb_forall in Hplain. specialize (Hplain _ Hin).
          rewrite componentDataKey_underscores in Hplain.
          discriminate Hplain.
      + eexists. split; [reflexivity|]. apply rowShape_set; auto.
    - eexists. split; [reflexivity|]. apply rowShape_set; auto. }
  destruct Hcap as [r1 [Hs Hr1]]. rewrite Hs, Ha.
  assert (Hin : In (field m) (Ob.keys attrs)) by now apply (get_in_keys _ a).
  destruct (negb (v =? "")).
  - destruct (coerceCell _ _ _ _ _); eexists; (split; [reflexivity|]); simpl;
      [apply rowShape_set; auto | assumption..].
  - destruct (_ && _); eexists; (split; [reflexivity|]); assumption.
Qed.

Lemma validateCells_returns (index : nat) (cells : list (string * string)) :
  forall st,
    rowShape attrs (fst st) ->
    exists st',
      validateCells toISOString attrs (parseHeaderMapping csvHeaders attrs)
                    index cells st = Some st'.
Proof.
  induction cells as [|c cells IH]; intros st Hst; simpl.
  - now exists st.
  - destruct (validateCell_returns index st c Hst) as [st1 [E Hst1]].
    rewrite E. now apply IH.
Qed.

Lemma validateRows_returns (rows : list csvRow) :
  forall index,
    exists results,
      validateRows toISOString attrs (parseHeaderMapping csvHeaders attrs)
                   index rows = Some results.
Proof.
  induction rows as [|r rows IH]; intros index; simpl.
  - now exists [].
  - unfold validateRow.
    destruct (validateCells_returns index r ([], [])) as [[vr errs] E].
    { intros k v H. discriminate H. }
    rewrite E. destruct (IH (S index)) as [more Emore]. rewrite Emore.
    eexists. reflexivity.
Qed.

End Totality.

(** C1, as stated, fails: the country file with the single row [{code: IN}]
    lacks the required column [name], and the row is validated all the same
    and returned in [validData]. *)
Lemma missing_required_does_not_stop_rows :
  missingRequired (attributes Fixtures.country)
    (parseHeaderMapping ["code"] (attributes Fixtures.country)) = ["name"]
  /\
  validateCsvData Fixtures.noDates Fixtures.strapi [[("code", "IN")]]
                  Fixtures.country
  = Some (Validation.mk ["Missing required fields: name"] []
                        [[("code", VStr "IN")]] (Some []))
  /\
  ~ (exists v,
       validateCsvData Fixtures.noDates Fixtures.strapi [[("code", "IN")]]
                       Fixtures.country = Some v
       /\ fileRejected "Missing required fields: name" v).
Proof.
  split; [reflexivity|]. split; [reflexivity|].
  intros [v [H [_ [Hvalid _]]]].
  injection H as <-. discriminate Hvalid.
Qed.

Section RowMessages.

Variable toISOString : string -> option string.
Variable attrs : Obj attribute.
Variable headerMapping : Obj mapping.

(** A cell adds its own messages to the errors of the row, whatever the
    row holds so far. *)
Lemma validateCell_messages (index : nat) (st st' : row * list string)
    (cell : string * string) :
  validateCell toISOString attrs headerMapping index st cell = Some st' ->
  snd st' = snd st ++ cellMessages toISOString attrs headerMapping index cell.
Proof.
  destruct cell as [h v], st as [r errs].
  unfold validateCell, cellMessages, requiredMissing. cbn [fst snd].
  destruct (Ob.get h headerMapping) as [m|];
    [|intros [= <-]; simpl; now rewrite app_nil_r].
  destruct (isValid m); cbn [negb];
    [|intros [= <-]; simpl; now rewrite app_nil_r].
  destruct (storeCapture m v r) as [r1|]; [|discriminate].
  destruct (Ob.get (field m) attrs) as [a|]; [|discriminate].
  destruct (negb (v =? "")).
  - destruct (coerceCell toISOString index (field m) a v);
      intros [= <-]; simpl; now rewrite ?app_nil_r.
  - destruct (required a && negb (optTruthy (default a)) && negb (isDotNotation m));
      intros [= <-]; simpl; now rewrite ?app_nil_r.
Qed.

Lemma validateCells_messages (index : nat) (cells : list (string * string)) :
  forall st st',
    validateCells toISOString attrs headerMapping index cells st = Some st' ->
    snd st'
    = snd st ++ flat_map (cellMessages toISOString attrs headerMapping index) cells.
Proof.
  induction cells as [|cell cells IH]; intros st st' H; simpl in H.
  - injection H as <-. simpl. now rewrite app_nil_r.
  - destruct (validateCell toISOString attrs headerMapping index st cell)
      as [st1|] eqn:E; [|discriminate].
    rewrite (IH st1 st' H), (validateCell_messages index st st1 cell E).
    simpl. now rewrite app_assoc.
Qed.

(** Every row is handed to the cell loop with its own position. *)
Lemma validateRows_nth (rows : list csvRow) :
  forall index results,
    validateRows toISOString attrs headerMapping index rows = Some results ->
    forall i r res,
      nth_error rows i = Some r -> nth_error results i = Some res ->
      validateCells toISOString attrs headerMapping (index + i) r ([], [])
      = Some (data res, rowErrors res)
      /\ originalRow res = r.
Proof.
  induction rows as [|r0 rows IH]; intros index results H i r res Hr Hres;
    simpl in H.
  - destruct i; discriminate Hr.
  - unfold validateRow in H.
    destruct (validateCells toISOString attrs headerMapping index r0 ([], []))
      as [[vr errs]|] eqn:E; [|discriminate].
    destruct (validateRows toISOString attrs headerMapping (S index) rows)
      as [more|] eqn:Em; [|discriminate].
    injection H as <-. destruct i as [|i]; simpl in Hr, Hres.
    + injection Hr as <-. injection Hres as <-. rewrite Nat.add_0_r.
      now split.
    + replace (index + S i) with (S index + i) by lia.
      exact (IH (S index) more Em i r res Hr Hres).
Qed.

End RowMessages.

(** C1 (amended). When some required attribute without a default is the
    target of no column, the joint error [Missing required fields: ...] is
    the first of the returned errors, and validation goes on: every input
    row is validated, cell by cell, with the messages of its cells as its
    row errors, and is returned in [validData] when it has no row error and
    in [invalidRows] otherwise; the row errors are among the returned
    errors.  With attribute names that do not start with two underscores
    the validation does return. *)
Theorem missing_required_reported_rows_validated :
  forall (toISOString : string -> option string) (strapi : registry)
         (first : csvRow) (rest : list csvRow) (contentType : schema)
         (missing : list string),
    missingRequired (attributes contentType)
      (parseHeaderMapping (Ob.keys first) (attributes contentType)) = missing ->
    missing <> [] ->
    (forall v,
       validateCsvData toISOString strapi (first :: rest) contentType = Some v ->
       hd_error (Validation.errors v) = Some (missingRequiredMessage missing)
       /\ exists results,
            length results = length (first :: rest)
            /\ (forall index r res,
                  nth_error (first :: rest) index = Some r ->
                  nth_error results index = Some res ->
                  rowOutcome toISOString (attributes contentType)
                             (Ob.keys first) index r res)
            /\ Validation.validData v = map data (filter noErrors results)
            /\ Validation.invalidRows v
               = Some (filter (fun res => negb (noErrors res)) results)
            /\ (forall res message,
                  In res results -> In message (rowErrors res) ->
                  In message (Validation.errors v)))
    /\ (plainNames (attributes contentType) = true ->
        exists v,
          validateCsvData toISOString strapi (first :: rest) contentType = Some v).
Proof.
  intros toISO strapi first rest ct missing Hmiss Hne.
  unfold validateCsvData. rewrite Hmiss.
  destruct missing as [|f missing]; [congruence|].
  destruct (validateRelationFieldUniqueness _ _ _) as [relErrors relWarnings].
  split.
  - intros v H.
    destruct (validateRows toISO _ _ 0 (first :: rest)) as [results|] eqn:E;
      [|discriminate].
    injection H as <-.
    cbn [Validation.errors Validation.validData Validation.invalidRows].
    split; [reflexivity|].
    exists results. split; [now apply validateRows_length in E|].
    split; [|split; [reflexivity|split; [reflexivity|]]].
    + intros index r res Hr Hres.
      destruct (validateRows_nth toISO _ _ (first :: rest) 0 results E
                  index r res Hr Hres) as [Hcells Horig].
      cbn [Nat.add] in Hcells.
      split; [exact Horig|]. split; [|intros _; exact Hcells].
      exact (validateCells_messages toISO _ _ index r _ _ Hcells).
    + intros res message Hres Hm. right. apply in_or_app. right.
      apply in_flat_map. now exists res.
  - intros Hplain.
    destruct (validateRows_returns toISO _ (Ob.keys first) Hplain (first :: rest) 0)
      as [results E].
    rewrite E. eexists. reflexivity.
Qed.

Lemma missing_required_reported_rows_validated_witness :
  exists v,
    validateCsvData Fixtures.noDates Fixtures.strapi
      [[("established", "abc")]; [("established", "2020")]] Fixtures.company
    = Some v
    /\ hd_error (Validation.errors v) = Some (missingRequiredMessage ["name"])
    /\ exists results,
         length results = 2
         /\ (forall index r res,
               nth_error [[("established", "abc")]; [("established", "2020")]]
                         index = Some r ->
               nth_error results index = Some res ->
               rowOutcome Fixtures.noDates (attributes Fixtures.company)
                          ["established"] index r res)
         /\ Validation.validData v = map data (filter noErrors results)
         /\ Validation.invalidRows v
            = Some (filter (fun res => negb (noErrors res)) results)
         /\ (forall res message,
               In res results -> In message (rowErrors res) ->
               In message (Validation.errors v)).
Proof.
  destruct (missing_required_reported_rows_validated Fixtures.noDates
              Fixtures.strapi [("established", "abc")] [[("established", "2020")]]
              Fixtures.company ["name"] eq_refl ltac:(discriminate))
    as [Hafter Hreturns].
  destruct (Hreturns eq_refl) as [v Hv].
  exists v. split; [exact Hv|]. exact (Hafter v Hv).
Defined.

(** The file of the witness: the first row is rejected for its cell and
    the second is returned, after the joint error. *)
Example missing_required_rows_example :
  validateCsvData Fixtures.noDates Fixtures.strapi
    [[("established", "abc")]; [("established", "2020")]] Fixtures.company
  = Some (Validation.mk
            ["Missing required fields: name";
             cellError 0 "established" " must be a number"]
            []
            [[("established", VNum 2020)]]
            (Some [mkRowResult []
                     [cellError 0 "established" " must be a number"]
                     [("established", "abc")]])).
Proof. reflexivity. Qed.

(** ** Validated rows stay inside the model of processRelations *)

Lemma dotNotationKey_underscores (f : string) :
  Str.startsWith "__" (dotNotationKey f) = true.
Proof.
  unfold dotNotationKey, Str.startsWith. simpl.
  destruct (f ++ "_dotNotation")%string; reflexivity.
Qed.

Lemma lastChar_append (s t : string) (c : ascii) :
  lastChar (s ++ String c t) = lastChar (String c t).
Proof.
  induction s as [|a s IH]; [reflexivity|].
  change (String a s ++ String c t)%string with (String a (s ++ String c t)).
  rewrite <- IH.
  destruct s; reflexivity.
Qed.

(** The two kinds of capture keys never coincide. *)
Lemma capture_keys_differ (f g : string) :
  componentDataKey g <> dotNotationKey f.
Proof.
  unfold componentDataKey, dotNotationKey. intros H.
  apply (f_equal lastChar) in H.
  change ("__" ++ g ++ "_componentData")%string
    with (String "_" (String "_" (g ++ "_componentData"))) in H.
  change ("__" ++ f ++ "_dotNotation")%string
    with (String "_" (String "_" (f ++ "_dotNotation"))) in H.
  assert (Hlast : forall x c t,
             lastChar (String "_" (String "_" (x ++ String c t)))
             = lastChar (String c t)).
  { intros x c t. rewrite <- (lastChar_append x t c).
    simpl. destruct (x ++ String c t)%string eqn:E; [|reflexivity].
    destruct x; discriminate E. }
  rewrite (Hlast g), (Hlast f) in H. discriminate H.
Qed.

Lemma plainNames_not_underscores (attrs : Obj attribute) (k : string)
    (a : attribute) :
  plainNames attrs = true -> Ob.get k attrs = Some a ->
  Str.startsWith "__" k = false.
Proof.
  intros Hplain Hget. unfold plainNames in Hplain.
  rewrite forallb_forall in Hplain.
  apply negb_true_iff. apply Hplain. now apply (get_in_keys k a).
Qed.

Lemma coerceCell_relation (toISOString : string -> option string)
    (index : nat) (fieldName value : string) (a : attribute) :
  type a = "relation" ->
  coerceCell toISOString index fieldName a value = Store (VStr value).
Proof. intros H. unfold coerceCell. rewrite H. reflexivity. Qed.

Section ValidatedShape.

Variable toISOString : string -> option string.
Variable attrs : Obj attribute.
Variable csvHeaders : list string.
Hypothesis Hplain : plainNames attrs = true.

Lemma validatedShape_capture (r : row) (key : string) (o : Obj string) :
  validatedShape attrs r ->
  Str.startsWith "__" key = true ->
  (forall f, key = dotNotationKey f ->
             exists relationField value, VCap o = dotCapture relationField value) ->
  validatedShape attrs (Ob.set key (VCap o) r).
Proof.
  intros [H1 H2] Hkey Hdot. split.
  - intros k v Hget. destruct (String.eqb_spec key k) as [<-|Hne].
    + rewrite get_set_same in Hget. injection Hget as <-. now left.
    + rewrite get_set_other in Hget by exact Hne. now apply H1.
  - intros f v Hget.
    destruct (String.eqb_spec key (dotNotationKey f)) as [E|Hne].
    + rewrite E, get_set_same in Hget. injection Hget as <-.
      now apply (Hdot f).
    + rewrite get_set_other in Hget by exact Hne. now apply (H2 f).
Qed.

Lemma validateCell_shape (index : nat) (st st' : row * list string)
    (cell : string * string) :
  validatedShape attrs (fst st) ->
  validateCell toISOString attrs (parseHeaderMapping csvHeaders attrs)
               index st cell = Some st' ->
  validatedShape attrs (fst st').
Proof.
  destruct cell as [h v], st as [r errs]. simpl. intros Hshape.
  unfold validateCell.
  destruct (Ob.get h (parseHeaderMapping csvHeaders attrs)) as [m|] eqn:Hget;
    [|now intros [= <-]].
  destruct (isValid m) eqn:Hv; simpl; [|now intros [= <-]].
  pose proof (parseHeaderMapping_get _ _ _ _ Hget) as Hm.
  rewrite Hm in Hv.
  destruct (mapHeader_valid attrs h Hv) as [a [Ha Hdot]].
  rewrite <- Hm in Ha, Hdot.
  assert (Hcap : forall r1, storeCapture m v r = Some r1 -> validatedShape attrs r1).
  { unfold storeCapture. intros r1.
    destruct (isDotNotation m); [|now intros [= <-]].
    destruct (Hdot eq_refl) as [[Hc [Ht Hrf]]|[Hc Ht]]; rewrite Hc.
    - rewrite Hrf. intros [= <-]. apply validatedShape_capture;
        [exact Hshape | apply dotNotationKey_underscores |].
      intros f _. now eexists; eexists.
    - assert (Hok : forall o, validatedShape attrs
                (Ob.set (componentDataKey (field m)) (VCap o) r)).
      { intros o. apply validatedShape_capture;
          [exact Hshape | apply componentDataKey_underscores |].
        intros f E. exfalso. exact (capture_keys_differ _ _ E). }
      destruct (Ob.get (componentDataKey (field m)) r) as [x|].
      + destruct x; try (destruct (truthy _); [discriminate|]);
          intros [= <-]; apply Hok.
      + intros [= <-]. apply Hok. }
  destruct (storeCapture m v r) as [r1|]; [|discriminate].
  specialize (Hcap r1 eq_refl). rewrite Ha.
  destruct (negb (v =? "")).
  - destruct (coerceCell toISOString index (field m) a v) as [x| |] eqn:Ec;
      intros [= <-]; simpl; [|exact Hcap..].
    destruct Hcap as [H1 H2]. split.
    + intros k y Hk. destruct (String.eqb_spec (field m) k) as [<-|Hne].
      * rewrite get_set_same in Hk. injection Hk as <-. right.
        exists a. split; [exact Ha|]. intros Ht.
        rewrite (coerceCell_relation _ _ _ _ _ Ht) in Ec.
        injection Ec as <-. now exists v.
      * rewrite get_set_other in Hk by exact Hne. now apply H1.
    + intros f y Hk. rewrite get_set_other in Hk; [now apply (H2 f)|].
      intros E.
      pose proof (plainNames_not_underscores _ _ _ Hplain Ha) as Hn.
      rewrite E, dotNotationKey_underscores in Hn. discriminate Hn.
  - destruct (_ && _); intros [= <-]; exact Hcap.
Qed.

Lemma validateCells_shape (index : nat) (cells : list (string * string)) :
  forall st st',
    validatedShape attrs (fst st) ->
    validateCells toISOString attrs (parseHeaderMapping csvHeaders attrs)
                  index cells st = Some st' ->
    validatedShape attrs (fst st').
Proof.
  induction cells as [|c cells IH]; intros st st' Hst H; simpl in H.
  - now injection H as <-.
  - destruct (validateCell _ _ _ _ st c) as [st1|] eqn:E; [|discriminate].
    apply (IH st1 st'); [|exact H].
    exact (validateCell_shape index st st1 c Hst E).
Qed.

(** For a row that validation built, [processRelations] always reads a
    string to resolve, or nothing: the branches of [readRelation] without a
    string value are not taken. *)
Lemma validated_row_relation_is_text (index : nat) (r : csvRow)
    (res : rowResult) (f : string) (a : attribute) :
  validateRow toISOString attrs (parseHeaderMapping csvHeaders attrs) index r
  = Some res ->
  Ob.get f attrs = Some a ->
  type a = "relation" ->
  readRelation (data res) f = NoRaw
  \/ exists value searchField,
       readRelation (data res) f = Raw (Some value) searchField.
Proof.
  unfold validateRow. intros Hrow Ha Ht.
  destruct (validateCells _ _ _ _ r ([], [])) as [[vr errs]|] eqn:E;
    [|discriminate].
  injection Hrow as <-. simpl.
  assert (Hshape : validatedShape attrs vr).
  { apply (validateCells_shape index r ([], []) (vr, errs)); [|exact E].
    split; intros ? ? H; discriminate H. }
  destruct Hshape as [H1 H2]. unfold readRelation.
  destruct (Ob.get (dotNotationKey f) vr) as [x|] eqn:Ex.
  - destruct (H2 f x Ex) as [rf [value ->]]. right.
    exists value, (Some rf). reflexivity.
  - simpl. destruct (Ob.get f vr) as [y|] eqn:Ey; [|now left].
    destruct (H1 f y Ey) as [[Hu _]|[a' [Ha' Hrel]]].
    + rewrite (plainNames_not_underscores _ _ _ Hplain Ha) in Hu. discriminate.
    + rewrite Ha in Ha'. injection Ha' as <-.
      destruct (Hrel Ht) as [s0 ->].
      destruct (Str.truthy s0); [right; now exists s0, None | now left].
Qed.

End ValidatedShape.

(** ** The log only grows *)

Section LogFacts.

Context {S : Type}.

Lemma appendsLog_ret {A : Type} (a : A) : appendsLog (ret (S := S) a).
Proof. intros w. exists []. simpl. now rewrite app_nil_r. Qed.

Lemma appendsLog_bind {A B : Type} (m : M S A) (k : A -> M S B) :
  appendsLog m -> (forall a, appendsLog (k a)) -> appendsLog (bind m k).
Proof.
  intros Hm Hk w. unfold bind. destruct (Hm w) as [l1 E1].
  destruct (m w) as [[a|e] w1]; simpl in E1.
  - destruct (Hk a w1) as [l2 E2]. exists (l1 ++ l2)%list.
    rewrite E2, E1. now rewrite app_assoc.
  - exists l1. exact E1.
Qed.

Lemma appendsLog_tryCatch {A : Type} (m : M S A) (h : string -> M S A) :
  appendsLog m -> (forall e, appendsLog (h e)) -> appendsLog (tryCatch m h).
Proof.
  intros Hm Hh w. unfold tryCatch. destruct (Hm w) as [l1 E1].
  destruct (m w) as [[a|e] w1]; simpl in E1.
  - exists l1. exact E1.
  - destruct (Hh e w1) as [l2 E2]. exists (l1 ++ l2)%list.
    rewrite E2, E1. now rewrite app_assoc.
Qed.

Variable svc : entityService S.

Lemma appendsLog_callFindMany (uid : string) (f : filters) :
  appendsLog (callFindMany svc uid f).
Proof.
  intros w. unfold callFindMany.
  destruct (findMany svc uid f (store w)). now eexists.
Qed.

Lemma appendsLog_findByCommonFields (t v : string) (fs : list string) :
  appendsLog (findByCommonFields svc t v fs).
Proof.
  induction fs as [|f fs IH]; simpl.
  - apply appendsLog_ret.
  - apply appendsLog_bind; [apply appendsLog_callFindMany|].
    intros es. destruct (firstOf es); [apply appendsLog_ret | exact IH].
Qed.

Lemma appendsLog_findByCommon (strapi : registry) (t v : string) :
  appendsLog (findByCommon svc strapi t v).
Proof.
  unfold findByCommon.
  destruct (Ob.get t (contentTypes strapi)); [|apply appendsLog_ret].
  apply appendsLog_bind; [apply appendsLog_findByCommonFields|].
  intros [e|]; [apply appendsLog_ret|].
  destruct (filter _ commonFields); [apply appendsLog_ret|].
  apply appendsLog_bind; [apply appendsLog_callFindMany|].
  intros es. apply appendsLog_ret.
Qed.

(** A [catch] that returns a constant keeps the world the body left. *)
Lemma tryCatch_ret_world {A : Type} (m : M S A) (a : A) (w : world S) :
  snd (tryCatch m (fun _ => ret a) w) = snd (m w).
Proof. unfold tryCatch, ret. now destruct (m w) as [[x|e] w1]. Qed.

Lemma findRelatedEntity_no_field (strapi : registry) (t v : string)
    (searchField : option string) (w : world S) :
  searchField = None \/ searchField = Some "" ->
  findRelatedEntity svc strapi t v searchField w = afterSearchField svc strapi t v w.
Proof. intros [-> | ->]; reflexivity. Qed.

(** The identifier branch, call by call. *)
Lemma afterSearchField_numeric (strapi : registry) (t v : string)
    (w : world S) :
  Num.isNumeric v = true ->
  afterSearchField svc strapi t v w =
  let (r, s1) := findMany svc t (ById v) (store w) in
  let w1 := mkWorld s1 (log w ++ [FindMany t (ById v)]) in
  match r with
  | Ok (e :: _) => (Ok (Some e), w1)
  | Ok [] => tryCatch (findByCommon svc strapi t v) (fun _ => ret None) w1
  | Throw _ => (Ok None, w1)
  end.
Proof.
  intros Hnum. unfold afterSearchField, findById. rewrite Hnum.
  unfold tryCatch, bind, callFindMany, ret.
  destruct (findMany svc t (ById v) (store w)) as [[[|e es]|msg] s1];
    reflexivity.
Qed.

(** The search-field block, call by call, for a declared field. *)
Lemma findRelatedEntity_declared (strapi : registry) (t v sf : string)
    (sch : schema) (w : world S) :
  Str.truthy sf = true ->
  Ob.get t (contentTypes strapi) = Some sch ->
  Ob.has sf (attributes sch) = true ->
  findRelatedEntity svc strapi t v (Some sf) w =
  let (r1, s1) := findMany svc t (Eqi sf v) (store w) in
  let w1 := mkWorld s1 (log w ++ [FindMany t (Eqi sf v)]) in
  match r1 with
  | Ok (e :: _) => (Ok (Some e), w1)
  | Throw _ => (Ok None, w1)
  | Ok [] =>
      let (r2, s2) := findMany svc t (Containsi sf v) s1 in
      let w2 := mkWorld s2 (log w1 ++ [FindMany t (Containsi sf v)]) in
      match r2 with
      | Ok (e :: _) => (Ok (Some e), w2)
      | Throw _ => (Ok None, w2)
      | Ok [] => afterSearchField svc strapi t v w2
      end
  end.
Proof.
  intros Htruthy Hsch Hdecl.
  unfold findRelatedEntity, findBySearchField.
  rewrite Htruthy, Hsch, Hdecl.
  unfold afterSearchField, tryCatch, bind, callFindMany, ret.
  cbn [store log].
  destruct (findMany svc t (Eqi sf v) (store w)) as [[[|e es]|msg] s1];
    cbn [firstOf store log]; try reflexivity.
  destruct (findMany svc t (Containsi sf v) s1) as [[[|e es]|msg] s2];
    reflexivity.
Qed.

End LogFacts.

Section LookupOrder.

Context {S : Type}.
Variable svc : entityService S.
Variable strapi : registry.

Lemma appendsLog_afterSearchField (t v : string) :
  appendsLog (afterSearchField svc strapi t v).
Proof.
  unfold afterSearchField.
  apply appendsLog_tryCatch; [|intros; apply appendsLog_ret].
  apply appendsLog_bind.
  - unfold findById. destruct (Num.isNumeric v); [|apply appendsLog_ret].
    apply appendsLog_bind; [apply appendsLog_callFindMany|].
    intros; apply appendsLog_ret.
  - intros [e|]; [apply appendsLog_ret | apply appendsLog_findByCommon].
Qed.

(** The log of a numeric lookup without search field starts with the
    identifier query. *)
Lemma numeric_lookup_log (t v : string) (w : world S) :
  Num.isNumeric v = true ->
  exists rest,
    log (snd (afterSearchField svc strapi t v w))
    = (log w ++ FindMany t (ById v) :: rest)%list.
Proof.
  intros Hnum. rewrite afterSearchField_numeric by exact Hnum.
  destruct (findMany svc t (ById v) (store w)) as [[[|e es]|msg] s1].
  - rewrite tryCatch_ret_world.
    destruct (appendsLog_findByCommon svc strapi t v
                (mkWorld s1 (log w ++ [FindMany t (ById v)]))) as [l E].
    exists l. rewrite E. simpl. now rewrite <- app_assoc.
  - now exists [].
  - now exists [].
Qed.

End LookupOrder.

(** ** C2 and C3: the order of the lookups in findRelatedEntity *)

(** C2, as stated, fails for an explicit search field that the target
    schema does not declare: the field is skipped, and the first query is
    the identifier query. *)
Lemma undeclared_search_field_is_skipped :
  Ob.has "capital" (attributes Fixtures.country) = false
  /\
  findRelatedEntity MemoryStore.service Fixtures.strapi
    "api::country.country" "1" (Some "capital")
    (MemoryStore.start MemoryStore.countries)
  = (Ok (Some MemoryStore.india),
     mkWorld MemoryStore.countries
             [FindMany "api::country.country" (ById "1")])
  /\
  ~ (exists rest,
       log (snd (findRelatedEntity MemoryStore.service Fixtures.strapi
                   "api::country.country" "1" (Some "capital")
                   (MemoryStore.start MemoryStore.countries)))
       = FindMany "api::country.country" (Eqi "capital" "1") :: rest).
Proof.
  split; [reflexivity|]. split; [reflexivity|].
  intros [rest H]. discriminate H.
Qed.

(** C2 (amended). Without a search field (none, or an empty one) and with a
    value that reads as a number, the first query is the exact lookup by
    identifier, and a hit there is the result whatever the name fields
    hold.  With a search field that the target schema declares, the first
    query is the exact match on that field, a hit there is the result, and
    after a miss the next query is the contains match on the same field.
    A search field that the registered target schema does not declare, and
    that is not the name of an inherited member, is skipped: the lookup is
    the lookup without search field, call by call. *)
Theorem lookup_priority :
  forall (S : Type) (svc : entityService S) (strapi : registry)
         (t v : string) (w : world S),
    (forall searchField,
        searchField = None \/ searchField = Some "" ->
        Num.isNumeric v = true ->
        (exists rest,
            log (snd (findRelatedEntity svc strapi t v searchField w))
            = (log w ++ FindMany t (ById v) :: rest)%list)
        /\ (forall e es s1,
               findMany svc t (ById v) (store w) = (Ok (e :: es), s1) ->
               findRelatedEntity svc strapi t v searchField w
               = (Ok (Some e), mkWorld s1 (log w ++ [FindMany t (ById v)]))))
    /\
    (forall sf sch,
        Str.truthy sf = true ->
        Ob.get t (contentTypes strapi) = Some sch ->
        Ob.has sf (attributes sch) = true ->
        (exists rest,
            log (snd (findRelatedEntity svc strapi t v (Some sf) w))
            = (log w ++ FindMany t (Eqi sf v) :: rest)%list)
        /\ (forall e es s1,
               findMany svc t (Eqi sf v) (store w) = (Ok (e :: es), s1) ->
               findRelatedEntity svc strapi t v (Some sf) w
               = (Ok (Some e), mkWorld s1 (log w ++ [FindMany t (Eqi sf v)])))
        /\ (forall s1,
               findMany svc t (Eqi sf v) (store w) = (Ok [], s1) ->
               exists rest,
                 log (snd (findRelatedEntity svc strapi t v (Some sf) w))
                 = (log w ++ FindMany t (Eqi sf v)
                          :: FindMany t (Containsi sf v) :: rest)%list))
    /\
    (forall sf sch,
        Str.truthy sf = true ->
        Ob.get t (contentTypes strapi) = Some sch ->
        Ob.has sf (attributes sch) = false ->
        inheritedName sf = false ->
        findRelatedEntity svc strapi t v (Some sf) w
        = findRelatedEntity svc strapi t v None w).
Proof.
  intros S svc strapi t v w. split; [|split].
  - intros searchField Hnone Hnum.
    rewrite (findRelatedEntity_no_field svc strapi t v searchField w Hnone).
    split; [now apply numeric_lookup_log|].
    intros e es s1 Hhit.
    rewrite afterSearchField_numeric by exact Hnum. now rewrite Hhit.
  - intros sf sch Htruthy Hsch Hdecl.
    rewrite (findRelatedEntity_declared svc strapi t v sf sch w Htruthy Hsch Hdecl).
    cbv zeta. cbn [log store].
    split; [|split].
    + destruct (findMany svc t (Eqi sf v) (store w)) as [[[|e es]|msg] s1];
        [|now exists []..].
      destruct (findMany svc t (Containsi sf v) s1) as [[[|e es]|msg] s2];
        [|now eexists; simpl; rewrite <- app_assoc..].
      destruct (appendsLog_afterSearchField svc strapi t v
                  (mkWorld s2 ((log w ++ [FindMany t (Eqi sf v)])
                               ++ [FindMany t (Containsi sf v)]))) as [l E].
      exists (FindMany t (Containsi sf v) :: l). rewrite E. simpl.
      now rewrite <- !app_assoc.
    + intros e es s1 Hhit. now rewrite Hhit.
    + intros s1 Hmiss. rewrite Hmiss.
      destruct (findMany svc t (Containsi sf v) s1) as [[[|e es]|msg] s2];
        [|now eexists; simpl; rewrite <- app_assoc..].
      destruct (appendsLog_afterSearchField svc strapi t v
                  (mkWorld s2 ((log w ++ [FindMany t (Eqi sf v)])
                               ++ [FindMany t (Containsi sf v)]))) as [l E].
      exists l. rewrite E. simpl. now rewrite <- !app_assoc.
  - intros sf sch Htruthy Hsch Hdecl _.
    unfold findRelatedEntity, findBySearchField.
    now rewrite Htruthy, Hsch, Hdecl.
Qed.

Lemma lookup_priority_witness :
  findRelatedEntity MemoryStore.service Fixtures.strapi
    "api::country.country" "1" None (MemoryStore.start MemoryStore.countries)
  = (Ok (Some MemoryStore.india),
     mkWorld MemoryStore.countries [FindMany "api::country.country" (ById "1")])
  /\
  findRelatedEntity MemoryStore.service Fixtures.strapi
    "api::country.country" "in" (Some "code")
    (MemoryStore.start MemoryStore.countries)
  = (Ok (Some MemoryStore.india),
     mkWorld MemoryStore.countries
             [FindMany "api::country.country" (Eqi "code" "in")])
  /\
  findRelatedEntity MemoryStore.service Fixtures.strapi
    "api::country.country" "India" (Some "capital")
    (MemoryStore.start MemoryStore.countries)
  = findRelatedEntity MemoryStore.service Fixtures.strapi
      "api::country.country" "India" None
      (MemoryStore.start MemoryStore.countries).
Proof.
  pose proof (lookup_priority MemoryStore.t MemoryStore.service Fixtures.strapi
                "api::country.country" "1"
                (MemoryStore.start MemoryStore.countries)) as [Hnum _].
  pose proof (lookup_priority MemoryStore.t MemoryStore.service Fixtures.strapi
                "api::country.country" "in"
                (MemoryStore.start MemoryStore.countries)) as [_ [Hfield _]].
  pose proof (lookup_priority MemoryStore.t MemoryStore.service Fixtures.strapi
                "api::country.country" "India"
                (MemoryStore.start MemoryStore.countries)) as [_ [_ Hskip]].
  split; [|split].
  - exact (proj2 (Hnum None (or_introl eq_refl) eq_refl)
                 MemoryStore.india [] MemoryStore.countries eq_refl).
  - exact (proj1 (proj2 (Hfield "code" Fixtures.country eq_refl eq_refl eq_refl))
                 MemoryStore.india [] MemoryStore.countries eq_refl).
  - exact (Hskip "capital" Fixtures.country eq_refl eq_refl eq_refl eq_refl).
Defined.

(** C3, as stated, fails: when both lookups on the declared search field
    miss, the lookup goes on with the later branches.  Searching the
    country [India] by [code] misses twice and is then found by [name]. *)
Lemma declared_search_field_miss_falls_through :
  Ob.has "code" (attributes Fixtures.country) = true
  /\
  findRelatedEntity MemoryStore.service Fixtures.strapi
    "api::country.country" "India" (Some "code")
    (MemoryStore.start MemoryStore.countries)
  = (Ok (Some MemoryStore.india),
     mkWorld MemoryStore.countries
       [FindMany "api::country.country" (Eqi "code" "India");
        FindMany "api::country.country" (Containsi "code" "India");
        FindMany "api::country.country" (Eqi "name" "India")])
  /\
  fst (findRelatedEntity MemoryStore.service Fixtures.strapi
         "api::country.country" "India" (Some "code")
         (MemoryStore.start MemoryStore.countries)) <> Ok None.
Proof.
  split; [reflexivity|]. split; [reflexivity|]. discriminate.
Qed.

(** C3 (amended). With a search field that the target schema declares, the
    lookup first tries the exact case-insensitive match on that field, then
    the contains match, and returns the first hit of either; when both
    miss, it goes on exactly as a lookup without search field does, with the
    identifier branch and the common-field branches. *)
Theorem declared_search_field_lookup :
  forall (S : Type) (svc : entityService S) (strapi : registry)
         (t v sf : string) (sch : schema) (w : world S)
         (r1 r2 : result (list Entity.t)) (s1 s2 : S),
    Str.truthy sf = true ->
    Ob.get t (contentTypes strapi) = Some sch ->
    Ob.has sf (attributes sch) = true ->
    findMany svc t (Eqi sf v) (store w) = (r1, s1) ->
    findMany svc t (Containsi sf v) s1 = (r2, s2) ->
    findRelatedEntity svc strapi t v (Some sf) w =
    match r1 with
    | Ok (e :: _) =>
        (Ok (Some e), mkWorld s1 (log w ++ [FindMany t (Eqi sf v)]))
    | Throw _ => (Ok None, mkWorld s1 (log w ++ [FindMany t (Eqi sf v)]))
    | Ok [] =>
        let w2 := mkWorld s2 (log w ++ [FindMany t (Eqi sf v);
                                        FindMany t (Containsi sf v)]) in
        match r2 with
        | Ok (e :: _) => (Ok (Some e), w2)
        | Throw _ => (Ok None, w2)
        | Ok [] => findRelatedEntity svc strapi t v None w2
        end
    end.
Proof.
  intros S svc strapi t v sf sch w r1 r2 s1 s2 Htruthy Hsch Hdecl H1 H2.
  rewrite (findRelatedEntity_declared svc strapi t v sf sch w Htruthy Hsch Hdecl).
  rewrite H1. cbv zeta. cbn [log store].
  destruct r1 as [[|e es]|msg]; try reflexivity.
  rewrite H2. rewrite <- app_assoc. simpl app.
  destruct r2 as [[|e es]|msg]; reflexivity.
Qed.

Lemma declared_search_field_lookup_witness :
  findRelatedEntity MemoryStore.service Fixtures.strapi
    "api::country.country" "India" (Some "code")
    (MemoryStore.start MemoryStore.countries)
  = findRelatedEntity MemoryStore.service Fixtures.strapi
      "api::country.country" "India" None
      (mkWorld MemoryStore.countries
         [FindMany "api::country.country" (Eqi "code" "India");
          FindMany "api::country.country" (Containsi "code" "India")]).
Proof.
  exact (declared_search_field_lookup MemoryStore.t MemoryStore.service
           Fixtures.strapi "api::country.country" "India" "code"
           Fixtures.country (MemoryStore.start MemoryStore.countries)
           (Ok []) (Ok []) MemoryStore.countries MemoryStore.countries
           eq_refl eq_refl eq_refl eq_refl eq_refl).
Defined.

(** ** C4: to-many relations *)

Section ToMany.

Context {S : Type}.
Variable svc : entityService S.
Variable strapi : registry.

(** [findRelatedEntity] always returns: its [catch] turns every error into
    [null]. *)
Lemma findRelatedEntity_returns (t v : string) (sf : option string)
    (w : world S) :
  exists found w', findRelatedEntity svc strapi t v sf w = (Ok found, w').
Proof.
  unfold findRelatedEntity, tryCatch.
  destruct (bind _ _ w) as [[found|msg] w']; now eexists; eexists.
Qed.

Lemma findRelatedEntities_resolves (t : string) (sf : option string)
    (values : list string) :
  forall w, exists es w',
    findRelatedEntities svc strapi t values sf w = (Ok es, w')
    /\ resolvesTo svc strapi t sf values w es w'.
Proof.
  induction values as [|value rest IH]; intros w.
  - exists [], w. split; [reflexivity | constructor].
  - destruct (findRelatedEntity_returns t value sf w) as [found [w1 E1]].
    destruct (IH w1) as [es [w2 [E2 R2]]].
    simpl. unfold bind at 1. rewrite E1. unfold bind at 1. rewrite E2.
    destruct found as [e|].
    + exists (e :: es), w2. split; [reflexivity|].
      now apply resolves_hit with (w1 := w1).
    + exists es, w2. split; [reflexivity|].
      now apply resolves_miss with (w1 := w1).
Qed.

(** The raw value is present: in the capture, or else as text under the
    field. *)
Lemma readRelation_present (r : row) (fieldName value : string)
    (searchField : option string) :
  (exists relationField,
      Ob.get (dotNotationKey fieldName) r = Some (dotCapture relationField value)
      /\ searchField = Some relationField)
  \/ (Ob.get (dotNotationKey fieldName) r = None
      /\ Ob.get fieldName r = Some (VStr value)
      /\ value <> "" /\ searchField = None) ->
  readRelation r fieldName = Raw (Some value) searchField.
Proof.
  unfold readRelation.
  intros [[rf [Hcap ->]] | [Hnone [Hplain [Hne ->]]]].
  - rewrite Hcap. reflexivity.
  - rewrite Hnone, Hplain. simpl.
    apply String.eqb_neq in Hne. unfold Str.truthy. now rewrite Hne.
Qed.

(** The to-many case of the attribute loop. *)
Lemma to_many_case (r processedRow : row) (fieldName : string)
    (attribute : attribute) (value : string) (searchField : option string)
    (w : world S) :
  type attribute = "relation" ->
  relation attribute = "oneToMany" \/ relation attribute = "manyToMany" ->
  readRelation r fieldName = Raw (Some value) searchField ->
  exists entities w',
    resolvesTo svc strapi (target attribute) searchField (splitTrim value)
               w entities w'
    /\ processRelationField svc strapi r processedRow (fieldName, attribute) w
       = (Ok (match entities with
              | [] => Ob.del fieldName processedRow
              | _ :: _ => Ob.set fieldName (idsOf entities) processedRow
              end), w').
Proof.
  intros Htype Hkind Hread.
  destruct (findRelatedEntities_resolves (target attribute) searchField
              (splitTrim value) w) as [es [w' [E R]]].
  exists es, w'. split; [exact R|].
  unfold processRelationField. rewrite Htype, String.eqb_refl, Hread.
  assert (Hk : ((relation attribute =? "oneToOne") || (relation attribute =? "manyToOne")) = false
               /\ ((relation attribute =? "oneToMany") || (relation attribute =? "manyToMany")) = true).
  { destruct Hkind as [-> | ->]; split; reflexivity. }
  destruct Hk as [Hk1 Hk2]. rewrite Hk1, Hk2.
  unfold tryCatch, bind. rewrite E.
  destruct es; reflexivity.
Qed.

End ToMany.

(** C4. For a one-to-many or many-to-many relation attribute whose raw value
    is present (in the capture of a dotted header, or else as non-empty text
    under the field itself), the raw value is split on commas, each segment
    is trimmed and looked up on its own, and the field is set to the
    identifiers of the entities found, in input order, the misses skipped;
    with no entity found the field is deleted.  The target and the search
    field are not named like inherited members, so that the lookups read
    the registry as [findRelatedEntity] is embedded. *)
Theorem to_many_relation_field :
  forall (S : Type) (svc : entityService S) (strapi : registry)
         (r processedRow : row) (fieldName : string) (attribute : attribute)
         (value : string) (searchField : option string) (w : world S),
    type attribute = "relation" ->
    relation attribute = "oneToMany" \/ relation attribute = "manyToMany" ->
    inheritedName (target attribute) = false ->
    (forall sf, searchField = Some sf -> inheritedName sf = false) ->
    (exists relationField,
        Ob.get (dotNotationKey fieldName) r = Some (dotCapture relationField value)
        /\ searchField = Some relationField)
    \/ (Ob.get (dotNotationKey fieldName) r = None
        /\ Ob.get fieldName r = Some (VStr value)
        /\ value <> "" /\ searchField = None) ->
    exists entities w',
      resolvesTo svc strapi (target attribute) searchField
                 (map Str.trim (Str.split "," value)) w entities w'
      /\ processRelationField svc strapi r processedRow (fieldName, attribute) w
         = (Ok (match entities with
                | [] => Ob.del fieldName processedRow
                | _ :: _ =>
                    Ob.set fieldName
                           (VArr (map (fun e => VNum (Entity.id e)) entities))
                           processedRow
                end), w').
Proof.
  intros S svc strapi r processedRow fieldName attribute value searchField w
         Htype Hkind _ _ Hraw.
  apply readRelation_present in Hraw.
  destruct (to_many_case svc strapi r processedRow fieldName attribute value
              searchField w Htype Hkind Hraw) as [entities [w' [R E]]].
  exists entities, w'. split; [exact R|].
  rewrite E. unfold idsOf. reflexivity.
Qed.

Lemma to_many_relation_field_witness :
  exists entities w',
    resolvesTo MemoryStore.service Tags.strapi "api::tag.tag" None
               (map Str.trim (Str.split "," "tag1,tag2"))
               (MemoryStore.start Tags.store) entities w'
    /\ processRelationField MemoryStore.service Tags.strapi
         [("tags", VStr "tag1,tag2")] [("tags", VStr "tag1,tag2")]
         ("tags", Fixtures.relationAttr "manyToMany" "api::tag.tag")
         (MemoryStore.start Tags.store)
       = (Ok (match entities with
              | [] => Ob.del "tags" [("tags", VStr "tag1,tag2")]
              | _ :: _ =>
                  Ob.set "tags"
                         (VArr (map (fun e => VNum (Entity.id e)) entities))
                         [("tags", VStr "tag1,tag2")]
              end), w').
Proof.
  refine (to_many_relation_field MemoryStore.t MemoryStore.service Tags.strapi
            [("tags", VStr "tag1,tag2")] [("tags", VStr "tag1,tag2")] "tags"
            (Fixtures.relationAttr "manyToMany" "api::tag.tag") "tag1,tag2" None
            (MemoryStore.start Tags.store) eq_refl (or_intror eq_refl)
            eq_refl _
            (or_intror (conj eq_refl (conj eq_refl (conj _ eq_refl))))).
  - discriminate.
  - discriminate.
Defined.

(** The scenario of the specification: [tag1,tag2] resolving to the
    identifiers 1 and 2 gives the list [[1, 2]], in that order; a segment
    that resolves to nothing is skipped. *)
Example multiple_relations_in_order :
  fst (processRelations MemoryStore.service Tags.strapi
         [[("tags", VStr "tag1,tag2")]; [("tags", VStr " tag2 , nothing, tag1")];
          [("tags", VStr "nothing")]]
         Tags.article (MemoryStore.start Tags.store))
  = Ok [[("tags", VArr [VNum 1; VNum 2])]; [("tags", VArr [VNum 2; VNum 1])]; []].
Proof. reflexivity. Qed.

(** *** The field in the row that processRelations returns *)

Lemma get_del_same {V : Type} (k : string) (o : Obj V) :
  Ob.get k (Ob.del k o) = None.
Proof.
  induction o as [|[k0 v0] o IH]; simpl; [reflexivity|].
  destruct (k0 =? k) eqn:E; simpl; [exact IH | now rewrite E].
Qed.

Lemma get_del_other {V : Type} (k k' : string) (o : Obj V) :
  k' <> k -> Ob.get k (Ob.del k' o) = Ob.get k o.
Proof.
  intros Hne.
  induction o as [|[k0 v0] o IH]; simpl; [reflexivity|].
  destruct (k0 =? k') eqn:E; simpl.
  - apply String.eqb_eq in E. subst k0.
    apply String.eqb_neq in Hne. now rewrite Hne.
  - destruct (k0 =? k); [reflexivity | exact IH].
Qed.

Lemma get_cleanupDotNotation (k : string) (r : row) :
  isDotNotationKey k = false ->
  Ob.get k (cleanupDotNotation r) = Ob.get k r.
Proof.
  intros Hk. unfold cleanupDotNotation.
  induction r as [|[k0 v0] r IH]; simpl; [reflexivity|].
  destruct (isDotNotationKey k0) eqn:E0; simpl.
  - destruct (String.eqb_spec k0 k) as [->|_]; [congruence | exact IH].
  - destruct (k0 =? k); [reflexivity | exact IH].
Qed.

Section RelationRows.

Context {S : Type}.
Variable svc : entityService S.
Variable strapi : registry.

(** One attribute never throws, and touches no field but its own. *)
Lemma processRelationField_frame (r p : row) (entry : string * attribute)
    (w : world S) :
  exists p' w',
    processRelationField svc strapi r p entry w = (Ok p', w')
    /\ forall k, k <> fst entry -> Ob.get k p' = Ob.get k p.
Proof.
  destruct entry as [f a]. unfold processRelationField. simpl fst.
  destruct (type a =? "relation"); [|now exists p, w].
  destruct (readRelation r f) as [relationValue searchField|]; [|now exists p, w].
  assert (Hdel : forall k, k <> f -> Ob.get k (Ob.del f p) = Ob.get k p).
  { intros k Hk. apply get_del_other. congruence. }
  assert (Hset : forall v k, k <> f -> Ob.get k (Ob.set f v p) = Ob.get k p).
  { intros v k Hk. apply get_set_other. congruence. }
  unfold tryCatch.
  destruct ((relation a =? "oneToOne") || (relation a =? "manyToOne")).
  - destruct relationValue as [value|]; [|now exists p, w].
    unfold bind.
    destruct (findRelatedEntity_returns svc strapi (target a) value searchField w)
      as [[e|] [w1 E]]; rewrite E; eexists; eexists; (split; [reflexivity|]);
      auto.
  - destruct ((relation a =? "oneToMany") || (relation a =? "manyToMany"));
      [|now exists p, w].
    destruct relationValue as [value|];
      [|eexists; eexists; (split; [reflexivity|]); auto].
    unfold bind.
    destruct (findRelatedEntities_resolves svc strapi (target a) searchField
                (splitTrim value) w) as [[|e es] [w1 [E _]]]; rewrite E;
      eexists; eexists; (split; [reflexivity|]); auto.
Qed.

Lemma processRelationFields_frame (r : row) (attrs : list (string * attribute))
    (k : string) :
  ~ In k (Ob.keys attrs) ->
  forall p w, exists p' w',
    processRelationFields svc strapi r attrs p w = (Ok p', w')
    /\ Ob.get k p' = Ob.get k p.
Proof.
  induction attrs as [|entry attrs IH]; intros Hk p w; simpl.
  - now exists p, w.
  - destruct (processRelationField_frame r p entry w) as [p1 [w1 [E1 F1]]].
    destruct (IH (fun H => Hk (or_intror H)) p1 w1) as [p2 [w2 [E2 F2]]].
    exists p2, w2. unfold bind. rewrite E1. split; [exact E2|].
    rewrite F2. apply F1. intros ->. apply Hk. now left.
Qed.

Lemma processRelationFields_app (r : row) (a1 a2 : list (string * attribute)) :
  forall p w,
    processRelationFields svc strapi r (a1 ++ a2) p w =
    bind (processRelationFields svc strapi r a1 p)
         (processRelationFields svc strapi r a2) w.
Proof.
  induction a1 as [|entry a1 IH]; intros p w; simpl; [reflexivity|].
  unfold bind.
  destruct (processRelationField svc strapi r p entry w) as [[p1|m] w1];
    [|reflexivity].
  rewrite IH. reflexivity.
Qed.

End RelationRows.

(** The row that [processRelations] returns: for a to-many relation
    attribute whose name occurs once in the schema and is not itself of the
    form of a relation capture key, the field holds the identifiers found
    when its turn came (after the attributes before it), or is absent when
    there are none. *)
Lemma to_many_relation_in_returned_row :
  forall (S : Type) (svc : entityService S) (strapi : registry)
         (before after : list (string * attribute)) (r : row)
         (fieldName : string) (attribute : attribute)
         (value : string) (searchField : option string) (w : world S),
    type attribute = "relation" ->
    relation attribute = "oneToMany" \/ relation attribute = "manyToMany" ->
    (exists relationField,
        Ob.get (dotNotationKey fieldName) r = Some (dotCapture relationField value)
        /\ searchField = Some relationField)
    \/ (Ob.get (dotNotationKey fieldName) r = None
        /\ Ob.get fieldName r = Some (VStr value)
        /\ value <> "" /\ searchField = None) ->
    ~ In fieldName (Ob.keys before) ->
    ~ In fieldName (Ob.keys after) ->
    isDotNotationKey fieldName = false ->
    exists processedRow w' earlier w1 w2 entities,
      processRelationsRow svc strapi
        (before ++ (fieldName, attribute) :: after) r w = (Ok processedRow, w')
      /\ processRelationFields svc strapi r before r w = (Ok earlier, w1)
      /\ resolvesTo svc strapi (target attribute) searchField
                    (map Str.trim (Str.split "," value)) w1 entities w2
      /\ Ob.get fieldName processedRow
         = match entities with
           | [] => None
           | _ :: _ => Some (VArr (map (fun e => VNum (Entity.id e)) entities))
           end.
Proof.
  intros S svc strapi before after r f a value sf w Ht Hk Hraw Hb Ha Hkey.
  unfold processRelationsRow.
  destruct (processRelationFields_frame svc strapi r before f Hb r w)
    as [p1 [w1 [E1 _]]].
  destruct (to_many_case svc strapi r p1 f a value sf w1 Ht Hk
              (readRelation_present r f value sf Hraw))
    as [entities [w2 [R E2]]].
  remember (match entities with
            | [] => Ob.del f p1
            | _ :: _ => Ob.set f (idsOf entities) p1
            end) as p2 eqn:Hp2.
  destruct (processRelationFields_frame svc strapi r after f Ha p2 w2)
    as [p3 [w3 [E3 F3]]].
  exists (cleanupDotNotation p3), w3, p1, w1, w2, entities.
  split; [|split; [exact E1|split; [exact R|]]].
  - unfold bind. rewrite processRelationFields_app. unfold bind. rewrite E1.
    cbn [processRelationFields]. unfold bind. rewrite E2. cbv beta iota.
    rewrite E3. reflexivity.
  - rewrite get_cleanupDotNotation by exact Hkey. rewrite F3, Hp2.
    destruct entities; [apply get_del_same | apply get_set_same].
Qed.

(** ** C5: repeatable components *)

Lemma split_not_empty (sep : ascii) (s : string) : Str.split sep s <> [].
Proof.
  destruct s as [|c r]; simpl; [discriminate|].
  destruct (Ascii.eqb c sep); [discriminate|].
  destruct (Str.split sep r); discriminate.
Qed.

Lemma splitTrim_length (s : string) : 1 <= length (splitTrim s).
Proof.
  unfold splitTrim. rewrite length_map.
  pose proof (split_not_empty "," s) as H.
  destruct (Str.split "," s); [congruence | simpl; lia].
Qed.

Lemma set_fresh {V : Type} (k : string) (v : V) (o : Obj V) :
  ~ In k (Ob.keys o) -> Ob.set k v o = (o ++ [(k, v)])%list.
Proof.
  induction o as [|[k0 v0] o IH]; simpl; intros Hk; [reflexivity|].
  destruct (String.eqb_spec k0 k) as [->|Hne].
  - exfalso. apply Hk. now left.
  - f_equal. apply IH. intros Hin. apply Hk. now right.
Qed.

Lemma max_rows_fold (cd : Obj string) :
  forall a,
    fold_left (fun m (entry : string * list string) =>
                 Nat.max m (length (snd entry)))
              (map (fun entry : string * string =>
                      (fst entry, splitTrim (snd entry))) cd) a
    = Nat.max a (longestSplit splitTrim cd).
Proof.
  induction cd as [|[k v] cd IH]; intros a; simpl.
  - lia.
  - rewrite IH. lia.
Qed.

Lemma nth_truthy (segs : list string) (i : nat) :
  match nth_error segs i with
  | Some segment => if segment =? "" then false else true
  | None => false
  end = Str.truthy (nth i segs "")
  /\ (forall segment, nth_error segs i = Some segment -> nth i segs "" = segment).
Proof.
  revert i. induction segs as [|s segs IH]; intros [|i]; simpl.
  - split; [reflexivity | discriminate].
  - split; [reflexivity | discriminate].
  - split; [unfold Str.truthy; now destruct (s =? "") | now intros ? [= <-]].
  - apply IH.
Qed.

Lemma row_data_fold (i : nat) (cd : Obj string) :
  forall acc,
    NoDup (Ob.keys cd) ->
    (forall k, In k (Ob.keys cd) -> ~ In k (Ob.keys acc)) ->
    fold_left
      (fun (rowData : Obj string) (entry : string * list string) =>
         if Str.truthy (nth i (snd entry) "")
         then Ob.set (fst entry) (nth i (snd entry) "") rowData
         else rowData)
      (map (fun entry : string * string => (fst entry, splitTrim (snd entry))) cd)
      acc
    = (acc ++ entryAt splitTrim cd i)%list.
Proof.
  induction cd as [|[k v] cd IH]; intros acc Hnd Hfresh; simpl.
  - now rewrite app_nil_r.
  - inversion Hnd as [|? ? Hk Hnd']; subst.
    destruct (nth_truthy (splitTrim v) i) as [Ht Hn].
    destruct (nth_error (splitTrim v) i) as [segment|] eqn:En.
    + rewrite (Hn segment eq_refl) in *.
      rewrite <- Ht. destruct (segment =? "").
      * apply IH; [exact Hnd'|]. intros k' Hin. apply Hfresh. now right.
      * rewrite set_fresh by (apply Hfresh; now left).
        rewrite IH; [now rewrite <- app_assoc | exact Hnd' |].
        intros k' Hin Hin'. unfold Ob.keys in Hin'.
        rewrite map_app in Hin'. apply in_app_or in Hin'.
        destruct Hin' as [Hin'|[<-|[]]].
        -- apply (Hfresh k'); [now right | exact Hin'].
        -- now apply Hk.
    + rewrite <- Ht. apply IH; [exact Hnd'|].
      intros k' Hin. apply Hfresh. now right.
Qed.

Lemma flat_map_populated {A : Type} (f : A -> Obj string) (l : list A) :
  flat_map (fun i => match f i with [] => [] | _ :: _ => [f i] end) l
  = filter populated (map f l).
Proof.
  induction l as [|x l IH]; simpl; [reflexivity|].
  rewrite IH. now destruct (f x).
Qed.

(** C5, as stated, fails on cells with blanks around a comma: the segments
    are trimmed before they are used, so [A, B] gives the second entry the
    street [B] and not the raw segment. *)
Lemma repeatable_segments_are_trimmed :
  parseComponentRows [("street", "A, B")]
  = [[("street", "A")]; [("street", "B")]]
  /\ componentEntries (Str.split ",") [("street", "A, B")]
     = [[("street", "A")]; [("street", " B")]]
  /\ parseComponentRows [("street", "A, B")]
     <> componentEntries (Str.split ",") [("street", "A, B")].
Proof.
  split; [reflexivity|]. split; [reflexivity|]. discriminate.
Qed.

(** C5 (amended). For a non-empty capture whose subfields are not named like
    inherited members, every subfield value is split on commas and each
    segment is trimmed; there are as many candidate entries as the longest
    list of segments; entry [i] takes the [i]-th trimmed segment of each
    subfield, leaving out a subfield whose list is shorter or whose trimmed
    segment is empty; entries with no subfield are dropped.  The capture
    [{street: A,B; city: X}] gives exactly [{street: A, city: X}] and
    [{street: B}]. *)
Theorem repeatable_component_rows :
  forall componentData : Obj string,
    componentData <> [] ->
    NoDup (Ob.keys componentData) ->
    ownNames (Ob.keys componentData) = true ->
    parseComponentRows componentData
    = componentEntries (fun s => map Str.trim (Str.split "," s)) componentData
    /\ parseComponentRows [("street", "A,B"); ("city", "X")]
       = [[("street", "A"); ("city", "X")]; [("street", "B")]].
Proof.
  intros cd Hne Hnd _. split; [|reflexivity].
  change (fun s => map Str.trim (Str.split "," s)) with splitTrim.
  unfold parseComponentRows, componentEntries.
  destruct cd as [|[k v] cd]; [congruence|].
  rewrite max_rows_fold.
  assert (Hlong : 1 <= longestSplit splitTrim ((k, v) :: cd)).
  { simpl. pose proof (splitTrim_length v). lia. }
  replace (Nat.max 1 (longestSplit splitTrim ((k, v) :: cd)))
    with (longestSplit splitTrim ((k, v) :: cd)) by lia.
  rewrite <- flat_map_populated.
  apply flat_map_ext. intros i. cbv zeta.
  rewrite (row_data_fold i ((k, v) :: cd) []); [reflexivity | exact Hnd |].
  intros k' _ [].
Qed.

Lemma repeatable_component_rows_witness :
  parseComponentRows [("street", "A, B ,"); ("city", "X")]
  = componentEntries (fun s => map Str.trim (Str.split "," s))
                     [("street", "A, B ,"); ("city", "X")]
  /\ parseComponentRows [("street", "A,B"); ("city", "X")]
     = [[("street", "A"); ("city", "X")]; [("street", "B")]].
Proof.
  refine (repeatable_component_rows [("street", "A, B ,"); ("city", "X")]
            _ _ eq_refl).
  - discriminate.
  - repeat constructor; simpl; intuition discriminate.
Defined.

(** ** C6: coercion inside components *)




(** ** The import loop *)

Section ImportFacts.

Variable numberToString : jsval -> string.
Variable localeCompare : string -> string -> comparison.
Context {S : Type}.
Variable svc : entityService S.
Variable uid : string.

#[local] Abbreviation importItem' :=
  (importItem numberToString localeCompare svc uid).
#[local] Abbreviation importBatch' :=
  (importBatch numberToString localeCompare svc uid).
#[local] Abbreviation importBatches' :=
  (fun fuel => importBatches numberToString localeCompare svc fuel uid).
#[local] Abbreviation withMedia' := (withMedia numberToString localeCompare).

(** One row, call by call. *)
Lemma importItem_steps (opts : Options.t) (results : Results.t) (item : row)
    (w : world S) :
  importItem' opts results item w =
  let item' := withMedia' opts item in
  match upsertValue opts item' with
  | Some v =>
      let lookup := Equals (Options.upsertField opts) v in
      let (r1, s1) := findMany svc uid lookup (store w) in
      let w1 := mkWorld s1 (log w ++ [FindMany uid lookup]) in
      match r1 with
      | Ok (e :: _) =>
          settle results (addUpdated results) item'
                 (Update uid (Entity.id e) item')
                 (update svc uid (Entity.id e) item' s1) w1
      | _ =>
          settle results (addCreated results) item' (Create uid item')
                 (create svc uid item' s1) w1
      end
  | None =>
      settle results (addCreated results) item' (Create uid item')
             (create svc uid item' (store w)) w
  end.
Proof.
  unfold importItem, settle. cbv zeta.
  destruct (upsertValue opts (withMedia' opts item)) as [v|].
  - unfold tryCatch, bind, findExistingRecord, tryCatch, bind, callFindMany,
      callUpdate, callCreate, ret.
    destruct (findMany svc uid _ (store w)) as [[[|e es]|msg] s1];
      cbn [firstOf store log fst snd].
    + now destruct (create svc uid _ s1) as [[e'|m] s2].
    + now destruct (update svc uid _ _ s1) as [[e'|m] s2].
    + now destruct (create svc uid _ s1) as [[e'|m] s2].
  - unfold tryCatch, bind, callCreate, ret.
    now destruct (create svc uid _ (store w)) as [[e'|m] s2].
Qed.

Lemma settle_outcome (results counted : Results.t) (item : row) (c : call)
    (reply : result Entity.t * S) (w : world S) :
  exists results' w',
    settle results counted item c reply w = (Ok results', w')
    /\ (results' = counted \/ exists m, results' = addError results item m).
Proof.
  unfold settle. destruct reply as [[e|m] s]; simpl.
  - eexists; eexists; split; [reflexivity | now left].
  - eexists; eexists; split; [reflexivity | right; now exists m].
Qed.

(** A row never throws: it is counted once, or recorded once. *)
Lemma importItem_outcome (opts : Options.t) (results : Results.t) (item : row)
    (w : world S) :
  exists results' w',
    importItem' opts results item w = (Ok results', w')
    /\ (results' = addCreated results \/ results' = addUpdated results
        \/ exists m, results' = addError results (withMedia' opts item) m).
Proof.
  rewrite importItem_steps. cbv zeta.
  destruct (upsertValue opts _) as [v|].
  - destruct (findMany svc uid _ (store w)) as [[[|e es]|msg] s1];
      match goal with
      | |- context [settle ?r ?c ?i ?k ?rep ?w0] =>
          destruct (settle_outcome r c i k rep w0) as [r' [w' [E [H|H]]]]
      end; rewrite E; exists r', w'; (split; [reflexivity|]); subst; auto.
  - match goal with
    | |- context [settle ?r ?c ?i ?k ?rep ?w0] =>
        destruct (settle_outcome r c i k rep w0) as [r' [w' [E [H|H]]]]
    end; rewrite E; exists r', w'; (split; [reflexivity|]); subst; auto.
Qed.

Lemma importItem_total (opts : Options.t) (results : Results.t) (item : row)
    (w : world S) :
  exists results' w',
    importItem' opts results item w = (Ok results', w')
    /\ total results' = Datatypes.S (total results).
Proof.
  destruct (importItem_outcome opts results item w)
    as [r' [w' [E [->|[->|[m ->]]]]]]; eexists; exists w'; (split; [exact E|]);
    unfold total, addCreated, addUpdated, addError; simpl;
    rewrite ?length_app; simpl; lia.
Qed.

Lemma importBatch_total (opts : Options.t) (batch : list row) :
  forall results w,
    exists results' w',
      importBatch' opts batch results w = (Ok results', w')
      /\ total results' = total results + length batch.
Proof.
  induction batch as [|item batch IH]; intros results w; simpl.
  - exists results, w. split; [reflexivity | lia].
  - destruct (importItem_total opts results item w) as [r1 [w1 [E1 T1]]].
    destruct (IH r1 w1) as [r2 [w2 [E2 T2]]].
    exists r2, w2. unfold bind. rewrite E1. split; [exact E2 | lia].
Qed.

Lemma importBatch_app (opts : Options.t) (b1 b2 : list row) :
  forall results w,
    importBatch' opts (b1 ++ b2) results w =
    bind (importBatch' opts b1 results) (importBatch' opts b2) w.
Proof.
  induction b1 as [|item b1 IH]; intros results w; simpl.
  - reflexivity.
  - unfold bind.
    destruct (importItem' opts results item w) as [[r1|m] w1];
      [|reflexivity].
    rewrite IH. reflexivity.
Qed.

(** For a positive batch size one batch is a window of the remaining
    rows. *)
Lemma slice_window {A : Type} (l : list A) (i b : Z) :
  (0 <= i)%Z -> (0 < b)%Z ->
  slice l i (i + b) = firstn (Z.to_nat b) (skipn (Z.to_nat i) l).
Proof.
  intros Hi Hb. unfold slice, sliceIndex.
  destruct (i <? 0)%Z eqn:Ei; [apply Z.ltb_lt in Ei; lia|].
  destruct (i + b <? 0)%Z eqn:Eb; [apply Z.ltb_lt in Eb; lia|].
  set (len := Z.of_nat (length l)).
  destruct (Z.le_gt_cases len i) as [Hge|Hlt].
  - rewrite !skipn_all2 by lia. now rewrite !firstn_nil.
  - replace (Z.min i len) with i by lia.
    destruct (Z.le_gt_cases (i + b) len) as [Hin|Hout].
    + replace (Z.min (i + b) len) with (i + b)%Z by lia.
      f_equal. lia.
    + replace (Z.min (i + b) len) with len by lia.
      rewrite !firstn_all2; [reflexivity | |]; rewrite length_skipn; lia.
Qed.

(** With a positive batch size and enough fuel the batches amount to one
    pass over the remaining rows. *)
Lemma importBatches_pass (opts : Options.t) (validData : list row) :
  (0 < Options.batchSize opts)%Z ->
  forall fuel i results w,
    (0 <= i)%Z ->
    length validData - Z.to_nat i < fuel ->
    importBatches' fuel opts validData i results w =
    asSome (importBatch' opts (skipn (Z.to_nat i) validData) results w).
Proof.
  intros Hb. induction fuel as [|fuel IH]; intros i results w Hi Hfuel;
    [lia|].
  simpl.
  destruct (i <? Z.of_nat (length validData))%Z eqn:Ei.
  - apply Z.ltb_lt in Ei.
    rewrite slice_window by lia.
    rewrite <- (firstn_skipn (Z.to_nat (Options.batchSize opts))
                             (skipn (Z.to_nat i) validData)) at 2.
    rewrite importBatch_app. unfold bind.
    destruct (importBatch' opts (firstn _ (skipn (Z.to_nat i) validData)) results w)
      as [[r1|m] w1]; [|reflexivity].
    rewrite IH by lia.
    rewrite skipn_skipn. do 3 f_equal. lia.
  - apply Z.ltb_ge in Ei.
    rewrite skipn_all2 by lia. reflexivity.
Qed.

Lemma importData_pass (opts : Options.t) (validData : list row) (fuel : nat)
    (w : world S) :
  (0 < Options.batchSize opts)%Z ->
  length validData < fuel ->
  importData numberToString localeCompare svc fuel uid validData opts w =
  asSome (importBatch' opts validData (Results.mk 0 0 []) w).
Proof.
  intros Hb Hfuel. unfold importData.
  rewrite importBatches_pass by (simpl; lia). reflexivity.
Qed.

(** The rows are handled alike whatever the batch size. *)
Lemma importBatch_batchSize (upsert : bool) (upsertField : string)
    (mappings : list Media.t) (b1 b2 : Z) (batch : list row) :
  forall results w,
    importBatch' (Options.mk upsert b1 upsertField mappings) batch results w =
    importBatch' (Options.mk upsert b2 upsertField mappings) batch results w.
Proof.
  induction batch as [|item batch IH]; intros results w; simpl;
    [reflexivity|].
  unfold bind.
  change (importItem' (Options.mk upsert b1 upsertField mappings) results item w)
    with (importItem' (Options.mk upsert b2 upsertField mappings) results item w).
  destruct (importItem' _ results item w) as [[r1|m] w1]; [apply IH | reflexivity].
Qed.

End ImportFacts.

(** ** C8: errors of the store during the import *)




(** The test [should handle import errors gracefully]. *)
Example import_errors_gracefully :
  fst (importData SampleRuntime.numberToString SampleRuntime.localeCompare
         (MemoryStore.failingCreate "Database error") 2 "api::country.country"
         [[("name", VStr "Test Country"); ("code", VStr "TC")]]
         Options.defaults (MemoryStore.start []))
  = Ok (Some (Results.mk 0 0
                [RowError.mk [("name", VStr "Test Country"); ("code", VStr "TC")]
                             "Database error"])).
Proof. reflexivity. Qed.

(** ** C9: the batch size *)

(** C9. For any two positive batch sizes and the same other options, the
    import returns, and it returns the same outcome (counters and errors in
    the same order) after the same store calls in the same order, leaving
    the store in the same state. *)
Theorem batch_size_does_not_change_outcome :
  forall (numberToString : jsval -> string)
         (localeCompare : string -> string -> comparison)
         (S : Type) (svc : entityService S) (uid : string)
         (validData : list row) (upsert : bool) (upsertField : string)
         (mappings : list Media.t) (b1 b2 : Z) (fuel1 fuel2 : nat)
         (w : world S),
    (0 < b1)%Z -> (0 < b2)%Z ->
    length validData < fuel1 -> length validData < fuel2 ->
    importData numberToString localeCompare svc fuel1 uid validData
               (Options.mk upsert b1 upsertField mappings) w
    = importData numberToString localeCompare svc fuel2 uid validData
                 (Options.mk upsert b2 upsertField mappings) w
    /\ exists results w',
         importData numberToString localeCompare svc fuel1 uid validData
                    (Options.mk upsert b1 upsertField mappings) w
         = (Ok (Some results), w').
Proof.
  intros numberToString localeCompare S svc uid validData upsert upsertField
         mappings b1 b2 fuel1 fuel2 w Hb1 Hb2 Hf1 Hf2.
  rewrite !importData_pass by assumption.
  split.
  - f_equal. apply importBatch_batchSize.
  - destruct (importBatch_total numberToString localeCompare svc uid
                (Options.mk upsert b1 upsertField mappings) validData
                (Results.mk 0 0 []) w) as [r [w' [E _]]].
    rewrite E. now exists r, w'.
Qed.

Lemma batch_size_does_not_change_outcome_witness :
  importData SampleRuntime.numberToString SampleRuntime.localeCompare
    MemoryStore.service 6 "api::country.country" fiveCountries
    (Options.mk false 2 "id" []) (MemoryStore.start [])
  = importData SampleRuntime.numberToString SampleRuntime.localeCompare
      MemoryStore.service 6 "api::country.country" fiveCountries
      (Options.mk false 100 "id" []) (MemoryStore.start [])
  /\ exists results w',
       importData SampleRuntime.numberToString SampleRuntime.localeCompare
         MemoryStore.service 6 "api::country.country" fiveCountries
         (Options.mk false 2 "id" []) (MemoryStore.start [])
       = (Ok (Some results), w').
Proof.
  exact (batch_size_does_not_change_outcome SampleRuntime.numberToString
           SampleRuntime.localeCompare MemoryStore.t MemoryStore.service
           "api::country.country" fiveCountries false "id" [] 2 100 6 6
           (MemoryStore.start []) eq_refl eq_refl
           ltac:(simpl; lia) ltac:(simpl; lia)).
Defined.

Example batch_processing_creates_five :
  fst (importData SampleRuntime.numberToString SampleRuntime.localeCompare
         MemoryStore.service 6 "api::country.country" fiveCountries
         (Options.mk false 2 "id" []) (MemoryStore.start []))
  = Ok (Some (Results.mk 5 0 []))
  /\ log (snd (importData SampleRuntime.numberToString SampleRuntime.localeCompare
                 MemoryStore.service 6 "api::country.country" fiveCountries
                 (Options.mk false 2 "id" []) (MemoryStore.start [])))
     = map (Create "api::country.country") fiveCountries.
Proof. split; reflexivity. Qed.

(** A batch size of zero never gets past the first row: whatever the fuel,
    the loop is still running when it is used up. *)
Example batch_size_zero_does_not_end :
  forall fuel,
    fst (importData SampleRuntime.numberToString SampleRuntime.localeCompare
           MemoryStore.service fuel "api::country.country" fiveCountries
           (Options.mk false 0 "id" []) (MemoryStore.start []))
    = Ok None.
Proof.
  intros fuel. unfold importData.
  generalize (Results.mk 0 0 []).
  induction fuel as [|fuel IH]; intros results; [reflexivity|].
  simpl. unfold bind. simpl. apply IH.
Qed.

(** ** Relations: what the lookups read and what the rows keep *)

Section Queries.

Context {S : Type}.

Lemma queriesOnly_ret {A : Type} (t : string) (n : nat) (a : A) :
  queriesOnly (S := S) t n (ret a).
Proof.
  intros w. exists []. simpl. rewrite app_nil_r.
  split; [reflexivity|]. split; [lia|]. intros c [].
Qed.

Lemma queriesOnly_bind {A B : Type} (t : string) (n k : nat)
    (m : M S A) (f : A -> M S B) :
  queriesOnly t n m -> (forall a, queriesOnly t k (f a)) ->
  queriesOnly t (n + k) (bind m f).
Proof.
  intros Hm Hf w. unfold bind. destruct (Hm w) as [l1 [E1 [L1 Q1]]].
  destruct (m w) as [[a|e] w1]; simpl in E1.
  - destruct (Hf a w1) as [l2 [E2 [L2 Q2]]]. exists (l1 ++ l2).
    rewrite E2, E1, app_assoc. split; [reflexivity|].
    split; [rewrite length_app; lia|].
    intros c Hc. apply in_app_or in Hc. destruct Hc; auto.
  - exists l1. simpl. split; [exact E1|]. split; [lia | exact Q1].
Qed.

Lemma queriesOnly_catch {A : Type} (t : string) (n : nat) (m : M S A) (a : A) :
  queriesOnly t n m -> queriesOnly t n (tryCatch m (fun _ => ret a)).
Proof.
  intros Hm w. destruct (Hm w) as [l [E H]]. exists l.
  rewrite tryCatch_ret_world. now split.
Qed.

Lemma queriesOnly_le {A : Type} (t : string) (n n' : nat) (m : M S A) :
  n <= n' -> queriesOnly t n m -> queriesOnly t n' m.
Proof.
  intros Hle Hm w. destruct (Hm w) as [l [E [L Q]]]. exists l.
  split; [exact E|]. split; [lia | exact Q].
Qed.

Variable svc : entityService S.

Lemma queriesOnly_callFindMany (t : string) (f : filters) :
  queriesOnly t 1 (callFindMany svc t f).
Proof.
  intros w. unfold callFindMany.
  destruct (findMany svc t f (store w)) as [r s]. exists [FindMany t f].
  split; [reflexivity|]. split; [simpl; lia|].
  intros c [<-|[]]. now exists f.
Qed.

Lemma queriesOnly_findByCommonFields (t v : string) (fs : list string) :
  queriesOnly t (length fs) (findByCommonFields svc t v fs).
Proof.
  induction fs as [|f fs IH]; simpl.
  - apply queriesOnly_ret.
  - apply (queriesOnly_bind t 1 (length fs));
      [apply queriesOnly_callFindMany|].
    intros es. destruct (firstOf es); [apply queriesOnly_ret | exact IH].
Qed.

Lemma searchFields_length (attrs : Obj attribute) :
  length (filter (isStringAttr attrs) commonFields) <= 6.
Proof. apply (filter_length_le (isStringAttr attrs) commonFields). Qed.

Lemma queriesOnly_findByCommon (strapi : registry) (t v : string) :
  queriesOnly t 7 (findByCommon svc strapi t v).
Proof.
  unfold findByCommon.
  destruct (Ob.get t (contentTypes strapi)) as [sch|]; [|apply queriesOnly_ret].
  pose proof (searchFields_length (attributes sch)) as Hlen.
  apply (queriesOnly_bind t 6 1).
  - apply (queriesOnly_le t (length (filter (isStringAttr (attributes sch)) commonFields)));
      [exact Hlen | apply queriesOnly_findByCommonFields].
  - intros [e|]; [apply queriesOnly_ret|].
    destruct (filter _ commonFields); [apply queriesOnly_ret|].
    apply (queriesOnly_le t (1 + 0)); [lia|].
    apply queriesOnly_bind; [apply queriesOnly_callFindMany|].
    intros es. apply queriesOnly_ret.
Qed.

Lemma queriesOnly_findBySearchField (strapi : registry) (t v : string)
    (sf : option string) :
  queriesOnly t 2 (findBySearchField svc strapi t v sf).
Proof.
  unfold findBySearchField.
  destruct sf as [sf|]; [|apply queriesOnly_ret].
  destruct (Str.truthy sf); [|apply queriesOnly_ret].
  destruct (Ob.get t (contentTypes strapi)) as [sch|]; [|apply queriesOnly_ret].
  destruct (Ob.has sf (attributes sch)); [|apply queriesOnly_ret].
  apply (queriesOnly_bind t 1 1); [apply queriesOnly_callFindMany|].
  intros es. destruct (firstOf es); [apply queriesOnly_ret|].
  apply (queriesOnly_le t (1 + 0)); [lia|].
  apply queriesOnly_bind; [apply queriesOnly_callFindMany|].
  intros ps. apply queriesOnly_ret.
Qed.

Lemma queriesOnly_findRelatedEntity (strapi : registry) (t v : string)
    (sf : option string) :
  queriesOnly t 10 (findRelatedEntity svc strapi t v sf).
Proof.
  unfold findRelatedEntity. apply queriesOnly_catch.
  apply (queriesOnly_bind t 2 8); [apply queriesOnly_findBySearchField|].
  intros [e|]; [apply queriesOnly_ret|].
  apply (queriesOnly_bind t 1 7).
  - unfold findById. destruct (Num.isNumeric v); [|apply queriesOnly_ret].
    apply (queriesOnly_le t (1 + 0)); [lia|].
    apply queriesOnly_bind; [apply queriesOnly_callFindMany|].
    intros es. apply queriesOnly_ret.
  - intros [e|]; [apply queriesOnly_ret | apply queriesOnly_findByCommon].
Qed.

(** With a store whose lookups all throw, nothing is ever found. *)
Lemma findRelatedEntity_lookupsFail (strapi : registry) (t v : string)
    (sf : option string) (w : world S) :
  lookupsFail svc ->
  exists w', findRelatedEntity svc strapi t v sf w = (Ok None, w').
Proof.
  intros Hfail.
  assert (Hcall : forall f w0, exists msg w1,
             callFindMany svc t f w0 = (Throw msg, w1)).
  { intros f w0. unfold callFindMany.
    destruct (Hfail t f (store w0)) as [msg [s' E]]. rewrite E.
    now eexists; eexists. }
  assert (Hcommon : forall w0, exists w1,
             tryCatch (findByCommon svc strapi t v) (fun _ => ret None) w0
             = (Ok None, w1)).
  { intros w0. unfold findByCommon, tryCatch.
    destruct (Ob.get t (contentTypes strapi)) as [sch|]; [|now eexists].
    destruct (filter _ commonFields) as [|f0 fs]; [now eexists|].
    simpl. unfold bind at 1. unfold bind at 1.
    destruct (Hcall (Eqi f0 v) w0) as [msg [w1 E]]. rewrite E.
    now eexists. }
  unfold findRelatedEntity.
  assert (Hrest : forall w0, exists w1,
     tryCatch
       (byId <- findById svc t v ;;
        match byId with
        | Some e => ret (Some e)
        | None => findByCommon svc strapi t v
        end) (fun _ => ret None) w0 = (Ok None, w1)).
  { intros w0. unfold findById.
    destruct (Num.isNumeric v).
    - unfold tryCatch, bind.
      destruct (Hcall (ById v) w0) as [msg [w1 E]]. rewrite E. now eexists.
    - destruct (Hcommon w0) as [w1 E]. exists w1.
      unfold tryCatch, bind, ret in *. exact E. }
  unfold findBySearchField.
  destruct sf as [sf|]; [|apply Hrest].
  destruct (Str.truthy sf); [|apply Hrest].
  destruct (Ob.get t (contentTypes strapi)) as [sch|] eqn:Esch; [|apply Hrest].
  destruct (Ob.has sf (attributes sch)); [|apply Hrest].
  unfold tryCatch, bind.
  destruct (Hcall (Eqi sf v) w) as [msg [w1 E]]. rewrite E. now eexists.
Qed.

End Queries.

(** X1. A lookup of a related entity never throws and only reads: it makes at
    most ten store calls, every one of them a [findMany] on the target
    content type. *)
Theorem related_entity_lookup_only_queries :
  forall (S : Type) (svc : entityService S) (strapi : registry)
         (targetContentType value : string) (searchField : option string)
         (w : world S),
    exists found w' calls,
      findRelatedEntity svc strapi targetContentType value searchField w
      = (Ok found, w')
      /\ log w' = log w ++ calls
      /\ length calls <= 10
      /\ forall c, In c calls -> exists f, c = FindMany targetContentType f.
Proof.
  intros S svc strapi t v sf w.
  destruct (findRelatedEntity_returns svc strapi t v sf w) as [found [w' E]].
  destruct (queriesOnly_findRelatedEntity svc strapi t v sf w) as [calls H].
  rewrite E in H. exists found, w', calls. now split.
Qed.


Lemma get_cleanup_capture (k : string) (r : row) :
  isDotNotationKey k = true -> Ob.get k (cleanupDotNotation r) = None.
Proof.
  intros Hk. unfold cleanupDotNotation.
  induction r as [|[k0 v0] r IH]; simpl; [reflexivity|].
  destruct (isDotNotationKey k0) eqn:E0; simpl; [exact IH|].
  destruct (String.eqb_spec k0 k) as [->|_]; [congruence | exact IH].
Qed.

Section RelationFrame.

Context {S : Type}.
Variable svc : entityService S.
Variable strapi : registry.

Lemma processRelationFields_keeps (r : row) (attrs : list (string * attribute))
    (k : string) :
  ~ In k (relationNames attrs) ->
  forall p w, exists p' w',
    processRelationFields svc strapi r attrs p w = (Ok p', w')
    /\ Ob.get k p' = Ob.get k p.
Proof.
  induction attrs as [|[f a] attrs IH]; intros Hk p w;
    cbn [processRelationFields].
  - now exists p, w.
  - unfold relationNames in Hk. simpl in Hk.
    destruct (type a =? "relation") eqn:Et.
    + simpl in Hk.
      destruct (processRelationField_frame svc strapi r p (f, a) w)
        as [p1 [w1 [E1 F1]]].
      destruct (IH (fun H => Hk (or_intror H)) p1 w1) as [p2 [w2 [E2 F2]]].
      exists p2, w2. unfold bind. rewrite E1. split; [exact E2|].
      rewrite F2. apply F1. simpl. intros ->. apply Hk. now left.
    + destruct (IH Hk p w) as [p2 [w2 [E2 F2]]].
      exists p2, w2. unfold bind, processRelationField. rewrite Et.
      simpl. split; [exact E2 | exact F2].
Qed.

Lemma processRelationFields_returns (r : row) (attrs : list (string * attribute)) :
  forall p w, exists p' w',
    processRelationFields svc strapi r attrs p w = (Ok p', w').
Proof.
  induction attrs as [|e attrs IH]; intros p w; cbn [processRelationFields].
  - now exists p, w.
  - destruct (processRelationField_frame svc strapi r p e w) as [p1 [w1 [E1 _]]].
    unfold bind. rewrite E1. apply IH.
Qed.

End RelationFrame.

(** X2. [processRelations] never throws, whatever the store does: it returns
    one row per input row, no returned row holds a relation capture key, and
    every other key that is not the name of a relation attribute is as it
    was in the input row. *)
Theorem relations_touch_only_relation_fields :
  forall (S : Type) (svc : entityService S) (strapi : registry)
         (rows : list row) (contentType : schema) (w : world S),
    exists processedData w',
      processRelations svc strapi rows contentType w = (Ok processedData, w')
      /\ Forall2
           (fun r processedRow =>
              (forall k, isDotNotationKey k = true ->
                         Ob.get k processedRow = None)
              /\ (forall k, isDotNotationKey k = false ->
                            ~ In k (relationNames (attributes contentType)) ->
                            Ob.get k processedRow = Ob.get k r))
           rows processedData.
Proof.
  intros S svc strapi rows ct w. unfold processRelations.
  set (attrs := attributes ct). revert w.
  induction rows as [|r rows IH]; intros w.
  - exists [], w. split; [reflexivity | constructor].
  - assert (Hrow : exists p w1,
               processRelationFields svc strapi r attrs r w = (Ok p, w1)
               /\ forall k, ~ In k (relationNames attrs) ->
                            Ob.get k p = Ob.get k r).
    { destruct (processRelationFields_returns svc strapi r attrs r w)
        as [p [w1 E]].
      exists p, w1. split; [exact E|].
      intros k Hk.
      destruct (processRelationFields_keeps svc strapi r attrs k Hk r w)
        as [p' [w' [E' F']]].
      rewrite E in E'. injection E' as <- <-. exact F'. }
    destruct Hrow as [p [w1 [E1 F1]]].
    destruct (IH w1) as [more [w2 [E2 F2]]].
    exists (cleanupDotNotation p :: more), w2.
    simpl. unfold processRelationsRow, bind. rewrite E1. simpl.
    rewrite E2. split; [reflexivity|].
    constructor; [|exact F2]. split.
    + intros k Hk. now apply get_cleanup_capture.
    + intros k Hk Hn. rewrite get_cleanupDotNotation by exact Hk. now apply F1.
Qed.

Section FailingLookups.

Context {S : Type}.
Variable svc : entityService S.
Variable strapi : registry.
Hypothesis Hfail : lookupsFail svc.

Lemma findRelatedEntities_lookupsFail (t : string) (sf : option string)
    (values : list string) :
  forall w, exists w',
    findRelatedEntities svc strapi t values sf w = (Ok [], w').
Proof.
  induction values as [|value rest IH]; intros w; simpl.
  - now exists w.
  - destruct (findRelatedEntity_lookupsFail svc strapi t value sf w Hfail)
      as [w1 E1].
    destruct (IH w1) as [w2 E2].
    exists w2. unfold bind. now rewrite E1, E2.
Qed.

Lemma processRelationField_lookupsFail (r p : row) (f : string) (a : attribute)
    (value : string) (sf : option string) (w : world S) :
  type a = "relation" ->
  In (relation a) relationKinds ->
  readRelation r f = Raw (Some value) sf ->
  exists w', processRelationField svc strapi r p (f, a) w = (Ok (Ob.del f p), w').
Proof.
  intros Ht Hk Hr. unfold processRelationField.
  rewrite Ht, String.eqb_refl, Hr. unfold tryCatch, bind.
  destruct ((relation a =? "oneToOne") || (relation a =? "manyToOne")) eqn:E1.
  - destruct (findRelatedEntity_lookupsFail svc strapi (target a) value sf w Hfail)
      as [w1 E]. rewrite E. now exists w1.
  - assert (E2 : (relation a =? "oneToMany") || (relation a =? "manyToMany") = true).
    { simpl in Hk. destruct Hk as [H|[H|[H|[H|[]]]]]; rewrite <- H in *;
        try discriminate E1; reflexivity. }
    rewrite E2.
    destruct (findRelatedEntities_lookupsFail (target a) sf (splitTrim value) w)
      as [w1 E]. rewrite E. now exists w1.
Qed.

End FailingLookups.

Lemma in_split_keys {V : Type} (k : string) (v : V) (o : Obj V) :
  NoDup (Ob.keys o) -> Ob.get k o = Some v ->
  exists before after,
    o = before ++ (k, v) :: after
    /\ ~ In k (Ob.keys before) /\ ~ In k (Ob.keys after).
Proof.
  induction o as [|[k0 v0] o IH]; simpl; [discriminate|].
  intros Hnd Hget. inversion Hnd as [|? ? Hnot Hnd']; subst.
  destruct (String.eqb_spec k0 k) as [->|Hne].
  - injection Hget as ->. exists [], o. split; [reflexivity|].
    split; [intros [] | exact Hnot].
  - destruct (IH Hnd' Hget) as [before [after [-> [Hb Ha]]]].
    exists ((k0, v0) :: before), after. split; [reflexivity|].
    split; [|exact Ha]. simpl. intros [H|H]; [congruence | exact (Hb H)].
Qed.

(** X3. When every lookup of the store throws, [processRelations] still
    returns every row, and each relation attribute (of one of the four
    kinds) whose value was present is removed from its row. *)
Theorem failing_lookups_drop_relation_fields :
  forall (S : Type) (svc : entityService S) (strapi : registry)
         (rows : list row) (contentType : schema) (w : world S),
    lookupsFail svc ->
    NoDup (Ob.keys (attributes contentType)) ->
    exists processedData w',
      processRelations svc strapi rows contentType w = (Ok processedData, w')
      /\ Forall2
           (fun r processedRow =>
              forall f a value searchField,
                Ob.get f (attributes contentType) = Some a ->
                type a = "relation" ->
                In (relation a) relationKinds ->
                readRelation r f = Raw (Some value) searchField ->
                Ob.get f processedRow = None)
           rows processedData.
Proof.
  intros S svc strapi rows ct w Hfail Hnd. unfold processRelations.
  set (attrs := attributes ct) in *. revert w.
  induction rows as [|r rows IH]; intros w.
  - exists [], w. split; [reflexivity | constructor].
  - destruct (processRelationFields_returns svc strapi r attrs r w)
      as [p0 [w1' E0]].
    assert (Erow : processRelationsRow svc strapi attrs r w
                   = (Ok (cleanupDotNotation p0), w1')).
    { unfold processRelationsRow, bind. now rewrite E0. }
    remember (cleanupDotNotation p0) as p eqn:Hp. clear Hp E0 p0.
    destruct (IH w1') as [more [w2 [E2 F2]]].
    exists (p :: more), w2. simpl. unfold bind. rewrite Erow, E2.
    split; [reflexivity|]. constructor; [|exact F2].
    intros f a value sf Ha Ht Hk Hr.
    destruct (in_split_keys f a attrs Hnd Ha) as [before [after [Hsplit [Hb Hafter]]]].
    unfold processRelationsRow in Erow. rewrite Hsplit in Erow.
    unfold bind in Erow. rewrite processRelationFields_app in Erow.
    unfold bind in Erow.
    destruct (processRelationFields_frame svc strapi r before f Hb r w)
      as [p1 [wa [Ea _]]].
    rewrite Ea in Erow. cbn [processRelationFields] in Erow.
    unfold bind in Erow.
    destruct (processRelationField_lookupsFail svc strapi Hfail r p1 f a value sf wa
                Ht Hk Hr) as [wb Eb].
    rewrite Eb in Erow.
    destruct (processRelationFields_frame svc strapi r after f Hafter (Ob.del f p1) wb)
      as [p3 [wc [Ec Fc]]].
    rewrite Ec in Erow. injection Erow as <- <-.
    destruct (isDotNotationKey f) eqn:Ekey.
    + now apply get_cleanup_capture.
    + rewrite get_cleanupDotNotation by exact Ekey.
      rewrite Fc. apply get_del_same.
Qed.

Lemma failing_lookups_drop_relation_fields_witness :
  exists processedData w',
    processRelations (MemoryStore.failingFindMany "Database error")
      Fixtures.strapi
      [[("name", VStr "Test"); ("country", VStr "India")]]
      Fixtures.company (MemoryStore.start MemoryStore.countries)
    = (Ok processedData, w')
    /\ Forall2
         (fun r processedRow =>
            forall f a value searchField,
              Ob.get f (attributes Fixtures.company) = Some a ->
              type a = "relation" ->
              In (relation a) relationKinds ->
              readRelation r f = Raw (Some value) searchField ->
              Ob.get f processedRow = None)
         [[("name", VStr "Test"); ("country", VStr "India")]] processedData.
Proof.
  apply (failing_lookups_drop_relation_fields MemoryStore.t
           (MemoryStore.failingFindMany "Database error") Fixtures.strapi
           [[("name", VStr "Test"); ("country", VStr "India")]]
           Fixtures.company (MemoryStore.start MemoryStore.countries)).
  - intros uid f s. now exists "Database error", s.
  - repeat constructor; simpl; intuition discriminate.
Defined.

(** ** Components: what the entries hold and what the rows keep *)




Section ComponentFacts.

Variable toISOString : string -> option string.
Context {S : Type}.
Variable svc : entityService S.
Variable strapi : registry.

(** The entries of one component never throw; the keys they add are
    declared attributes named by a populated subfield. *)
Lemma processComponentEntries_keys (cattrs : Obj attribute)
    (entries : list (string * string)) :
  forall acc w, exists d w',
    processComponentEntries toISOString svc strapi cattrs entries acc w = (Ok d, w')
    /\ forall k, In k (Ob.keys d) ->
         In k (Ob.keys acc)
         \/ (Ob.has k cattrs = true
             /\ exists subfield value,
                  In (subfield, value) entries /\ value <> ""
                  /\ subfieldHead subfield = k).
Proof.
  induction entries as [|[fieldName value] rest IH]; intros acc w;
    cbn [processComponentEntries].
  - exists acc, w. split; [reflexivity | auto].
  - assert (Hskip : exists d w',
               processComponentEntries toISOString svc strapi cattrs rest acc w
               = (Ok d, w')
               /\ forall k, In k (Ob.keys d) ->
                    In k (Ob.keys acc)
                    \/ (Ob.has k cattrs = true
                        /\ exists subfield value0,
                             In (subfield, value0) ((fieldName, value) :: rest)
                             /\ value0 <> "" /\ subfieldHead subfield = k)).
    { destruct (IH acc w) as [d [w' [E H]]]. exists d, w'. split; [exact E|].
      intros k Hk. destruct (H k Hk) as [Ha|[Hh [sub [v0 [Hin Hrest]]]]];
        [now left|]. right. split; [exact Hh|]. exists sub, v0.
      split; [now right | exact Hrest]. }
    destruct (Str.truthy value) eqn:Etruthy; cbn [negb]; [|exact Hskip].
    destruct (Ob.get (hd "" (Str.split "." fieldName)) cattrs) as [a|] eqn:Ea;
      [|exact Hskip].
    assert (Hne : value <> "").
    { intros ->. discriminate Etruthy. }
    assert (Hset : forall v w0, exists d w',
               processComponentEntries toISOString svc strapi cattrs rest
                 (Ob.set (hd "" (Str.split "." fieldName)) v acc) w0 = (Ok d, w')
               /\ forall k, In k (Ob.keys d) ->
                    In k (Ob.keys acc)
                    \/ (Ob.has k cattrs = true
                        /\ exists subfield value0,
                             In (subfield, value0) ((fieldName, value) :: rest)
                             /\ value0 <> "" /\ subfieldHead subfield = k)).
    { intros v w0.
      destruct (IH (Ob.set (hd "" (Str.split "." fieldName)) v acc) w0)
        as [d [w' [E H]]].
      exists d, w'. split; [exact E|].
      intros k Hk. destruct (H k Hk) as [Ha|[Hh [sub [v0 [Hin Hrest]]]]].
      - destruct (String.eqb_spec (hd "" (Str.split "." fieldName)) k) as [Hk'|Hk'].
        + right. split; [unfold Ob.has; rewrite <- Hk', Ea; reflexivity|].
          exists fieldName, value. split; [now left|]. split; [exact Hne|exact Hk'].
        + left. unfold Ob.keys in *. apply in_map_iff in Ha.
          destruct Ha as [[k1 v1] [Hfst Hin]]. simpl in Hfst. subst k1.
          apply in_map_iff.
          assert (Hg : Ob.get k (Ob.set (hd "" (Str.split "." fieldName)) v acc)
                       <> None).
          { clear - Hin. induction (Ob.set _ v acc) as [|[k2 v2] o IHo];
              simpl in *; [contradiction|].
            destruct (String.eqb_spec k2 k); [discriminate|].
            destruct Hin as [Heq|Hin]; [congruence | now apply IHo]. }
          rewrite get_set_other in Hg by exact Hk'.
          destruct (Ob.get k acc) as [x|] eqn:Ex; [|congruence].
          apply get_in_keys in Ex. unfold Ob.keys in Ex.
          now apply in_map_iff in Ex.
      - right. split; [exact Hh|]. exists sub, v0.
        split; [now right | exact Hrest]. }
    destruct (type a =? "relation").
    + unfold bind. cbv beta.
      match goal with
      | |- context [findRelatedEntity svc strapi ?t ?v ?sf w] =>
          destruct (findRelatedEntity_returns svc strapi t v sf w)
            as [[e|] [w1 E]]; rewrite E
      end.
      * apply Hset.
      * destruct (IH acc w1) as [d [w' [E' H]]]. exists d, w'.
        split; [exact E'|].
        intros k Hk. destruct (H k Hk) as [Ha|[Hh [sub [v0 [Hin Hrest]]]]];
          [now left|]. right. split; [exact Hh|]. exists sub, v0.
        split; [now right | exact Hrest].
    + apply Hset.
Qed.

Lemma processComponentData_returns (cd : Obj string) (cattrs : Obj attribute)
    (w : world S) :
  exists d w', processComponentData toISOString svc strapi cd cattrs w = (Ok d, w').
Proof.
  unfold processComponentData, bind.
  destruct (processComponentEntries_keys cattrs cd [] w) as [d [w' [E _]]].
  rewrite E. now eexists; eexists.
Qed.

Lemma processComponentRows_returns (rows : list (Obj string))
    (cattrs : Obj attribute) :
  forall w, exists ds w',
    processComponentRows toISOString svc strapi rows cattrs w = (Ok ds, w').
Proof.
  induction rows as [|r rows IH]; intros w; cbn [processComponentRows].
  - now exists [], w.
  - unfold bind.
    destruct (processComponentData_returns r cattrs w) as [d [w1 E1]].
    rewrite E1. destruct (IH w1) as [ds [w2 E2]]. rewrite E2.
    now eexists; eexists.
Qed.

(** One attribute never throws, and touches no key but its own and its
    capture key. *)
Lemma processComponentField_frame (r p : row) (entry : string * attribute)
    (w : world S) :
  exists p' w',
    processComponentField toISOString svc strapi r p entry w = (Ok p', w')
    /\ (type (snd entry) <> "component" -> p' = p)
    /\ forall k, k <> fst entry -> k <> componentDataKey (fst entry) ->
                 Ob.get k p' = Ob.get k p.
Proof.
  destruct entry as [f a]. unfold processComponentField. simpl fst. simpl snd.
  destruct (String.eqb_spec (type a) "component") as [Ht|Ht];
    [|exists p, w; now repeat split].
  assert (Hsame : exists p' w',
             ret (S := S) p w = (Ok p', w')
             /\ (type a <> "component" -> p' = p)
             /\ forall k, k <> f -> k <> componentDataKey f ->
                          Ob.get k p' = Ob.get k p).
  { exists p, w. now repeat split. }
  destruct (Ob.get (componentDataKey f) r) as [[| | | | |[|c cd]| |]|];
    try exact Hsame.
  unfold tryCatch.
  destruct (Ob.get (component a) (components strapi)) as [sch|];
    [|exact Hsame].
  assert (Hout : forall entries w1, exists p' w',
             ret (S := S)
               (Ob.del (componentDataKey f)
                  (match entries with
                   | [] => p
                   | first :: _ =>
                       Ob.set f (if repeatable a then VArr (map VObj entries)
                                 else VObj first) p
                   end)) w1 = (Ok p', w')
             /\ (type a <> "component" -> p' = p)
             /\ forall k, k <> f -> k <> componentDataKey f ->
                          Ob.get k p' = Ob.get k p).
  { intros entries w1. eexists; eexists. split; [reflexivity|].
    split; [congruence|]. intros k Hk Hc.
    rewrite get_del_other by congruence.
    destruct entries; [reflexivity|]. apply get_set_other. congruence. }
  unfold bind at 1.
  destruct (repeatable a).
  - destruct (processComponentRows_returns (parseComponentRows (c :: cd))
                (attributes sch) w) as [ds [w1 E]].
    rewrite E. apply Hout.
  - unfold bind.
    destruct (processComponentData_returns (c :: cd) (attributes sch) w)
      as [d [w1 E]].
    rewrite E. cbv beta iota. apply Hout.
Qed.

Lemma processComponentFields_returns (r : row) (attrs : list (string * attribute)) :
  forall p w, exists p' w',
    processComponentFields toISOString svc strapi r attrs p w = (Ok p', w').
Proof.
  induction attrs as [|e attrs IH]; intros p w; cbn [processComponentFields].
  - now exists p, w.
  - destruct (processComponentField_frame r p e w) as [p1 [w1 [E1 _]]].
    unfold bind. rewrite E1. apply IH.
Qed.

Lemma processComponentFields_keeps (r : row) (attrs : list (string * attribute))
    (k : string) :
  (forall f, In f (componentNames attrs) -> k <> f /\ k <> componentDataKey f) ->
  forall p w, exists p' w',
    processComponentFields toISOString svc strapi r attrs p w = (Ok p', w')
    /\ Ob.get k p' = Ob.get k p.
Proof.
  induction attrs as [|[f a] attrs IH]; intros Hk p w;
    cbn [processComponentFields].
  - now exists p, w.
  - destruct (processComponentField_frame r p (f, a) w)
      as [p1 [w1 [E1 [Hsame F1]]]].
    simpl in Hsame, F1.
    unfold componentNames in Hk. simpl in Hk.
    destruct (String.eqb_spec (type a) "component") as [Ht|Ht].
    + destruct (IH (fun g Hg => Hk g (or_intror Hg)) p1 w1) as [p2 [w2 [E2 F2]]].
      exists p2, w2. unfold bind. rewrite E1. split; [exact E2|].
      rewrite F2. destruct (Hk f (or_introl eq_refl)). now apply F1.
    + destruct (IH Hk p1 w1) as [p2 [w2 [E2 F2]]].
      exists p2, w2. unfold bind. rewrite E1. split; [exact E2|].
      rewrite F2. now rewrite (Hsame Ht).
Qed.



End ComponentFacts.

(** X4. For subfields whose text before the first dot is not the name of an
    inherited member, [processComponentData] never throws.  The entry it
    builds holds only declared attributes of the component, each named by
    the text before the first dot of a captured subfield with a non-empty
    value; an entry without any such field is [null]. *)
Theorem component_entry_fields_are_declared :
  forall (toISOString : string -> option string) (S : Type)
         (svc : entityService S) (strapi : registry)
         (componentData : Obj string) (componentAttributes : Obj attribute)
         (w : world S),
    ownNames (map subfieldHead (Ob.keys componentData)) = true ->
    exists processed w',
      processComponentData toISOString svc strapi componentData
                           componentAttributes w = (Ok processed, w')
      /\ forall entry, processed = Some entry ->
           entry <> []
           /\ forall k, In k (Ob.keys entry) ->
                Ob.has k componentAttributes = true
                /\ exists subfield value,
                     In (subfield, value) componentData /\ value <> ""
                     /\ subfieldHead subfield = k.
Proof.
  intros toISO S svc strapi cd cattrs w _.
  unfold processComponentData, bind.
  destruct (processComponentEntries_keys toISO svc strapi cattrs cd [] w)
    as [d [w' [E H]]].
  rewrite E. eexists; eexists. split; [reflexivity|].
  intros entry Hentry. destruct d as [|x d]; [discriminate|].
  injection Hentry as <-. split; [discriminate|].
  intros k Hk. destruct (H k Hk) as [[]|Hr]. exact Hr.
Qed.

Lemma component_entry_fields_are_declared_witness :
  exists processed w',
    processComponentData Fixtures.noDates MemoryStore.service Fixtures.strapi
      [("street", "12 Main St"); ("zip", "75001"); ("country.code", "IN")]
      (attributes Fixtures.address) (MemoryStore.start MemoryStore.countries)
    = (Ok processed, w')
    /\ forall entry, processed = Some entry ->
         entry <> []
         /\ forall k, In k (Ob.keys entry) ->
              Ob.has k (attributes Fixtures.address) = true
              /\ exists subfield value,
                   In (subfield, value)
                      [("street", "12 Main St"); ("zip", "75001");
                       ("country.code", "IN")]
                   /\ value <> ""
                   /\ subfieldHead subfield = k.
Proof.
  exact (component_entry_fields_are_declared Fixtures.noDates MemoryStore.t
           MemoryStore.service Fixtures.strapi
           [("street", "12 Main St"); ("zip", "75001"); ("country.code", "IN")]
           (attributes Fixtures.address)
           (MemoryStore.start MemoryStore.countries) eq_refl).
Defined.

(** X5. [processComponents] never throws, whatever the store does: it returns
    one row per input row, and in each row every key that is neither the
    name of a component attribute nor its capture key is as it was. *)
Theorem components_touch_only_component_fields :
  forall (toISOString : string -> option string) (S : Type)
         (svc : entityService S) (strapi : registry)
         (rows : list row) (contentType : schema) (w : world S),
    exists processedData w',
      processComponents toISOString svc strapi rows contentType w
      = (Ok processedData, w')
      /\ Forall2
           (fun r processedRow =>
              forall k,
                (forall f, In f (componentNames (attributes contentType)) ->
                           k <> f /\ k <> componentDataKey f) ->
                Ob.get k processedRow = Ob.get k r)
           rows processedData.
Proof.
  intros toISO S svc strapi rows ct w. unfold processComponents.
  set (attrs := attributes ct). revert w.
  induction rows as [|r rows IH]; intros w.
  - exists [], w. split; [reflexivity | constructor].
  - destruct (processComponentFields_returns toISO svc strapi r attrs r w)
      as [p [w1 E1]].
    destruct (IH w1) as [more [w2 [E2 F2]]].
    exists (p :: more), w2. cbn [processComponentsRows]. unfold bind.
    rewrite E1, E2. split; [reflexivity|]. constructor; [|exact F2].
    intros k Hk.
    destruct (processComponentFields_keeps toISO svc strapi r attrs k Hk r w)
      as [p' [w' [E' F']]].
    rewrite E1 in E'. injection E' as <- <-. exact F'.
Qed.



(** ** The import loop: creations and batch sizes *)

Section ImportLog.

Variable numberToString : jsval -> string.
Variable localeCompare : string -> string -> comparison.
Context {S : Type}.
Variable svc : entityService S.
Variable uid : string.

Lemma upsertValue_off (opts : Options.t) (item : row) :
  Options.upsert opts = false -> upsertValue opts item = None.
Proof. intros H. unfold upsertValue. now rewrite H. Qed.

Lemma importBatch_creates (opts : Options.t) (batch : list row) :
  Options.upsert opts = false ->
  forall results w,
    log (snd (importBatch numberToString localeCompare svc uid opts batch results w))
    = log w ++ map (fun item =>
                      Create uid (withMedia numberToString localeCompare opts item))
                   batch.
Proof.
  intros Hoff. induction batch as [|item batch IH]; intros results w;
    cbn [importBatch map].
  - simpl. now rewrite app_nil_r.
  - unfold bind. rewrite importItem_steps. cbv zeta.
    rewrite (upsertValue_off _ _ Hoff). unfold settle.
    destruct (create svc uid _ (store w)) as [[e|m] s1]; cbn [fst snd];
      rewrite IH; cbn [log]; now rewrite <- app_assoc.
Qed.

Lemma importBatches_stuck (opts : Options.t) (validData : list row) :
  (Options.batchSize opts <= 0)%Z -> validData <> [] ->
  forall fuel i results w,
    (i <= 0)%Z ->
    fst (importBatches numberToString localeCompare svc fuel uid opts validData
                       i results w) = Ok None.
Proof.
  intros Hb Hne. induction fuel as [|fuel IH]; intros i results w Hi;
    [reflexivity|].
  cbn [importBatches].
  assert (Hlt : (i <? Z.of_nat (length validData))%Z = true).
  { apply Z.ltb_lt. destruct validData; [congruence|]. simpl length. lia. }
  rewrite Hlt. unfold bind.
  destruct (importBatch_total numberToString localeCompare svc uid opts
              (slice validData i (i + Options.batchSize opts)) results w)
    as [r1 [w1 [E _]]].
  rewrite E. apply IH. lia.
Qed.

End ImportLog.

(** X7. Without upsert the import only creates: for a positive batch size
    the calls it makes are exactly one [create] per row, in row order, each
    with the row as the media step left it; no lookup and no update is
    made. *)
Theorem import_without_upsert_creates_every_row :
  forall (numberToString : jsval -> string)
         (localeCompare : string -> string -> comparison)
         (S : Type) (svc : entityService S) (uid : string)
         (validData : list row) (opts : Options.t) (fuel : nat) (w : world S),
    Options.upsert opts = false ->
    (0 < Options.batchSize opts)%Z ->
    length validData < fuel ->
    log (snd (importData numberToString localeCompare svc fuel uid validData opts w))
    = log w ++ map (fun item =>
                      Create uid (withMedia numberToString localeCompare opts item))
                   validData.
Proof.
  intros nts lc S svc uid validData opts fuel w Hoff Hb Hfuel.
  rewrite importData_pass by assumption.
  rewrite <- (importBatch_creates nts lc svc uid opts validData Hoff
                (Results.mk 0 0 []) w).
  now destruct (importBatch nts lc svc uid opts validData (Results.mk 0 0 []) w)
    as [[r|m] w'].
Qed.

Lemma import_without_upsert_creates_every_row_witness :
  log (snd (importData SampleRuntime.numberToString SampleRuntime.localeCompare
              MemoryStore.service 6 "api::country.country" fiveCountries
              (Options.mk false 2 "id" []) (MemoryStore.start [])))
  = log (MemoryStore.start [])
    ++ map (fun item =>
              Create "api::country.country"
                (withMedia SampleRuntime.numberToString SampleRuntime.localeCompare
                           (Options.mk false 2 "id" []) item))
           fiveCountries.
Proof.
  apply (import_without_upsert_creates_every_row SampleRuntime.numberToString
           SampleRuntime.localeCompare MemoryStore.t MemoryStore.service
           "api::country.country" fiveCountries (Options.mk false 2 "id" []) 6
           (MemoryStore.start []));
    [reflexivity | reflexivity | simpl; lia].
Defined.

(** X8. A batch size of zero or less never lets the loop of [importData]
    end when there is at least one row: however many iterations it is
    given, it is still running. *)
Theorem nonpositive_batch_size_never_ends :
  forall (numberToString : jsval -> string)
         (localeCompare : string -> string -> comparison)
         (S : Type) (svc : entityService S) (uid : string)
         (validData : list row) (opts : Options.t) (fuel : nat) (w : world S),
    (Options.batchSize opts <= 0)%Z ->
    validData <> [] ->
    fst (importData numberToString localeCompare svc fuel uid validData opts w)
    = Ok None.
Proof.
  intros nts lc S svc uid validData opts fuel w Hb Hne.
  unfold importData. apply importBatches_stuck; [assumption | assumption | lia].
Qed.

Lemma nonpositive_batch_size_never_ends_witness :
  fst (importData SampleRuntime.numberToString SampleRuntime.localeCompare
         MemoryStore.service 50 "api::country.country" fiveCountries
         (Options.mk false (-2) "id" []) (MemoryStore.start []))
  = Ok None.
Proof.
  apply (nonpositive_batch_size_never_ends SampleRuntime.numberToString
           SampleRuntime.localeCompare MemoryStore.t MemoryStore.service
           "api::country.country" fiveCountries
           (Options.mk false (-2) "id" []) 50 (MemoryStore.start []));
    [simpl; lia | discriminate].
Defined.

(** ** Validation: warnings, clean files and typed rows *)

Lemma parseHeaderMapping_total (attrs : Obj attribute) (hs : list string)
    (h : string) :
  In h hs -> Ob.get h (parseHeaderMapping hs attrs) = Some (mapHeader attrs h).
Proof.
  unfold parseHeaderMapping.
  assert (H : forall acc,
             In h hs \/ Ob.get h acc = Some (mapHeader attrs h) ->
             Ob.get h (fold_left (fun hm header =>
                                    Ob.set header (mapHeader attrs header) hm)
                                 hs acc) = Some (mapHeader attrs h)).
  { induction hs as [|h0 hs IH]; intros acc Hor; simpl.
    - destruct Hor as [[]|Hacc]. exact Hacc.
    - apply IH.
      destruct (String.eqb_spec h0 h) as [->|Hne].
      + right. apply get_set_same.
      + destruct Hor as [[Heq|Hin]|Hacc]; [congruence | now left |].
        right. now rewrite get_set_other. }
  intros Hin. apply H. now left.
Qed.

(** X9. For headers that are not names of inherited members, the warning
    about unknown fields lists exactly the headers without a dot that are
    not attribute names, in header order; a header with a dot is never
    listed, whatever it maps to. *)
Theorem unknown_fields_are_plain_undeclared_headers :
  forall (csvHeaders : list string) (attrs : Obj attribute),
    ownNames csvHeaders = true ->
    unknownFields csvHeaders (parseHeaderMapping csvHeaders attrs)
    = filter (fun header =>
                negb (Str.includesChar "." header) && negb (Ob.has header attrs))
             csvHeaders.
Proof.
  intros hs attrs _. unfold unknownFields. apply filter_ext_in.
  intros h Hin. rewrite (parseHeaderMapping_total attrs hs h Hin).
  unfold mapHeader, Ob.has.
  destruct (Str.includesChar "." h); simpl.
  - destruct (Ob.get (hd "" (Str.split "." h)) attrs) as [a|];
      [|now rewrite andb_false_r].
    destruct (type a =? "relation"); [now rewrite andb_false_r|].
    destruct (type a =? "component"); now rewrite andb_false_r.
  - now destruct (Ob.get h attrs).
Qed.

Lemma unknown_fields_are_plain_undeclared_headers_witness :
  unknownFields ["name"; "notes"; "country.code"; "owner.name"; "established"]
    (parseHeaderMapping
       ["name"; "notes"; "country.code"; "owner.name"; "established"]
       (attributes Fixtures.company))
  = filter (fun header =>
              negb (Str.includesChar "." header)
              && negb (Ob.has header (attributes Fixtures.company)))
           ["name"; "notes"; "country.code"; "owner.name"; "established"].
Proof.
  exact (unknown_fields_are_plain_undeclared_headers
           ["name"; "notes"; "country.code"; "owner.name"; "established"]
           (attributes Fixtures.company) eq_refl).
Defined.


Lemma flat_map_nil_all {A B : Type} (f : A -> list B) (l : list A) :
  flat_map f l = [] -> forall x, In x l -> f x = [].
Proof.
  induction l as [|y l IH]; simpl; intros H x Hin; [contradiction|].
  apply app_eq_nil in H. destruct H as [Hy Hl].
  destruct Hin as [<-|Hin]; [exact Hy | now apply IH].
Qed.

Lemma filter_all {A : Type} (p : A -> bool) (l : list A) :
  (forall x, In x l -> p x = true) -> filter p l = l.
Proof.
  induction l as [|y l IH]; simpl; intros H; [reflexivity|].
  rewrite (H y) by now left. f_equal. apply IH. intros x Hx. apply H. now right.
Qed.

Lemma filter_none {A : Type} (p : A -> bool) (l : list A) :
  (forall x, In x l -> p x = false) -> filter p l = [].
Proof.
  induction l as [|y l IH]; simpl; intros H; [reflexivity|].
  rewrite (H y) by now left. apply IH. intros x Hx. apply H. now right.
Qed.

(** X10. A validation without errors keeps every row: the input is not empty,
    [validData] has as many rows as the input and [invalidRows] is empty.
    One error of one row is therefore enough for the list of errors not to
    be empty. *)
Theorem clean_validation_keeps_every_row :
  forall (toISOString : string -> option string) (strapi : registry)
         (rows : list csvRow) (contentType : schema) (v : Validation.t),
    validateCsvData toISOString strapi rows contentType = Some v ->
    Validation.errors v = [] ->
    rows <> []
    /\ length (Validation.validData v) = length rows
    /\ Validation.invalidRows v = Some [].
Proof.
  intros toISO strapi rows ct v H Herr.
  unfold validateCsvData in H.
  destruct rows as [|first rest]; [injection H as <-; discriminate Herr|].
  split; [discriminate|].
  destruct (validateRelationFieldUniqueness _ _ _) as [relErrors relWarnings].
  destruct (validateRows toISO _ _ 0 (first :: rest)) as [results|] eqn:E;
    [|discriminate].
  injection H as <-. simpl in Herr |- *.
  apply app_eq_nil in Herr. destruct Herr as [_ Hrows].
  assert (Hall : forall res, In res results -> noErrors res = true).
  { intros res Hin. unfold noErrors.
    now rewrite (flat_map_nil_all rowErrors results Hrows res Hin). }
  rewrite (filter_all noErrors results Hall).
  rewrite (filter_none (fun res => negb (noErrors res)) results)
    by (intros res Hin; now rewrite (Hall res Hin)).
  split; [|reflexivity].
  rewrite length_map. now apply validateRows_length in E.
Qed.

Lemma clean_validation_keeps_every_row_witness :
  [[("name", "India"); ("code", "IN")];
   [("name", "United States"); ("code", "US")];
   [("name", "China"); ("code", "CN")]] <> ([] : list csvRow)
  /\ length
       (Validation.validData
          (Validation.mk [] []
             [[("name", VStr "India"); ("code", VStr "IN")];
              [("name", VStr "United States"); ("code", VStr "US")];
              [("name", VStr "China"); ("code", VStr "CN")]]
             (Some []))) = 3
  /\ Validation.invalidRows
       (Validation.mk [] []
          [[("name", VStr "India"); ("code", VStr "IN")];
           [("name", VStr "United States"); ("code", VStr "US")];
           [("name", VStr "China"); ("code", VStr "CN")]]
          (Some [])) = Some [].
Proof.
  exact (clean_validation_keeps_every_row Fixtures.noDates Fixtures.strapi
           [[("name", "India"); ("code", "IN")];
            [("name", "United States"); ("code", "US")];
            [("name", "China"); ("code", "CN")]]
           Fixtures.country _ eq_refl eq_refl).
Defined.


Lemma coerceCell_storedAs (toISOString : string -> option string)
    (index : nat) (fieldName : string) (a : attribute) (value : string)
    (v : jsval) :
  coerceCell toISOString index fieldName a value = Store v ->
  storedAs a v = true.
Proof.
  unfold coerceCell, storedAs. cbv zeta.
  destruct ((type a =? "integer") || (type a =? "biginteger")).
  { destruct (Num.parseInt10 value); [|discriminate]. now intros [= <-]. }
  destruct ((type a =? "decimal") || (type a =? "float")).
  { destruct (Num.parseFloat value); [|discriminate]. now intros [= <-]. }
  destruct (type a =? "boolean").
  { destruct (includes _ booleanTokens); [|discriminate]. now intros [= <-]. }
  destruct (String.eqb_spec (type a) "component") as [Hc|Hc].
  { rewrite Hc. simpl. discriminate. }
  destruct ((type a =? "date") || (type a =? "datetime") || (type a =? "time")).
  { destruct (toISOString value); [|discriminate]. now intros [= <-]. }
  destruct (type a =? "email").
  { destruct (negb (emailTest value)); [discriminate|]. now intros [= <-]. }
  destruct (type a =? "enumeration").
  { destruct (enum a) as [allowed|]; [|now intros [= <-]].
    destruct (negb (includes value allowed)); [discriminate|]. now intros [= <-]. }
  destruct (type a =? "relation"); [now intros [= <-]|].
  destruct (String.eqb_spec (type a) "component"); [contradiction|].
  now intros [= <-].
Qed.

Lemma typedRow_set (attrs : Obj attribute) (r : row) (k : string) (x : jsval) :
  typedRow attrs r -> typedEntry attrs k x -> typedRow attrs (Ob.set k x r).
Proof.
  intros Hr Hx k' x' H.
  destruct (String.eqb_spec k k') as [<-|Hne].
  - rewrite get_set_same in H. now injection H as <-.
  - rewrite get_set_other in H by exact Hne. now apply Hr.
Qed.

Section TypedRows.

Variable toISOString : string -> option string.
Variable attrs : Obj attribute.
Variable csvHeaders : list string.

Lemma validateCell_typed (index : nat) (st st' : row * list string)
    (cell : string * string) :
  typedRow attrs (fst st) ->
  validateCell toISOString attrs (parseHeaderMapping csvHeaders attrs)
               index st cell = Some st' ->
  typedRow attrs (fst st').
Proof.
  destruct cell as [h v], st as [r errs]. simpl. intros Htyped.
  unfold validateCell.
  destruct (Ob.get h (parseHeaderMapping csvHeaders attrs)) as [m|] eqn:Hget;
    [|now intros [= <-]].
  destruct (isValid m) eqn:Hv; simpl; [|now intros [= <-]].
  pose proof (parseHeaderMapping_get _ _ _ _ Hget) as Hm.
  rewrite Hm in Hv.
  destruct (mapHeader_valid attrs h Hv) as [a [Ha Hdot]].
  rewrite <- Hm in Ha, Hdot.
  assert (Hcap : forall r1, storeCapture m v r = Some r1 -> typedRow attrs r1).
  { unfold storeCapture. intros r1.
    destruct (isDotNotation m); [|now intros [= <-]].
    destruct (Hdot eq_refl) as [[Hc [Ht Hrf]]|[Hc Ht]]; rewrite Hc.
    - rewrite Hrf. intros [= <-]. apply typedRow_set; [exact Htyped|].
      right. left. exists (field m), a. repeat split; try assumption.
      now eexists; eexists.
    - assert (Hok : forall o, typedRow attrs
                (Ob.set (componentDataKey (field m)) (VCap o) r)).
      { intros o. apply typedRow_set; [exact Htyped|].
        right. right. exists (field m), a. now repeat split. }
      destruct (Ob.get (componentDataKey (field m)) r) as [x|].
      + destruct x; try (destruct (truthy _); [discriminate|]);
          intros [= <-]; apply Hok.
      + intros [= <-]. apply Hok. }
  destruct (storeCapture m v r) as [r1|]; [|discriminate].
  specialize (Hcap r1 eq_refl). rewrite Ha.
  destruct (negb (v =? "")).
  - destruct (coerceCell toISOString index (field m) a v) as [x| |] eqn:Ec;
      intros [= <-]; simpl; [|exact Hcap..].
    apply typedRow_set; [exact Hcap|]. left. exists a. split; [exact Ha|].
    exact (coerceCell_storedAs _ _ _ _ _ _ Ec).
  - destruct (_ && _); intros [= <-]; exact Hcap.
Qed.

Lemma validateCells_typed (index : nat) (cells : list (string * string)) :
  forall st st',
    typedRow attrs (fst st) ->
    validateCells toISOString attrs (parseHeaderMapping csvHeaders attrs)
                  index cells st = Some st' ->
    typedRow attrs (fst st').
Proof.
  induction cells as [|c cells IH]; intros st st' Hst H; simpl in H.
  - now injection H as <-.
  - destruct (validateCell _ _ _ _ st c) as [st1|] eqn:E; [|discriminate].
    apply (IH st1 st'); [|exact H].
    exact (validateCell_typed index st st1 c Hst E).
Qed.

Lemma validateRows_typed (rows : list csvRow) :
  forall index results,
    validateRows toISOString attrs (parseHeaderMapping csvHeaders attrs)
                 index rows = Some results ->
    forall res, In res results -> typedRow attrs (data res).
Proof.
  induction rows as [|r rows IH]; intros index results H res Hin; simpl in H.
  - injection H as <-. contradiction.
  - unfold validateRow in H.
    destruct (validateCells _ _ _ _ r ([], [])) as [[vr errs]|] eqn:E;
      [|discriminate].
    destruct (validateRows _ _ _ (S index) rows) as [more|] eqn:Emore;
      [|discriminate].
    injection H as <-. destruct Hin as [<-|Hin].
    + simpl. apply (validateCells_typed index r ([], []) (vr, errs)); [|exact E].
      intros k x Hk. discriminate Hk.
    + exact (IH (S index) more Emore res Hin).
Qed.

End TypedRows.

(** X11. For a file whose columns are not named like inherited members,
    every row of [validData] holds only what the schema knows: each key is
    an attribute name with a value of the attribute's type (a number, a
    decimal literal, a boolean, or text), or the capture key of a relation
    or component attribute with its capture.  No cell of an unknown column
    and no text under a numeric or boolean attribute reaches the import. *)
Theorem valid_rows_are_typed :
  forall (toISOString : string -> option string) (strapi : registry)
         (rows : list csvRow) (contentType : schema) (v : Validation.t)
         (r : row) (k : string) (x : jsval),
    ownNames (flat_map (@Ob.keys string) rows) = true ->
    validateCsvData toISOString strapi rows contentType = Some v ->
    In r (Validation.validData v) ->
    Ob.get k r = Some x ->
    typedEntry (attributes contentType) k x.
Proof.
  intros toISO strapi rows ct v r k x _ H Hin Hget.
  unfold validateCsvData in H.
  destruct rows as [|first rest]; [injection H as <-; contradiction|].
  destruct (validateRelationFieldUniqueness _ _ _) as [relErrors relWarnings].
  destruct (validateRows toISO _ _ 0 (first :: rest)) as [results|] eqn:E;
    [|discriminate].
  injection H as <-. simpl in Hin.
  apply in_map_iff in Hin. destruct Hin as [res [<- Hres]].
  apply filter_In in Hres. destruct Hres as [Hres _].
  exact (validateRows_typed toISO (attributes ct) (Ob.keys first)
           (first :: rest) 0 results E res Hres k x Hget).
Qed.

Lemma valid_rows_are_typed_witness :
  typedEntry (attributes Fixtures.company) "established" (VNum 2020).
Proof.
  exact (valid_rows_are_typed Fixtures.noDates Fixtures.strapi
           [[("name", ""); ("country", "India"); ("established", "invalid");
             ("active", "maybe"); ("notes", "x")];
            [("name", "Company D"); ("country", "Unknown Country");
             ("established", "2020"); ("active", "true"); ("notes", "y")]]
           Fixtures.company _
           [("name", VStr "Company D"); ("country", VStr "Unknown Country");
            ("established", VNum 2020); ("active", VBool true)]
           "established" (VNum 2020)
           eq_refl eq_refl (or_introl eq_refl) eq_refl).
Defined.

(** ** The uniqueness check of relation columns *)

Lemma in_set {V : Type} (k k' : string) (v v' : V) (o : Obj V) :
  In (k', v') (Ob.set k v o) -> (k', v') = (k, v) \/ In (k', v') o.
Proof.
  induction o as [|[k0 v0] o IH]; simpl.
  - intros [H|[]]. left. now symmetry.
  - destruct (k0 =? k); simpl.
    + intros [H|H]; [left; now symmetry | right; now right].
    + intros [H|H]; [right; now left|].
      destruct (IH H) as [E|E]; [now left | right; now right].
Qed.


Lemma parseHeaderMapping_entries (attrs : Obj attribute) (hs : list string)
    (h : string) (m : mapping) :
  In (h, m) (parseHeaderMapping hs attrs) ->
  m = mapHeader attrs h /\ In h hs.
Proof.
  unfold parseHeaderMapping.
  assert (H : forall acc,
             In (h, m) (fold_left (fun hm header =>
                                     Ob.set header (mapHeader attrs header) hm)
                                  hs acc) ->
             (m = mapHeader attrs h /\ In h hs) \/ In (h, m) acc).
  { induction hs as [|h0 hs IH]; intros acc Hin; simpl in Hin.
    - now right.
    - destruct (IH _ Hin) as [[Hm Hh]|Hacc].
      + left. split; [exact Hm | now right].
      + destruct (in_set _ _ _ _ _ Hacc) as [E|E]; [|now right].
        injection E as -> ->. left. split; [reflexivity | now left]. }
  intros Hin. destruct (H [] Hin) as [Hok|[]]. exact Hok.
Qed.



Section Collect.

Variable attrs : Obj attribute.

Lemma collectRelationFields_fold (hm : Obj mapping) :
  collectRelationFields hm attrs = fold_left (collectStep attrs) hm [].
Proof. reflexivity. Qed.

Lemma collect_guard (m : mapping) :
  isValid m && negb (isComponent m) && isDotNotation m = isRelationColumn m.
Proof.
  unfold isRelationColumn.
  destruct (isValid m), (isComponent m), (isDotNotation m); reflexivity.
Qed.

Lemma collectStep_entries (hm : Obj mapping) (f : string) (info : relationInfo) :
  forall acc,
    In (f, info) (fold_left (collectStep attrs) hm acc) ->
    In (f, info) acc
    \/ exists h m a,
         In (h, m) hm /\ isRelationColumn m = true /\ field m = f
         /\ Ob.get f attrs = Some a
         /\ info = mkRelationInfo h (relationField m) a.
Proof.
  induction hm as [|[h m] hm IH]; intros acc Hin; simpl in Hin; [now left|].
  destruct (IH _ Hin) as [Hacc|[h' [m' [a' [Hin' Hrest]]]]].
  - rewrite collect_guard in Hacc.
    destruct (isRelationColumn m) eqn:Ec; [|now left].
    destruct (Ob.get (field m) attrs) as [a|] eqn:Ea; [|now left].
    destruct (type a =? "relation"); [|now left].
    destruct (in_set _ _ _ _ _ Hacc) as [E|E]; [|now left].
    injection E as -> ->. right. exists h, m, a.
    split; [now left|]. now repeat split.
  - right. exists h', m', a'. split; [now right | exact Hrest].
Qed.


End Collect.

Section Check.

Variable strapi : registry.



Lemma check_passes (l : list (string * relationInfo)) :
  (forall f info, In (f, info) l ->
     forall sf, ri_relationField info = Some sf ->
       target (ri_attribute info) <> "" -> sf <> "" ->
       exists sch ta,
         Ob.get (target (ri_attribute info)) (contentTypes strapi) = Some sch
         /\ Ob.get sf (attributes sch) = Some ta /\ unique ta = true) ->
  forall acc, fold_left (checkRelationField strapi) l acc = acc.
Proof.
  induction l as [|[f info] l IH]; intros Hok [errs warns]; [reflexivity|].
  cbn [fold_left].
  assert (Hstep : checkRelationField strapi (errs, warns) (f, info) = (errs, warns)).
  { unfold checkRelationField.
    destruct (ri_relationField info) as [sf|] eqn:Esf; [|reflexivity].
    unfold Str.truthy.
    destruct (String.eqb_spec (target (ri_attribute info)) "") as [|Ht];
      [reflexivity|].
    destruct (String.eqb_spec sf "") as [|Hsf]; [reflexivity|].
    cbn [negb orb].
    destruct (Hok f info (or_introl eq_refl) sf Esf Ht Hsf)
      as [sch [ta [Hsch [Hta Hu]]]].
    now rewrite Hsch, Hta, Hu. }
  rewrite Hstep. apply IH. intros f' info' Hin. apply (Hok f'). now right.
Qed.

End Check.

(** X12. The uniqueness check passes, with no error and no warning, when
    every relation column [field.subfield] of the file names a subfield
    that the registered target schema declares as unique. *)
Theorem unique_relation_columns_pass :
  forall (strapi : registry) (csvHeaders : list string) (attrs : Obj attribute),
    (forall h a searchField,
        In h csvHeaders ->
        isRelationColumn (mapHeader attrs h) = true ->
        Ob.get (field (mapHeader attrs h)) attrs = Some a ->
        relationField (mapHeader attrs h) = Some searchField ->
        target a <> "" -> searchField <> "" ->
        exists targetSchema targetAttribute,
          Ob.get (target a) (contentTypes strapi) = Some targetSchema
          /\ Ob.get searchField (attributes targetSchema) = Some targetAttribute
          /\ unique targetAttribute = true) ->
    validateRelationFieldUniqueness strapi
      (parseHeaderMapping csvHeaders attrs) attrs = ([], []).
Proof.
  intros strapi hs attrs Hok. unfold validateRelationFieldUniqueness.
  apply check_passes. intros f info Hin sf Hsf Ht Hne.
  rewrite collectRelationFields_fold in Hin.
  destruct (collectStep_entries attrs _ f info [] Hin)
    as [[]|[h [m [a [Hhm [Hcol [Hf [Ha Hinfo]]]]]]]].
  destruct (parseHeaderMapping_entries attrs hs h m Hhm) as [Hm Hh].
  subst m info. cbn [ri_relationField ri_attribute] in *.
  rewrite <- Hf in Ha. exact (Hok h a sf Hh Hcol Ha Hsf Ht Hne).
Qed.

Lemma unique_relation_columns_pass_witness :
  validateRelationFieldUniqueness Fixtures.strapi
    (parseHeaderMapping ["name"; "country.code"; "established"]
                        (attributes Fixtures.company))
    (attributes Fixtures.company) = ([], []).
Proof.
  apply (unique_relation_columns_pass Fixtures.strapi
           ["name"; "country.code"; "established"]
           (attributes Fixtures.company)).
  intros h a sf [<-|[<-|[<-|[]]]] Hcol Ha Hsf Ht Hne;
    try discriminate Hcol.
  injection Ha as <-. injection Hsf as <-.
  exists Fixtures.country, (Fixtures.uniqueAttr "string").
  repeat split; reflexivity.
Defined.



(** ** Media fields and file names *)

Lemma prefix_append (a b : string) : String.prefix a (a ++ b) = true.
Proof.
  induction a as [|c a IH]; simpl; [now destruct b|].
  destruct (ascii_dec c c); [exact IH | congruence].
Qed.

(** The numbered pattern on samples: the match value, an underscore, one
    or more digits and a dot at the head of the name, the special
    characters of the match value taken literally. *)
Example numberedMatch_samples :
  numberedPattern "a.b(c)"
  = ("^a" ++ String backslash ".b" ++ String backslash "(c"
     ++ String backslash ")_" ++ String backslash "d+" ++ String backslash ".")%string
  /\ numberedMatch "test_ch" "test_ch_01.pdf" = true
  /\ numberedMatch "test_ch" "test_ch.pdf" = false
  /\ numberedMatch "test_ch" "test_ch_.pdf" = false
  /\ numberedMatch "test_ch" "test_ch_01pdf" = false
  /\ numberedMatch "test_ch" "my_test_ch_01.pdf" = false
  /\ numberedMatch "a.b" "a.b_1.x" = true
  /\ numberedMatch "a.b" "axb_1.x" = false
  /\ numberedMatch "ab" "AB_7.z" = true.
Proof. repeat split; reflexivity. Qed.

(** Text that [toLowerCase] returned holds no upper-case letter. *)
Lemma lowerChar_not_upper (c : ascii) : Str.isUpper (Str.lowerChar c) = false.
Proof.
  destruct c as [[] [] [] [] [] [] [] []]; reflexivity.
Qed.

Lemma sameLetter_lower (c d : ascii) :
  sameLetter (Str.lowerChar c) (Str.lowerChar d) = true ->
  Str.lowerChar c = Str.lowerChar d.
Proof.
  assert (back : forall x, Str.lowerChar (upperChar (Str.lowerChar x))
                           = Str.lowerChar x)
    by (intros [[] [] [] [] [] [] [] []]; reflexivity).
  unfold sameLetter. intros H. apply Ascii.eqb_eq in H.
  rewrite <- (back c), <- (back d). now rewrite H.
Qed.

Lemma special_not_d (c : ascii) :
  isRegExpSpecial c = true -> Ascii.eqb c "d" = false.
Proof.
  intros H. destruct (Ascii.eqb_spec c "d") as [->|]; [discriminate H | reflexivity].
Qed.

Lemma plain_not_backslash (c : ascii) :
  isRegExpSpecial c = false -> Ascii.eqb c backslash = false.
Proof.
  intros H. destruct (Ascii.eqb_spec c backslash) as [->|]; [discriminate H | reflexivity].
Qed.

(** The pattern that [escapeRegExp] returns is read as the characters of
    the text, one literal each. *)
Lemma parseAtoms_escapeRegExp (v tail : string) (atoms : list atom) :
  parseAtoms tail = Some atoms ->
  parseAtoms (escapeRegExp v ++ tail)
  = Some (map Literal (list_ascii_of_string v) ++ atoms).
Proof.
  intros Ht. induction v as [|c v IH]; [exact Ht|].
  cbn [escapeRegExp list_ascii_of_string map app].
  destruct (isRegExpSpecial c) eqn:Ec.
  - cbn [append parseAtoms]. rewrite Ascii.eqb_refl.
    rewrite (special_not_d c Ec), Ec, IH. reflexivity.
  - cbn [append parseAtoms]. rewrite (plain_not_backslash c Ec), Ec, IH.
    reflexivity.
Qed.

Lemma numberedPattern_atoms (v s : string) :
  regExpTest (numberedPattern v) s
  = Some (matchAtoms (map Literal (list_ascii_of_string v)
                        ++ [Literal "_"; Digits; Literal "."]) s).
Proof.
  unfold numberedPattern, regExpTest. cbn [append].
  now rewrite (parseAtoms_escapeRegExp v _ [Literal "_"; Digits; Literal "."]).
Qed.

(** A match of the literals of a lower-cased text at the head of a
    lower-cased text is a prefix. *)
Lemma matchAtoms_prefix (v s : string) (rest : list atom) :
  matchAtoms (map Literal (list_ascii_of_string (Str.toLowerCase v)) ++ rest)
             (Str.toLowerCase s) = true ->
  Str.startsWith (Str.toLowerCase v) (Str.toLowerCase s) = true.
Proof.
  unfold Str.startsWith. revert s. induction v as [|c v IH]; intros s H.
  - now destruct s.
  - destruct s as [|d s]; [discriminate H|].
    cbn [Str.toLowerCase list_ascii_of_string map app matchAtoms] in H.
    apply andb_prop in H. destruct H as [Hc Hrest].
    apply sameLetter_lower in Hc. cbn [Str.toLowerCase String.prefix].
    rewrite Hc. destruct (ascii_dec _ _); [now apply IH | congruence].
Qed.

(** X14. For ASCII names, the three patterns of the media match amount to
    the third: a file matches a record exactly when its lower-cased name
    starts with the lower-cased match value.  The exact pattern and the
    regular expression of the numbered pattern never add a file. *)
Theorem media_match_is_prefix_match :
  forall (numberToString : jsval -> string) (matchValue : jsval)
         (file : File.t) (fileName : string),
    fileNameOf file = Some fileName ->
    asciiText fileName = true ->
    asciiText (toStringJs numberToString matchValue) = true ->
    fileMatches numberToString matchValue file
    = Some (Str.startsWith
              (Str.toLowerCase (toStringJs numberToString matchValue))
              (Str.toLowerCase fileName)).
Proof.
  intros nts v file n Hn _ _. unfold fileMatches. rewrite Hn. f_equal.
  destruct (Str.startsWith (Str.toLowerCase (toStringJs nts v))
                           (Str.toLowerCase n)) eqn:Ep.
  - now rewrite orb_true_r.
  - rewrite orb_false_r. unfold numberedMatch. rewrite numberedPattern_atoms.
    destruct (matchAtoms _ _) eqn:Em.
    + apply matchAtoms_prefix in Em. rewrite Em in Ep. discriminate Ep.
    + rewrite orb_false_r. apply String.eqb_neq. intros Heq.
      unfold Str.startsWith in Ep. rewrite Heq, prefix_append in Ep.
      discriminate Ep.
Qed.

Lemma media_match_is_prefix_match_witness :
  fileMatches SampleRuntime.numberToString (VNum 1)
              (File.mk 7 (Some "10_Report.PDF") None)
  = Some (Str.startsWith
            (Str.toLowerCase (toStringJs SampleRuntime.numberToString (VNum 1)))
            (Str.toLowerCase "10_Report.PDF")).
Proof.
  exact (media_match_is_prefix_match SampleRuntime.numberToString (VNum 1)
           (File.mk 7 (Some "10_Report.PDF") None) "10_Report.PDF"
           eq_refl eq_refl eq_refl).
Defined.

Section MediaFacts.

Variable numberToString : jsval -> string.
Variable localeCompare : string -> string -> comparison.




End MediaFacts.

(** X15. [processMediaFields] assigns nothing but the fields that the
    mappings name: every other key of the item is as it was. *)
Theorem media_step_touches_only_mapped_fields :
  forall (numberToString : jsval -> string)
         (localeCompare : string -> string -> comparison)
         (mediaFieldMappings : list Media.t) (csvItem : row)
         (matchField k : string),
    ~ In k (map Media.field mediaFieldMappings) ->
    Ob.get k (processMediaFields numberToString localeCompare csvItem
                                 mediaFieldMappings matchField)
    = Ob.get k csvItem.
Proof.
  intros nts lc mappings. induction mappings as [|m rest IH];
    intros item mf k Hk; cbn [processMediaFields]; [reflexivity|].
  assert (Hrest : ~ In k (map Media.field rest)).
  { intros H. apply Hk. now right. }
  assert (Hm : Media.field m <> k).
  { intros H. apply Hk. now left. }
  destruct (Ob.get _ item) as [matchValue|]; [|now apply IH].
  destruct (Media.uploadedFiles m) as [[|f files]|]; try now apply IH.
  destruct (truthy matchValue); [|now apply IH].
  destruct (filterFiles nts matchValue (f :: files)) as [[|g matching]|];
    [now apply IH | | reflexivity].
  rewrite IH by exact Hrest. now apply get_set_other.
Qed.

Lemma media_step_touches_only_mapped_fields_witness :
  Ob.get "name"
    (processMediaFields SampleRuntime.numberToString SampleRuntime.localeCompare
       [("id", VNum 1); ("name", VStr "India")]
       [Media.mk "reports"
          (Some [File.mk 7 (Some "1_b.pdf") None; File.mk 8 (Some "1_a.pdf") None])
          None]
       "id")
  = Ob.get "name" [("id", VNum 1); ("name", VStr "India")].
Proof.
  apply (media_step_touches_only_mapped_fields SampleRuntime.numberToString
           SampleRuntime.localeCompare).
  simpl. intuition discriminate.
Defined.




Lemma lowerChar_dot (c : ascii) :
  Ascii.eqb (Str.lowerChar c) "." = Ascii.eqb c ".".
Proof. destruct c as [[] [] [] [] [] [] [] []]; reflexivity. Qed.

Lemma includesChar_lower_dot (s : string) :
  Str.includesChar "." (Str.toLowerCase s) = Str.includesChar "." s.
Proof.
  induction s as [|c s IH]; simpl; [reflexivity|].
  now rewrite lowerChar_dot, IH.
Qed.

Lemma split_segments_clean (sep : ascii) (s : string) :
  forall seg, In seg (Str.split sep s) -> Str.includesChar sep seg = false.
Proof.
  induction s as [|c s IH]; simpl; intros seg Hin.
  - destruct Hin as [<-|[]]. reflexivity.
  - destruct (Ascii.eqb c sep) eqn:Ec.
    + destruct Hin as [<-|Hin]; [reflexivity | now apply IH].
    + destruct (Str.split sep s) as [|h t] eqn:Es.
      * destruct Hin as [<-|[]]. simpl. now rewrite Ec.
      * destruct Hin as [<-|Hin].
        -- simpl. rewrite Ec. apply IH. now left.
        -- apply IH. now right.
Qed.

Lemma split_without_separator (sep : ascii) (s : string) :
  Str.includesChar sep s = false -> Str.split sep s = [s].
Proof.
  induction s as [|c s IH]; simpl; [reflexivity|].
  intros H. apply orb_false_iff in H. destruct H as [Hc Hs].
  rewrite Hc, (IH Hs). reflexivity.
Qed.

Lemma last_in {A : Type} (l : list A) (d : A) : l <> [] -> In (last l d) l.
Proof.
  induction l as [|x l IH]; [congruence|]. intros _.
  destruct l as [|y l]; [now left|]. right. apply IH. discriminate.
Qed.

(** X17. The extension that [getFileExtension] returns holds no dot, and for
    a name without a dot it is the whole name in lower case. *)
Theorem file_extension_has_no_dot :
  forall filename : string,
    Str.includesChar "." (getFileExtension filename) = false
    /\ (Str.includesChar "." filename = false ->
        getFileExtension filename = Str.toLowerCase filename).
Proof.
  intros filename. unfold getFileExtension. split.
  - rewrite includesChar_lower_dot. apply (split_segments_clean "." filename).
    apply last_in. apply split_not_empty.
  - intros H. now rewrite (split_without_separator "." filename H).
Qed.

(** ** Patterns, content types and keyword filter *)

Lemma special_backslash (c : ascii) :
  isRegExpSpecial c = false -> Ascii.eqb c backslash = false.
Proof.
  unfold isRegExpSpecial, regExpSpecials. simpl.
  intros H. repeat (apply orb_false_iff in H; destruct H as [? H]).
  rewrite Ascii.eqb_sym. assumption.
Qed.

(** X18. What [escapeRegExp] returns, read as a pattern, matches the given
    text literally: every special character of the text carries its
    backslash, and taking the backslashes off gives the text back. *)
Theorem escaped_text_reads_back :
  forall s : string, literalOf (escapeRegExp s) = Some s.
Proof.
  induction s as [|c s IH]; [reflexivity|].
  cbn [escapeRegExp]. destruct (isRegExpSpecial c) eqn:Ec.
  - cbn [literalOf]. unfold backslash at 1.
    rewrite Ascii.eqb_refl. now rewrite IH.
  - cbn [literalOf]. rewrite (special_backslash c Ec), Ec. now rewrite IH.
Qed.


Section ContentTypesFacts.

Lemma apiStep_none (l : list (string * ContentType.t)) :
  fold_left apiStep l None = None.
Proof. induction l as [|e l IH]; [reflexivity | exact IH]. Qed.

Lemma getContentTypes_sound (cts : Obj ContentType.t) :
  forall acc api,
    fold_left apiStep cts (Some acc) = Some api ->
    forall name a,
      Ob.get name api = Some a ->
      Ob.get name acc = Some a \/ listedFrom cts name a.
Proof.
  induction cts as [|[key ct] cts IH]; intros acc api H name a Hget.
  - injection H as <-. now left.
  - cbn [fold_left apiStep] in H.
    assert (Hlift : forall x, listedFrom cts name x ->
                              listedFrom ((key, ct) :: cts) name x).
    { intros x [Hp [ct' [i [Hin Hrest]]]]. split; [exact Hp|].
      exists ct', i. split; [now right | exact Hrest]. }
    destruct (Str.startsWith "api::" key) eqn:Ek.
    + destruct (ContentType.info_ ct) as [i|] eqn:Ei;
        [|rewrite apiStep_none in H; discriminate].
      destruct (IH _ api H name a Hget) as [Hacc|Hl]; [|right; now apply Hlift].
      destruct (String.eqb_spec (ContentType.singularName i) name) as [Hn|Hn].
      * rewrite Hn, get_set_same in Hacc. injection Hacc as <-.
        right. split; [exact Ek|]. exists ct, i. cbn.
        split; [now left|]. now repeat split.
      * rewrite get_set_other in Hacc by exact Hn. now left.
    + destruct (IH _ api H name a Hget) as [Hacc|Hl];
        [now left | right; now apply Hlift].
Qed.

Lemma getContentTypes_complete (cts : Obj ContentType.t) :
  forall acc api,
    fold_left apiStep cts (Some acc) = Some api ->
    (forall name, Ob.has name acc = true -> Ob.has name api = true)
    /\ forall key ct,
         In (key, ct) cts -> Str.startsWith "api::" key = true ->
         exists i, ContentType.info_ ct = Some i
                   /\ Ob.has (ContentType.singularName i) api = true.
Proof.
  induction cts as [|[key ct] cts IH]; intros acc api H.
  - injection H as <-. split; [auto | intros ? ? []].
  - cbn [fold_left apiStep] in H.
    destruct (Str.startsWith "api::" key) eqn:Ek.
    + destruct (ContentType.info_ ct) as [i|] eqn:Ei;
        [|rewrite apiStep_none in H; discriminate].
      destruct (IH _ api H) as [Hkeep Hall]. split.
      * intros name Hn. apply Hkeep. unfold Ob.has in *.
        destruct (String.eqb_spec (ContentType.singularName i) name) as [->|Hne];
          [now rewrite get_set_same | now rewrite get_set_other].
      * intros key' ct' [E|Hin] Hp.
        -- injection E as <- <-. exists i. split; [exact Ei|].
           apply Hkeep. unfold Ob.has. now rewrite get_set_same.
        -- now apply (Hall key' ct').
    + destruct (IH _ api H) as [Hkeep Hall]. split; [exact Hkeep|].
      intros key' ct' [E|Hin] Hp; [|now apply (Hall key' ct')].
      injection E as <- <-. congruence.
Qed.

End ContentTypesFacts.

(** X19. Every entry of the object that [getContentTypes] returns comes from
    a content type of the registry whose key starts with [api::]: it is
    listed under that type's singular name and carries its key, names and
    attributes.  A content type with any other key is never listed. *)
Theorem listed_content_types_are_api_types :
  forall (contentTypes : Obj ContentType.t) (api : Obj ApiContentType.t)
         (name : string) (a : ApiContentType.t),
    getContentTypes contentTypes = Some api ->
    Ob.get name api = Some a ->
    listedFrom contentTypes name a.
Proof.
  intros cts api name a H Hget.
  destruct (getContentTypes_sound cts [] api H name a Hget) as [Hacc|Hl];
    [discriminate Hacc | exact Hl].
Qed.

Lemma listed_content_types_are_api_types_witness :
  listedFrom Site.contentTypes "country"
    (ApiContentType.mk "api::country.country" "country" (Some "countries")
       "Country" (attributes Fixtures.country)).
Proof.
  apply (listed_content_types_are_api_types Site.contentTypes
           [("country",
             ApiContentType.mk "api::country.country" "country"
               (Some "countries") "Country" (attributes Fixtures.country));
            ("company",
             ApiContentType.mk "api::company.company" "company"
               (Some "companies") "Company" (attributes Fixtures.company))]
           "country");
    reflexivity.
Defined.

(** X20. When [getContentTypes] returns, every content type of the registry
    whose key starts with [api::] has an [info] and its singular name is a
    key of the result; the call throws only when such a type has no
    [info]. *)
Theorem api_types_are_listed :
  forall (contentTypes : Obj ContentType.t),
    match getContentTypes contentTypes with
    | Some api =>
        forall key contentType,
          In (key, contentType) contentTypes ->
          Str.startsWith "api::" key = true ->
          exists i, ContentType.info_ contentType = Some i
                    /\ Ob.has (ContentType.singularName i) api = true
    | None =>
        exists key contentType,
          In (key, contentType) contentTypes
          /\ Str.startsWith "api::" key = true
          /\ ContentType.info_ contentType = None
    end.
Proof.
  intros cts.
  destruct (getContentTypes cts) as [api|] eqn:E.
  - exact (proj2 (getContentTypes_complete cts [] api E)).
  - unfold getContentTypes in E. change (fold_left apiStep cts (Some []) = None) in E.
    revert E. generalize (@nil (string * ApiContentType.t)).
    induction cts as [|[key ct] cts IH]; intros acc E; [discriminate|].
    cbn [fold_left apiStep] in E.
    destruct (Str.startsWith "api::" key) eqn:Ek.
    + destruct (ContentType.info_ ct) as [i|] eqn:Ei.
      * destruct (IH _ E) as [k [c [Hin Hrest]]].
        exists k, c. split; [now right | exact Hrest].
      * exists key, ct. split; [now left | now split].
    + destruct (IH _ E) as [k [c [Hin Hrest]]].
      exists k, c. split; [now right | exact Hrest].
Qed.


Lemma keywordsOf_known (mediaFieldName : string) :
  keywordsOf mediaFieldName = []
  \/ In mediaFieldName
        ["reports"; "lab_docs"; "referee_result"; "payment_docs"; "challan_docs"]
     /\ forall keyword,
          In keyword (keywordsOf mediaFieldName) ->
          Str.toLowerCase keyword = keyword /\ Str.truthy keyword = true.
Proof.
  unfold keywordsOf.
  destruct (Ob.get mediaFieldName fieldKeywords) as [keywords|] eqn:E;
    [|now left].
  right. unfold fieldKeywords in E. cbn [Ob.get] in E.
  repeat match type of E with
         | (if ?x =? ?y then _ else _) = _ =>
             destruct (String.eqb_spec x y) as [<-|_]; cbv iota in E
         end;
    try discriminate E; injection E as <-;
    (split; [simpl; auto 10|]);
    intros keyword Hin; simpl in Hin;
    repeat (destruct Hin as [<-|Hin]; [now split|]); contradiction.
Qed.

Lemma keywords_plain (mediaFieldName keyword : string) :
  In keyword (keywordsOf mediaFieldName) ->
  Str.toLowerCase keyword = keyword /\ Str.truthy keyword = true.
Proof.
  destruct (keywordsOf_known mediaFieldName) as [E|[_ H]].
  - rewrite E. intros [].
  - apply H.
Qed.

(** X21. For a media field that is not named like an inherited member and
    for files with ASCII names, [filterFilesForMediaField] returns exactly
    the files of the input whose lower-cased name holds one of the keywords
    of the given media field.  Keywords exist for five field names only, so
    for a media field of any other name no file is returned, whatever the
    files are called. *)
Theorem keyword_filter_serves_known_fields :
  forall (files : list FileInfo.t) (mediaFieldName : string),
    inheritedName mediaFieldName = false ->
    forallb (fun file => asciiText (FileInfo.fileName file)) files = true ->
    (forall file,
       In file (filterFilesForMediaField files mediaFieldName)
       <-> In file files
           /\ exists keyword,
                In keyword (keywordsOf mediaFieldName)
                /\ includesText keyword (Str.toLowerCase (FileInfo.fileName file))
                   = true)
    /\ (~ In mediaFieldName
            ["reports"; "lab_docs"; "referee_result"; "payment_docs";
             "challan_docs"] ->
        filterFilesForMediaField files mediaFieldName = []).
Proof.
  intros files name _ _.
  assert (Hiff : forall file,
             In file (filterFilesForMediaField files name)
             <-> In file files
                 /\ exists keyword,
                      In keyword (keywordsOf name)
                      /\ includesText keyword
                           (Str.toLowerCase (FileInfo.fileName file)) = true).
  { intros file. unfold filterFilesForMediaField.
    fold (keywordsOf name). rewrite filter_In. cbv zeta.
    split; intros [Hin H]; (split; [exact Hin|]).
    - destruct (find _ (keywordsOf name)) as [kw|] eqn:Ef; [|discriminate H].
      apply find_some in Ef. destruct Ef as [Hk Hm].
      exists kw. split; [exact Hk|].
      now rewrite (proj1 (keywords_plain name kw Hk)) in Hm.
    - destruct H as [kw [Hk Hm]].
      destruct (find (fun keyword =>
                        includesText (Str.toLowerCase keyword)
                          (Str.toLowerCase (FileInfo.fileName file)))
                     (keywordsOf name)) as [kw'|] eqn:Ef.
      + apply find_some in Ef. exact (proj2 (keywords_plain name kw' (proj1 Ef))).
      + exfalso. pose proof (find_none _ _ Ef kw Hk) as Hn. cbv beta in Hn.
        rewrite (proj1 (keywords_plain name kw Hk)) in Hn. congruence. }
  split; [exact Hiff|].
  intros Hno.
  destruct (filterFilesForMediaField files name) as [|file rest] eqn:E;
    [reflexivity|].
  exfalso. destruct (proj1 (Hiff file) (or_introl eq_refl)) as [_ [kw [Hk _]]].
  destruct (keywordsOf_known name) as [Hnil|[Hin _]].
  - rewrite Hnil in Hk. contradiction.
  - exact (Hno Hin).
Qed.

Lemma keyword_filter_serves_known_fields_witness :
  (forall file,
     In file (filterFilesForMediaField
                [Archive.reportFile;
                 FileInfo.mk "Lab_Report_2024.PDF" "data/Lab_Report_2024.PDF"
                   (ZipEntry.mk "data/Lab_Report_2024.PDF" false) (Some "data")]
                "reports")
     <-> In file [Archive.reportFile;
                  FileInfo.mk "Lab_Report_2024.PDF" "data/Lab_Report_2024.PDF"
                    (ZipEntry.mk "data/Lab_Report_2024.PDF" false) (Some "data")]
         /\ exists keyword,
              In keyword (keywordsOf "reports")
              /\ includesText keyword (Str.toLowerCase (FileInfo.fileName file))
                 = true)
  /\ (~ In "reports"
          ["reports"; "lab_docs"; "referee_result"; "payment_docs";
           "challan_docs"] ->
      filterFilesForMediaField
        [Archive.reportFile;
         FileInfo.mk "Lab_Report_2024.PDF" "data/Lab_Report_2024.PDF"
           (ZipEntry.mk "data/Lab_Report_2024.PDF" false) (Some "data")]
        "reports" = []).
Proof.
  exact (keyword_filter_serves_known_fields
           [Archive.reportFile;
            FileInfo.mk "Lab_Report_2024.PDF" "data/Lab_Report_2024.PDF"
              (ZipEntry.mk "data/Lab_Report_2024.PDF" false) (Some "data")]
           "reports" eq_refl eq_refl).
Defined.

(** ** The files of an archive by media field *)

Section Organize.

Variable mediaFields : list string.
Variable zipEntries : list ZipEntry.t.

(** What the loop keeps true of [folderFiles] and [allFiles]. *)
Lemma organizeEntry_invariant (seen : list ZipEntry.t) :
  (forall entry, In entry seen -> In entry zipEntries) ->
  forall folderFiles allFiles,
    fold_left (organizeEntry mediaFields) seen ([], []) = (folderFiles, allFiles) ->
    (forall fieldName files file,
        Ob.get fieldName folderFiles = Some files -> In file files ->
        In (FileInfo.entry file) zipEntries
        /\ inFolder (FileInfo.entry file) = true
        /\ describes file
        /\ folderField mediaFields (FileInfo.entry file) = Some fieldName)
    /\ (forall file,
          In file allFiles ->
          In (FileInfo.entry file) zipEntries
          /\ inFolder (FileInfo.entry file) = true
          /\ describes file
          /\ folderField mediaFields (FileInfo.entry file) = None)
    /\ (forall entry fieldName,
          In entry seen -> inFolder entry = true ->
          folderField mediaFields entry = Some fieldName ->
          exists files,
            Ob.get fieldName folderFiles = Some files
            /\ In (FileInfo.mk
                     (last (Str.split "/" (ZipEntry.entryName entry)) "")
                     (ZipEntry.entryName entry) entry None)
                  files).
Proof.
  induction seen as [|entry seen IH] using rev_ind; intros Hseen ff all H.
  - injection H as <- <-. repeat split; try discriminate; contradiction.
  - rewrite fold_left_app in H. cbn [fold_left] in H.
    destruct (fold_left (organizeEntry mediaFields) seen ([], []))
      as [ff0 all0] eqn:E0.
    destruct (IH (fun e He => Hseen e (in_or_app _ _ _ (or_introl He)))
                 ff0 all0 eq_refl) as [I1 [I2 I3]].
    assert (Hentry : In entry zipEntries).
    { apply Hseen. apply in_or_app. right. now left. }
    assert (Hold : forall e fieldName,
               In e (seen ++ [entry]) -> e <> entry \/ inFolder entry = false
               \/ folderField mediaFields entry = None ->
               inFolder e = true -> folderField mediaFields e = Some fieldName ->
               In e seen).
    { intros e f Hin Hcase He Hf. apply in_app_or in Hin.
      destruct Hin as [Hin|[<-|[]]]; [exact Hin|].
      destruct Hcase as [Hc|[Hc|Hc]]; congruence. }
    unfold organizeEntry in H.
    assert (Hskip : inFolder entry = false -> (ff, all) = (ff0, all0) ->
                    (forall fieldName files file,
                        Ob.get fieldName ff = Some files -> In file files ->
                        In (FileInfo.entry file) zipEntries
                        /\ inFolder (FileInfo.entry file) = true
                        /\ describes file
                        /\ folderField mediaFields (FileInfo.entry file)
                           = Some fieldName)
                    /\ (forall file,
                          In file all ->
                          In (FileInfo.entry file) zipEntries
                          /\ inFolder (FileInfo.entry file) = true
                          /\ describes file
                          /\ folderField mediaFields (FileInfo.entry file) = None)
                    /\ (forall e fieldName,
                          In e (seen ++ [entry]) -> inFolder e = true ->
                          folderField mediaFields e = Some fieldName ->
                          exists files,
                            Ob.get fieldName ff = Some files
                            /\ In (FileInfo.mk
                                     (last (Str.split "/" (ZipEntry.entryName e)) "")
                                     (ZipEntry.entryName e) e None)
                                  files)).
    { intros Hno [= -> ->]. split; [exact I1|]. split; [exact I2|].
      intros e f Hin He Hf. apply (I3 e f); try assumption.
      apply (Hold e f Hin); auto. }
    unfold inFolder in Hskip.
    destruct (ZipEntry.isDirectory entry) eqn:Edir;
      [apply Hskip; [reflexivity | now symmetry]|].
    destruct (isSystemPath (ZipEntry.entryName entry)) eqn:Esys;
      [apply Hskip; [reflexivity | now symmetry]|].
    destruct (2 <=? length (Str.split "/" (ZipEntry.entryName entry)))%nat eqn:Elen;
      [|apply Hskip; [reflexivity | now symmetry]].
    clear Hskip.
    assert (Hin : inFolder entry = true).
    { unfold inFolder. now rewrite Edir, Esys, Elen. }
    assert (Hgeneral :
              folderField mediaFields entry = None ->
              (ff, all)
              = (ff0, all0 ++ [FileInfo.mk
                                 (last (Str.split "/" (ZipEntry.entryName entry)) "")
                                 (ZipEntry.entryName entry) entry
                                 (Some (hd "" (Str.split "/" (ZipEntry.entryName entry))))]) ->
              (forall fieldName files file,
                  Ob.get fieldName ff = Some files -> In file files ->
                  In (FileInfo.entry file) zipEntries
                  /\ inFolder (FileInfo.entry file) = true
                  /\ describes file
                  /\ folderField mediaFields (FileInfo.entry file) = Some fieldName)
              /\ (forall file,
                    In file all ->
                    In (FileInfo.entry file) zipEntries
                    /\ inFolder (FileInfo.entry file) = true
                    /\ describes file
                    /\ folderField mediaFields (FileInfo.entry file) = None)
              /\ (forall e fieldName,
                    In e (seen ++ [entry]) -> inFolder e = true ->
                    folderField mediaFields e = Some fieldName ->
                    exists files,
                      Ob.get fieldName ff = Some files
                      /\ In (FileInfo.mk
                               (last (Str.split "/" (ZipEntry.entryName e)) "")
                               (ZipEntry.entryName e) e None)
                            files)).
    { intros Hnone [= -> ->]. split; [exact I1|]. split.
      - intros file Hf. apply in_app_or in Hf.
        destruct Hf as [Hf|[<-|[]]]; [now apply I2|].
        cbn. repeat split; assumption.
      - intros e f He Hfolder Hfield. apply (I3 e f); try assumption.
        apply (Hold e f He); auto. }
    unfold folderField in Hgeneral.
    destruct (matchedMediaField mediaFields
                (Str.split "/" (ZipEntry.entryName entry))) as [field|] eqn:Em;
      [|apply Hgeneral; [reflexivity | now symmetry]].
    destruct (Str.truthy field) eqn:Et;
      [|apply Hgeneral; [reflexivity | now symmetry]].
    clear Hgeneral. injection H as <- <-.
    assert (Hfield : folderField mediaFields entry = Some field).
    { unfold folderField. now rewrite Em, Et. }
    set (file0 := FileInfo.mk
                    (last (Str.split "/" (ZipEntry.entryName entry)) "")
                    (ZipEntry.entryName entry) entry None).
    assert (Hpush : forall f files,
               Ob.get f (pushFile field file0 ff0) = Some files ->
               (f <> field /\ Ob.get f ff0 = Some files)
               \/ (f = field
                   /\ exists before,
                        files = before ++ [file0]
                        /\ (before = [] \/ Ob.get field ff0 = Some before))).
    { intros f files Hget. unfold pushFile in Hget.
      destruct (String.eqb_spec field f) as [<-|Hne].
      - right. split; [reflexivity|].
        destruct (Ob.get field ff0) as [before|] eqn:Eb;
          rewrite get_set_same in Hget; injection Hget as <-.
        + exists before. split; [reflexivity | now right].
        + exists []. split; [reflexivity | now left].
      - left. split; [congruence|].
        destruct (Ob.get field ff0); now rewrite get_set_other in Hget. }
    split; [|split; [exact I2|]].
    + intros f files file Hget Hf.
      destruct (Hpush f files Hget) as [[Hne Hg]|[-> [before [-> Hb]]]].
      * now apply (I1 f files).
      * apply in_app_or in Hf. destruct Hf as [Hf|[<-|[]]].
        -- destruct Hb as [->|Hb]; [contradiction|]. now apply (I1 field before).
        -- cbn. repeat split; assumption.
    + intros e f He Hfolder Hf. apply in_app_or in He.
      destruct He as [He|[<-|[]]].
      * destruct (I3 e f He Hfolder Hf) as [files [Hg Hfile]].
        unfold pushFile.
        destruct (String.eqb_spec field f) as [<-|Hne].
        -- rewrite Hg, get_set_same. eexists. split; [reflexivity|].
           apply in_or_app. now left.
        -- exists files. split; [|exact Hfile].
           destruct (Ob.get field ff0); now rewrite get_set_other.
      * assert (f = field) as -> by congruence.
        unfold pushFile.
        destruct (Ob.get field ff0) as [before|]; rewrite get_set_same;
          eexists; (split; [reflexivity|]).
        -- apply in_or_app. right. now left.
        -- now left.
Qed.

End Organize.

Lemma distribute_files (allFiles : list FileInfo.t) (mediaFields : list string) :
  forall distributed fieldName files file,
    Ob.get fieldName
      (fold_left
         (fun (d : Obj (list FileInfo.t)) mediaFieldName =>
            Ob.set mediaFieldName
                   (filterFilesForMediaField allFiles mediaFieldName) d)
         mediaFields distributed) = Some files ->
    In file files ->
    In file allFiles
    \/ Ob.get fieldName distributed = Some files.
Proof.
  induction mediaFields as [|name rest IH]; intros d f files file Hget Hin;
    cbn [fold_left] in Hget.
  - now right.
  - destruct (IH _ f files file Hget Hin) as [H|H]; [now left|].
    destruct (String.eqb_spec name f) as [->|Hne].
    + rewrite get_set_same in H. injection H as <-.
      left. unfold filterFilesForMediaField in Hin.
      apply filter_In in Hin. exact (proj1 Hin).
    + rewrite get_set_other in H by exact Hne. now right.
Qed.

(** X22. Whatever the archive holds, the files that [extractAndProcessMediaZip]
    sorts under a media field are files of the archive that sit inside a
    folder: a directory, a file at the root of the archive and a system
    file of macOS (a path with [__MACOSX], or with a segment that starts
    with [._]) come under no media field.  Each file is recorded with its
    path and the last segment of the path. *)
Theorem archive_files_come_from_folders :
  forall (targetAttributes : Obj attribute) (zipEntries : list ZipEntry.t)
         (fieldName : string) (files : list FileInfo.t) (file : FileInfo.t),
    Ob.get fieldName (organizeFiles targetAttributes zipEntries) = Some files ->
    In file files ->
    In (FileInfo.entry file) zipEntries
    /\ inFolder (FileInfo.entry file) = true
    /\ describes file.
Proof.
  intros attrs entries f files file Hget Hin. unfold organizeFiles in Hget.
  destruct (fold_left (organizeEntry (mediaFieldNames attrs)) entries ([], []))
    as [ff all] eqn:E.
  destruct (organizeEntry_invariant (mediaFieldNames attrs) entries entries
              (fun e He => He) ff all E) as [I1 [I2 _]].
  destruct ((length (Ob.keys ff) =? 0)%nat && (0 <? length all)%nat).
  - destruct (distribute_files all (mediaFieldNames attrs) ff f files file
                Hget Hin) as [H|H].
    + destruct (I2 file H) as [H1 [H2 [H3 _]]]. now split.
    + destruct (I1 f files file H Hin) as [H1 [H2 [H3 _]]]. now split.
  - destruct (I1 f files file Hget Hin) as [H1 [H2 [H3 _]]]. now split.
Qed.

Lemma archive_files_come_from_folders_witness :
  In (FileInfo.entry Archive.reportFile) Archive.zipEntries
  /\ inFolder (FileInfo.entry Archive.reportFile) = true
  /\ describes Archive.reportFile.
Proof.
  apply (archive_files_come_from_folders Archive.attributes Archive.zipEntries
           "reports" [Archive.reportFile] Archive.reportFile);
    [reflexivity | now left].
Defined.

(** X23. In an archive without a folder named like an inherited member, the
    folders of the media fields take precedence: as soon as one file of the
    archive sits under a folder named after a media field, that file comes
    under that field (the first folder of its path that names a media field
    decides), and a media field holds only files under its own folder; the
    files of all other folders are left out. *)
Theorem media_folders_take_precedence :
  forall (targetAttributes : Obj attribute) (zipEntries : list ZipEntry.t)
         (entry : ZipEntry.t) (field : string),
    ownNames (flat_map foldersOf zipEntries) = true ->
    In entry zipEntries ->
    inFolder entry = true ->
    folderField (mediaFieldNames targetAttributes) entry = Some field ->
    (exists files,
        Ob.get field (organizeFiles targetAttributes zipEntries) = Some files
        /\ In (FileInfo.mk (last (Str.split "/" (ZipEntry.entryName entry)) "")
                           (ZipEntry.entryName entry) entry None)
              files)
    /\ forall fieldName files file,
         Ob.get fieldName (organizeFiles targetAttributes zipEntries)
         = Some files ->
         In file files ->
         folderField (mediaFieldNames targetAttributes) (FileInfo.entry file)
         = Some fieldName.
Proof.
  intros attrs entries entry field _ Hentry Hfolder Hfield.
  unfold organizeFiles.
  destruct (fold_left (organizeEntry (mediaFieldNames attrs)) entries ([], []))
    as [ff all] eqn:E.
  destruct (organizeEntry_invariant (mediaFieldNames attrs) entries entries
              (fun e He => He) ff all E) as [I1 [_ I3]].
  destruct (I3 entry field Hentry Hfolder Hfield) as [files0 [Hg0 Hin0]].
  assert (Hkeys : (length (Ob.keys ff) =? 0)%nat = false).
  { apply Nat.eqb_neq. destruct ff as [|kv ff]; [discriminate Hg0|].
    simpl. lia. }
  rewrite Hkeys. cbn [andb]. split.
  - now exists files0.
  - intros f files file Hget Hin.
    now destruct (I1 f files file Hget Hin) as [_ [_ [_ H]]].
Qed.

Lemma media_folders_take_precedence_witness :
  (exists files,
      Ob.get "reports" (organizeFiles Archive.attributes Archive.zipEntries)
      = Some files
      /\ In (FileInfo.mk
               (last (Str.split "/" (ZipEntry.entryName Archive.report)) "")
               (ZipEntry.entryName Archive.report) Archive.report None)
            files)
  /\ forall fieldName files file,
       Ob.get fieldName (organizeFiles Archive.attributes Archive.zipEntries)
       = Some files ->
       In file files ->
       folderField (mediaFieldNames Archive.attributes) (FileInfo.entry file)
       = Some fieldName.
Proof.
  apply (media_folders_take_precedence Archive.attributes Archive.zipEntries
           Archive.report "reports");
    [reflexivity | right; now left | reflexivity | reflexivity].
Defined.

(** ** The export *)

Lemma csvFields_start_end (tail : string) :
  cellEnd tail -> csvFields AtStart tail = csvFields Plain tail.
Proof. intros [->|[more ->]]; reflexivity. Qed.

Lemma csvFields_not_nil (m : csvMode) (s : string) : csvFields m s <> [].
Proof.
  revert m. induction s as [|c s IH]; intros m; [discriminate|].
  assert (Hp : forall a l, pushHead a l <> []).
  { intros a [|f l]; discriminate. }
  destruct m; cbn [csvFields].
  - destruct (Ascii.eqb c dqChar); [apply IH|].
    destruct (Ascii.eqb c ","); [discriminate | apply Hp].
  - destruct (Ascii.eqb c ","); [discriminate | apply Hp].
  - destruct (Ascii.eqb c dqChar); [|apply Hp].
    destruct s as [|d s']; [discriminate|].
    destruct (Ascii.eqb d dqChar); [apply Hp | apply IH].
Qed.

Lemma pushHead_text (c : ascii) (s : string) (fields : list string) :
  fields <> [] ->
  pushHead c (pushHeadText s fields) = pushHeadText (String c s) fields.
Proof. destruct fields; [congruence | reflexivity]. Qed.

Lemma plain_run (s tail : string) :
  Str.includesChar "," s = false -> Str.includesChar dqChar s = false ->
  cellEnd tail ->
  csvFields Plain (s ++ tail) = pushHeadText s (csvFields Plain tail)
  /\ csvFields AtStart (s ++ tail) = pushHeadText s (csvFields Plain tail).
Proof.
  intros Hc Hq Hend.
  assert (Hplain : csvFields Plain (s ++ tail)
                   = pushHeadText s (csvFields Plain tail)).
  { induction s as [|c s IH].
    - simpl. destruct (csvFields Plain tail) eqn:E; [|reflexivity].
      now apply csvFields_not_nil in E.
    - simpl in Hc, Hq. apply orb_false_iff in Hc, Hq.
      destruct Hc as [Hc Hc'], Hq as [Hq Hq'].
      change ((String c s ++ tail)%string) with (String c (s ++ tail)).
      cbn [csvFields]. rewrite Hc, (IH Hc' Hq').
      apply pushHead_text. apply csvFields_not_nil. }
  split; [exact Hplain|].
  destruct s as [|c s].
  - simpl in *. rewrite (csvFields_start_end tail Hend). exact Hplain.
  - simpl in Hc, Hq. apply orb_false_iff in Hc, Hq.
    destruct Hc as [Hc Hc'], Hq as [Hq Hq'].
    change ((String c s ++ tail)%string) with (String c (s ++ tail)) in *.
    cbn [csvFields] in *. now rewrite Hq, Hc in *.
Qed.

Lemma quoted_run (s tail : string) :
  cellEnd tail ->
  csvFields Quoted (doubleQuotes s ++ String dqChar tail)
  = pushHeadText s (csvFields Plain tail).
Proof.
  intros Hend. induction s as [|c s IH].
  - cbn [doubleQuotes append csvFields]. rewrite Ascii.eqb_refl.
    destruct Hend as [->|[more ->]].
    + reflexivity.
    + cbn [csvFields]. reflexivity.
  - cbn [doubleQuotes]. destruct (Ascii.eqb c dqChar) eqn:Ec.
    + apply Ascii.eqb_eq in Ec. subst c.
      change ((String dqChar (String dqChar (doubleQuotes s))
               ++ String dqChar tail)%string)
        with (String dqChar (String dqChar
                (doubleQuotes s ++ String dqChar tail))).
      cbn [csvFields]. rewrite !Ascii.eqb_refl, IH.
      apply pushHead_text. apply csvFields_not_nil.
    + change ((String c (doubleQuotes s) ++ String dqChar tail)%string)
        with (String c (doubleQuotes s ++ String dqChar tail)).
      cbn [csvFields]. rewrite Ec, IH.
      apply pushHead_text. apply csvFields_not_nil.
Qed.

Lemma append_assoc (a b c : string) : ((a ++ b) ++ c = a ++ (b ++ c))%string.
Proof. induction a as [|x a IH]; simpl; [reflexivity | now rewrite IH]. Qed.

Lemma textCell_run (s tail : string) :
  cellEnd tail ->
  csvFields AtStart (textCell s ++ tail) = pushHeadText s (csvFields Plain tail).
Proof.
  intros Hend. unfold textCell.
  destruct (Str.includesChar "," s || Str.includesChar dqChar s) eqn:E.
  - unfold quoted, dq. fold dqChar.
    change ((String dqChar "" ++ doubleQuotes s ++ String dqChar "")%string)
      with (String dqChar (doubleQuotes s ++ String dqChar "")).
    change ((String dqChar (doubleQuotes s ++ String dqChar "") ++ tail)%string)
      with (String dqChar ((doubleQuotes s ++ String dqChar "") ++ tail)).
    rewrite append_assoc.
    change ((String dqChar "" ++ tail)%string) with (String dqChar tail).
    cbn [csvFields]. rewrite Ascii.eqb_refl. now apply quoted_run.
  - apply orb_false_iff in E. destruct E as [Hc Hq].
    exact (proj2 (plain_run s tail Hc Hq Hend)).
Qed.

Lemma append_empty (s : string) : (s ++ "")%string = s.
Proof. induction s as [|c s IH]; simpl; [reflexivity | now rewrite IH]. Qed.

Lemma csvFields_comma (rest : string) :
  csvFields Plain (String "," rest) = EmptyString :: csvFields AtStart rest.
Proof. reflexivity. Qed.

Lemma textCells_read_back (texts : list string) :
  texts <> [] ->
  readCsvLine (Str.join "," (map textCell texts)) = texts.
Proof.
  unfold readCsvLine, Str.join. induction texts as [|s texts IH]; [congruence|].
  intros _. destruct texts as [|s' texts].
  - change (String.concat "," (map textCell [s])) with (textCell s).
    pose proof (textCell_run s "" (or_introl eq_refl)) as H.
    rewrite append_empty in H. rewrite H. simpl. now rewrite append_empty.
  - change (String.concat "," (map textCell (s :: s' :: texts)))
      with ((textCell s
             ++ String "," (String.concat "," (map textCell (s' :: texts))))%string).
    rewrite textCell_run by (right; now eexists).
    rewrite csvFields_comma, IH by discriminate.
    simpl. now rewrite append_empty.
Qed.

(** X24. A line that the export writes for a row of text cells without line
    breaks reads back, under the usual quoting of comma-separated files, as
    the texts of the row, column by column: commas and double quotes inside
    a cell are protected by the quoting.  (A line break inside a cell is
    written as it is, without quotes, and cuts the line in two.)  The
    columns are not named like inherited members. *)
Theorem exported_line_reads_back :
  forall (numberToString : jsval -> string) (headers : list string)
         (r : exportRow),
    headers <> [] ->
    ownNames headers = true ->
    (forall header, In header headers -> cellString (cellOf r header) <> None) ->
    (forall header text,
       In header headers -> cellString (cellOf r header) = Some text ->
       singleLine text = true) ->
    map Some (readCsvLine (csvLine numberToString headers r))
    = map (fun header => cellString (cellOf r header)) headers.
Proof.
  intros nts headers r Hne _ Htext _. unfold csvLine.
  assert (Hcells : exists texts,
             map (fun header => cellText nts (cellOf r header)) headers
             = map textCell texts
             /\ map (fun header => cellString (cellOf r header)) headers
                = map Some texts
             /\ length texts = length headers).
  { clear Hne. induction headers as [|h headers IH].
    - exists []. now repeat split.
    - destruct IH as [texts [E1 [E2 E3]]].
      { intros h' Hin. apply Htext. now right. }
      specialize (Htext h (or_introl eq_refl)).
      destruct (cellOf r h) as [[| | | |s| | |]|] eqn:Ec; simpl in Htext;
        try congruence.
      + exists ("" :: texts). cbn [map length]. rewrite Ec, E1, E2, E3.
        now repeat split.
      + exists (s :: texts). cbn [map length]. rewrite Ec, E1, E2, E3.
        now repeat split.
      + exists ("" :: texts). cbn [map length]. rewrite Ec, E1, E2, E3.
        now repeat split. }
  destruct Hcells as [texts [E1 [E2 E3]]].
  rewrite E1, E2. f_equal. apply textCells_read_back.
  destruct texts; [|discriminate].
  destruct headers; [congruence | discriminate E3].
Qed.

Lemma exported_line_reads_back_witness :
  map Some
    (readCsvLine
       (csvLine SampleRuntime.numberToString ["name"; "motto"; "code"]
                [("name", Some (VStr "Test, Company")); ("motto", None);
                 ("code", Some (VStr "IN"))]))
  = map (fun header =>
           cellString
             (cellOf [("name", Some (VStr "Test, Company")); ("motto", None);
                      ("code", Some (VStr "IN"))] header))
        ["name"; "motto"; "code"].
Proof.
  apply (exported_line_reads_back SampleRuntime.numberToString
           ["name"; "motto"; "code"]
           [("name", Some (VStr "Test, Company")); ("motto", None);
            ("code", Some (VStr "IN"))]).
  - discriminate.
  - reflexivity.
  - intros header [<-|[<-|[<-|[]]]]; discriminate.
  - intros header text [<-|[<-|[<-|[]]]] [= <-]; reflexivity.
Defined.


Lemma includesChar_append (c : ascii) (a b : string) :
  Str.includesChar c (a ++ b) = Str.includesChar c a || Str.includesChar c b.
Proof.
  induction a as [|x a IH]; simpl; [reflexivity|].
  now rewrite IH, orb_assoc.
Qed.

Lemma split_dotless_head (f rest : string) :
  Str.includesChar "." f = false ->
  Str.split "." (f ++ String "." rest) = f :: Str.split "." rest.
Proof.
  induction f as [|c f IH]; intros H.
  - reflexivity.
  - simpl in H. apply orb_false_iff in H. destruct H as [Hc Hf].
    change ((String c f ++ String "." rest)%string)
      with (String c (f ++ String "." rest)).
    cbn [Str.split]. rewrite Hc, (IH Hf). reflexivity.
Qed.

(** Two dotless names followed by a dot: one is a prefix of the other only
    when they are equal. *)
Lemma dotted_prefix (g f rest : string) :
  Str.includesChar "." g = false -> Str.includesChar "." f = false ->
  String.prefix (g ++ ".") (f ++ String "." rest) = true -> g = f.
Proof.
  revert f. induction g as [|c g IH]; intros [|d f] Hg Hf H.
  - reflexivity.
  - exfalso. cbn [Str.includesChar] in Hf.
    apply orb_false_iff in Hf. destruct Hf as [Hd _].
    change (String.prefix (String "." "") (String d (f ++ String "." rest)) = true) in H.
    cbn [String.prefix] in H.
    destruct (ascii_dec "." d) as [<-|]; [discriminate Hd | discriminate H].
  - exfalso. cbn [Str.includesChar] in Hg.
    apply orb_false_iff in Hg. destruct Hg as [Hc _].
    change (String.prefix (String c (g ++ ".")) (String "." rest) = true) in H.
    cbn [String.prefix] in H.
    destruct (ascii_dec c ".") as [->|]; [discriminate Hc | discriminate H].
  - cbn [Str.includesChar] in Hg, Hf. apply orb_false_iff in Hg, Hf.
    destruct Hg as [_ Hg], Hf as [_ Hf].
    change (String.prefix (String c (g ++ ".")) (String d (f ++ String "." rest))
            = true) in H.
    cbn [String.prefix] in H.
    destruct (ascii_dec c d) as [->|]; [|discriminate H].
    f_equal. now apply IH.
Qed.

Lemma prefix_has_char (p s : string) (c : ascii) :
  String.prefix p s = true -> Str.includesChar c p = true ->
  Str.includesChar c s = true.
Proof.
  revert s. induction p as [|x p IH]; intros s Hp Hc; [discriminate|].
  destruct s as [|y s]; [discriminate|]. simpl in *.
  destruct (ascii_dec x y) as [->|]; [|discriminate].
  apply orb_true_iff in Hc. destruct Hc as [Hc|Hc].
  - now rewrite Hc.
  - rewrite (IH s Hp Hc). apply orb_true_r.
Qed.

Section ExportFrame.

Variable numberToString : jsval -> string.
Variable strapi : registry.

Lemma ownedBy_set (g k suffix : string) :
  ownedBy g k = false -> (g ++ "." ++ suffix)%string <> k.
Proof.
  unfold ownedBy, Str.startsWith. intros H E.
  apply orb_false_iff in H. destruct H as [_ H].
  rewrite <- E in H.
  change ((g ++ "." ++ suffix)%string) with ((g ++ String "." suffix)%string) in H.
  assert (Hp : String.prefix (g ++ ".") (g ++ String "." suffix) = true).
  { clear. induction g as [|c g IH]; simpl.
    - destruct suffix; reflexivity.
    - destruct (ascii_dec c c); [exact IH | congruence]. }
  congruence.
Qed.

Lemma flattenComponent_frame (columnPrefix k : string) (component : jsval)
    (te : exportRow) :
  (forall key, (columnPrefix ++ "." ++ key)%string <> k) ->
  Ob.get k (flattenComponent columnPrefix component te) = Ob.get k te.
Proof.
  intros Hk. unfold flattenComponent.
  revert te. induction (properties component) as [|[key value] l IH];
    intros te; [reflexivity|].
  cbn [fold_left]. rewrite IH.
  destruct (negb (key =? "id") && negb (key =? "__component")
            && negb (isObjectType value)); [|reflexivity].
  apply get_set_other. apply Hk.
Qed.

Lemma transformField_frame (entry : row) (te : exportRow) (g : string)
    (field : attribute) (k : string) :
  ownedBy g k = false ->
  Ob.get k (transformField numberToString strapi entry te (g, field)) = Ob.get k te.
Proof.
  intros Hk.
  assert (Hg : g <> k).
  { unfold ownedBy in Hk. apply orb_false_iff in Hk.
    now apply String.eqb_neq. }
  unfold transformField.
  destruct (Ob.get g entry) as [v|]; [|reflexivity].
  destruct (negb (truthy v)); [reflexivity|].
  destruct (type field =? "component").
  - assert (Hflat : forall c t, Ob.get k (flattenComponent g c t) = Ob.get k t).
    { intros c t. apply flattenComponent_frame. intros key.
      exact (ownedBy_set g k key Hk). }
    destruct v; cbn [isPlainObject]; try reflexivity.
    + rewrite get_del_other by exact Hg. apply Hflat.
    + rewrite get_del_other by exact Hg.
      generalize (indexed 0 l). intros il. revert te.
      induction il as [|[index c] il IH]; intros te; [reflexivity|].
      cbn [fold_left]. rewrite IH.
      destruct (truthy c && isObjectType c); [|reflexivity].
      apply flattenComponent_frame. intros key.
      rewrite append_assoc. apply (ownedBy_set g k). exact Hk.
    + rewrite get_del_other by exact Hg. apply Hflat.
  - destruct (type field =? "relation"); [|reflexivity].
    rewrite get_del_other by exact Hg.
    assert (Hset : forall sch x,
               Ob.get k (Ob.set (relationColumnName g sch) x te) = Ob.get k te).
    { intros sch x. apply get_set_other. unfold relationColumnName.
      exact (ownedBy_set g k _ Hk). }
    destruct v; cbn [isPlainObject]; try reflexivity;
      destruct (Ob.get (target field) (contentTypes strapi)); try reflexivity;
      apply Hset.
Qed.

Lemma transformFields_frame (entry : row) (fields : list (string * attribute))
    (k : string) :
  (forall g, In g (Ob.keys fields) -> ownedBy g k = false) ->
  forall te,
    Ob.get k (fold_left (transformField numberToString strapi entry) fields te) = Ob.get k te.
Proof.
  induction fields as [|[g field] fields IH]; intros Hk te; [reflexivity|].
  cbn [fold_left]. rewrite IH by (intros g' Hin; apply Hk; now right).
  apply transformField_frame. apply Hk. now left.
Qed.

End ExportFrame.

Lemma dotless_in (attrs : Obj attribute) (g : string) :
  dotlessNames attrs = true -> In g (Ob.keys attrs) ->
  Str.includesChar "." g = false.
Proof.
  intros H Hin. unfold dotlessNames in H. rewrite forallb_forall in H.
  apply negb_true_iff. now apply H.
Qed.

(** X25. The column that the export writes for a populated to-one relation
    is the one that the import reads as that relation: the exported entry
    holds, under the name of the field, a dot and the first attribute of
    the target type, the first-column value of the related entry, and no
    longer holds the field itself; and [parseHeaderMapping] maps that
    column name to the relation field, searched by that first attribute. *)
Theorem exported_relation_column_reimports :
  forall (numberToString : jsval -> string) (strapi : registry)
         (attrs : Obj attribute) (entry : row) (fieldName : string)
         (a : attribute) (related : jsval) (targetSchema : schema),
    NoDup (Ob.keys attrs) ->
    dotlessNames attrs = true ->
    Ob.get fieldName attrs = Some a ->
    type a = "relation" ->
    Ob.get fieldName entry = Some related ->
    isPlainObject related = true ->
    Ob.get (target a) (contentTypes strapi) = Some targetSchema ->
    Str.includesChar "." (firstFieldOf targetSchema) = false ->
    Ob.get (relationColumnName fieldName targetSchema)
           (transformEntry numberToString strapi attrs entry)
    = Some (firstColumnValue (firstFieldOf targetSchema) related)
    /\ Ob.get fieldName (transformEntry numberToString strapi attrs entry) = None
    /\ mapHeader attrs (relationColumnName fieldName targetSchema)
       = mkMapping fieldName (Some (firstFieldOf targetSchema)) None
                   true false true None.
Proof.
  intros nts strapi attrs entry f a related sch Hnd Hdot Ha Ht He Hobj Hsch Hfirst.
  set (column := relationColumnName f sch).
  assert (Hf : Str.includesChar "." f = false).
  { apply (dotless_in attrs); [exact Hdot | now apply (get_in_keys f a)]. }
  assert (Hcol : Str.includesChar "." column = true).
  { unfold column, relationColumnName. rewrite includesChar_append. simpl.
    apply orb_true_r. }
  destruct (in_split_keys f a attrs Hnd Ha) as [before [after [Hsplit [Hb Hafter]]]].
  assert (Hkeys : forall g, In g (Ob.keys before) \/ In g (Ob.keys after) ->
                            In g (Ob.keys attrs) /\ g <> f).
  { intros g Hg. split.
    - rewrite Hsplit. unfold Ob.keys. rewrite map_app. apply in_or_app.
      destruct Hg; [now left | right; now right].
    - intros ->. destruct Hg; contradiction. }
  assert (Hother : forall g, In g (Ob.keys before) \/ In g (Ob.keys after) ->
                             ownedBy g column = false /\ ownedBy g f = false).
  { intros g Hg. destruct (Hkeys g Hg) as [Hin Hne].
    pose proof (dotless_in attrs g Hdot Hin) as Hgdot.
    unfold ownedBy, Str.startsWith. split; apply orb_false_iff; split.
    - apply String.eqb_neq. intros ->. congruence.
    - destruct (String.prefix (g ++ ".") column) eqn:Ep; [|reflexivity].
      exfalso. apply Hne. unfold column, relationColumnName in Ep.
      exact (dotted_prefix g f _ Hgdot Hf Ep).
    - now apply String.eqb_neq.
    - destruct (String.prefix (g ++ ".") f) eqn:Ep; [|reflexivity].
      assert (Hc : Str.includesChar "." (g ++ ".") = true).
      { rewrite includesChar_append. simpl. apply orb_true_r. }
      rewrite (prefix_has_char _ _ _ Ep Hc) in Hf. discriminate Hf. }
  assert (Hstep : forall te,
             transformField nts strapi entry te (f, a)
             = Ob.del f (Ob.set column
                           (firstColumnValue (firstFieldOf sch) related) te)).
  { intros te. unfold transformField. rewrite He.
    assert (Htruthy : truthy related = true) by now destruct related.
    rewrite Htruthy, Ht. cbn [negb]. cbv beta iota.
    replace ("relation" =? "component") with false by reflexivity.
    rewrite String.eqb_refl, Hsch.
    destruct related; try discriminate Hobj; reflexivity. }
  assert (Hcf : column <> f).
  { intros E. rewrite E in Hcol. congruence. }
  assert (Hstamp : forall k x (t : exportRow),
             Str.includesChar "." k = false ->
             (Str.includesChar "." x = true \/ Ob.get x t = None) ->
             Ob.get x (Ob.del k t) = Ob.get x t).
  { intros k x t Hk [Hx|Hx].
    - apply get_del_other. intros ->. congruence.
    - destruct (String.eqb_spec k x) as [->|Hne];
        [now rewrite get_del_same | now apply get_del_other]. }
  set (te0 := map (fun e : string * jsval => (fst e, Some (snd e))) entry
             : exportRow).
  set (te1 := Ob.del f
                (Ob.set column (firstColumnValue (firstFieldOf sch) related)
                   (fold_left (transformField nts strapi entry) before te0))).
  assert (Hfold : fold_left (transformField nts strapi entry) attrs te0
                  = fold_left (transformField nts strapi entry) after te1).
  { rewrite Hsplit, fold_left_app. cbn [fold_left]. now rewrite Hstep. }
  assert (Hcolumn : Ob.get column
                      (fold_left (transformField nts strapi entry) after te1)
                    = Some (firstColumnValue (firstFieldOf sch) related)).
  { rewrite transformFields_frame
      by (intros g Hg; apply (Hother g); now right).
    unfold te1. rewrite get_del_other by (intros E; now apply Hcf).
    apply get_set_same. }
  assert (Hgone : Ob.get f
                    (fold_left (transformField nts strapi entry) after te1)
                  = None).
  { rewrite transformFields_frame
      by (intros g Hg; apply (Hother g); now right).
    apply get_del_same. }
  unfold transformEntry. fold te0. rewrite Hfold. split; [|split].
  - rewrite !Hstamp by (try reflexivity; now left). exact Hcolumn.
  - assert (Hdel : forall k (t : exportRow),
               Ob.get f t = None -> Ob.get f (Ob.del k t) = None).
    { intros k t Hnone. destruct (String.eqb_spec k f) as [->|Hne];
        [apply get_del_same | now rewrite get_del_other]. }
    now repeat apply Hdel.
  - unfold mapHeader. fold column. rewrite Hcol.
    unfold column, relationColumnName.
    change ((f ++ "." ++ firstFieldOf sch)%string)
      with ((f ++ String "." (firstFieldOf sch))%string).
    rewrite (split_dotless_head f _ Hf).
    rewrite (split_without_separator "." _ Hfirst).
    cbn [hd nth]. rewrite Ha, Ht. reflexivity.
Qed.

Lemma exported_relation_column_reimports_witness :
  Ob.get "country.name"
         (transformEntry SampleRuntime.numberToString Fixtures.strapi
            (attributes Fixtures.company) Site.exportedCompany)
  = Some (Some (VStr "India"))
  /\ Ob.get "country"
            (transformEntry SampleRuntime.numberToString Fixtures.strapi
               (attributes Fixtures.company) Site.exportedCompany) = None
  /\ mapHeader (attributes Fixtures.company) "country.name"
     = mkMapping "country" (Some "name") None true false true None.
Proof.
  apply (exported_relation_column_reimports SampleRuntime.numberToString
           Fixtures.strapi (attributes Fixtures.company) Site.exportedCompany
           "country" (Fixtures.relationAttr "manyToOne" "api::country.country")
           (VObj [("id", VNum 1); ("name", VStr "India"); ("code", VStr "IN")])
           Fixtures.country);
    try reflexivity.
  repeat constructor; simpl; intuition discriminate.
Defined.

(** ** The controller *)

Section HandlerFacts.

Context {S : Type}.

Lemma catchH_serverError {A : Type} (m : Handler S A) (intro : string)
    (w : world S) :
  match catchH m (fun error => ctxThrow 500 (intro ++ Http.message error)) w with
  | (Raised e, w') => serverError intro e /\ exists e0, m w = (Raised e0, w')
  | (other, w') => m w = (other, w')
  end.
Proof.
  unfold catchH, ctxThrow.
  destruct (m w) as [[a|e|] w'] eqn:E; try reflexivity.
  split; [|now exists e]. split; [reflexivity|]. apply prefix_append.
Qed.

End HandlerFacts.

Section Lengths.

Context {S : Type}.
Variable svc : entityService S.
Variable strapi : registry.

Lemma processRelations_length (rows : list row) (contentType : schema) :
  forall w, exists processedData w',
    processRelations svc strapi rows contentType w = (Ok processedData, w')
    /\ length processedData = length rows.
Proof.
  unfold processRelations. induction rows as [|r rows IH]; intros w.
  - now exists [], w.
  - destruct (processRelationFields_returns svc strapi r
                (attributes contentType) r w) as [p [w1 E1]].
    destruct (IH w1) as [more [w2 [E2 L2]]].
    exists (cleanupDotNotation p :: more), w2.
    cbn [processRelationsRows]. unfold processRelationsRow, bind.
    rewrite E1. cbn. rewrite E2. split; [reflexivity | simpl; lia].
Qed.

Lemma processComponents_length (toISOString : string -> option string)
    (rows : list row) (contentType : schema) :
  forall w, exists processedData w',
    processComponents toISOString svc strapi rows contentType w
    = (Ok processedData, w')
    /\ length processedData = length rows.
Proof.
  unfold processComponents. induction rows as [|r rows IH]; intros w.
  - now exists [], w.
  - destruct (processComponentFields_returns toISOString svc strapi r
                (attributes contentType) r w) as [p [w1 E1]].
    destruct (IH w1) as [more [w2 [E2 L2]]].
    exists (p :: more), w2.
    cbn [processComponentsRows]. unfold bind.
    rewrite E1, E2. split; [reflexivity | simpl; lia].
Qed.

Lemma importBatches_returns (numberToString : jsval -> string)
    (localeCompare : string -> string -> comparison) (uid : string)
    (opts : Options.t) (validData : list row) :
  forall fuel i results w, exists r w',
    importBatches numberToString localeCompare svc fuel uid opts validData
                  i results w = (Ok r, w').
Proof.
  induction fuel as [|fuel IH]; intros i results w; cbn [importBatches].
  - now eexists; eexists.
  - destruct (i <? Z.of_nat (length validData))%Z; [|now eexists; eexists].
    unfold bind.
    destruct (importBatch_total numberToString localeCompare svc uid opts
                (slice validData i (i + Options.batchSize opts)) results w)
      as [r1 [w1 [E _]]].
    rewrite E. apply IH.
Qed.

Lemma importBatches_finished (numberToString : jsval -> string)
    (localeCompare : string -> string -> comparison) (uid : string)
    (opts : Options.t) (validData : list row) :
  (0 < Options.batchSize opts)%Z ->
  forall fuel i results w r w',
    (0 <= i)%Z ->
    importBatches numberToString localeCompare svc fuel uid opts validData
                  i results w = (Ok (Some r), w') ->
    total r = total results + (length validData - Z.to_nat i).
Proof.
  intros Hb. induction fuel as [|fuel IH]; intros i results w r w' Hi H;
    cbn [importBatches] in H; [discriminate H|].
  destruct (i <? Z.of_nat (length validData))%Z eqn:Ei.
  - apply Z.ltb_lt in Ei. unfold bind in H.
    destruct (importBatch_total numberToString localeCompare svc uid opts
                (slice validData i (i + Options.batchSize opts)) results w)
      as [r1 [w1 [E T]]].
    rewrite E in H. apply IH in H; [|lia].
    rewrite slice_window in T by lia.
    rewrite length_firstn, length_skipn in T. lia.
  - apply Z.ltb_ge in Ei. injection H as <- <-. lia.
Qed.

Lemma importData_finished (numberToString : jsval -> string)
    (localeCompare : string -> string -> comparison) (uid : string)
    (opts : Options.t) (validData : list row) (fuel : nat)
    (w w' : world S) (r : Results.t) :
  importData numberToString localeCompare svc fuel uid validData opts w
  = (Ok (Some r), w') ->
  total r = length validData.
Proof.
  intros H. destruct (Z.lt_ge_cases 0 (Options.batchSize opts)) as [Hb|Hb].
  - unfold importData in H.
    apply (importBatches_finished numberToString localeCompare uid opts
             validData Hb) in H; [|lia].
    unfold total in *. simpl in H. simpl. lia.
  - destruct validData as [|item rest].
    + unfold importData in H. destruct fuel; [discriminate H|].
      cbn in H. injection H as <- <-. reflexivity.
    + pose proof (importBatches_stuck numberToString localeCompare svc uid opts
                    (item :: rest) Hb ltac:(discriminate) fuel 0%Z
                    (Results.mk 0 0 []) w ltac:(lia)) as Hs.
      unfold importData in H. rewrite H in Hs. discriminate Hs.
Qed.

End Lengths.

Lemma validation_without_errors (toISOString : string -> option string)
    (strapi : registry) (rows : list csvRow) (contentType : schema)
    (v : Validation.t) :
  validateCsvData toISOString strapi rows contentType = Some v ->
  Validation.errors v = [] ->
  length (Validation.validData v) = length rows.
Proof.
  intros H Herr. unfold validateCsvData in H.
  destruct rows as [|first rest]; [injection H as <-; discriminate Herr|].
  destruct (validateRelationFieldUniqueness _ _ _) as [relErrors relWarnings].
  destruct (validateRows toISOString _ _ 0 (first :: rest)) as [results|] eqn:E;
    [|discriminate].
  injection H as <-. simpl in Herr |- *.
  apply app_eq_nil in Herr. destruct Herr as [_ Hrows].
  rewrite (filter_all noErrors results).
  - rewrite length_map. now apply validateRows_length in E.
  - intros res Hin. unfold noErrors.
    now rewrite (flat_map_nil_all rowErrors results Hrows res Hin).
Qed.

Section ControllerFacts.

Variable toISOString : string -> option string.
Variable numberToString : jsval -> string.
Variable localeCompare : string -> string -> comparison.
Variable readFileSync : string -> result string.
Variable parseCsv : string -> result (list csvRow).
Variable parseMappings : string -> option (list Media.t).
Variable typeError : string.
Variable fuel : nat.
Variable contentTypes : Obj ContentType.t.
Variable components : Obj schema.
Context {S : Type}.
Variable svc : entityService S.

#[local] Abbreviation strapi' := (registryOf contentTypes components).

#[local] Abbreviation importValid' :=
  (importValid toISOString numberToString localeCompare parseMappings fuel
     contentTypes components svc).

(** After a validation without errors nothing is thrown any more, and a
    report accounts for the rows that were validated. *)
Lemma importValid_outcome (fields : ImportFields.t)
    (targetContentType : ApiContentType.t) (validation : Validation.t)
    (w : world S) :
  match importValid' fields targetContentType validation w with
  | (Done response, _) =>
      Http.code response = 200%Z
      /\ exists report,
           Http.body response = Imported report
           /\ ImportReport.totalProcessed report
              = length (Validation.validData validation)
           /\ ImportReport.created report + ImportReport.updated report
              + length (ImportReport.errors report)
              = length (Validation.validData validation)
  | (Raised _, _) => False
  | (Running, _) => True
  end.
Proof.
  unfold importValid, bindH, await, awaitLoop.
  destruct (processRelations_length svc strapi' (Validation.validData validation)
              (schemaOf targetContentType) w) as [rel [w1 [E1 L1]]].
  rewrite E1.
  destruct (processComponents_length svc strapi' toISOString rel
              (schemaOf targetContentType) w1) as [pd [w2 [E2 L2]]].
  rewrite E2.
  destruct (importData numberToString localeCompare svc fuel
              (ApiContentType.uid targetContentType) pd
              (Controller.importOptions parseMappings fields) w2)
    as [[[results|]|msg] w3] eqn:E3.
  - unfold retH. cbn. split; [reflexivity|]. eexists. split; [reflexivity|].
    cbn. split; [lia|].
    apply importData_finished in E3. unfold total in E3. lia.
  - exact I.
  - unfold importData in E3.
    destruct (importBatches_returns svc numberToString localeCompare
                (ApiContentType.uid targetContentType)
                (Controller.importOptions parseMappings fields) pd
                fuel 0%Z (Results.mk 0 0 []) w2) as [r [w' E]].
    rewrite E in E3. discriminate E3.
Qed.

End ControllerFacts.

Section ControllerTheorems.

Variable toISOString : string -> option string.
Variable numberToString : jsval -> string.
Variable localeCompare : string -> string -> comparison.
Variable readFileSync : string -> result string.
Variable parseCsv : string -> result (list csvRow).
Variable parseMappings : string -> option (list Media.t).
Variable typeError : string.
Variable fuel : nat.
Variable contentTypes : Obj ContentType.t.
Variable components : Obj schema.
Context {S : Type}.
Variable svc : entityService S.

#[local] Abbreviation importCsv' :=
  (Controller.importCsv toISOString numberToString localeCompare readFileSync
     parseCsv parseMappings typeError fuel contentTypes components svc).

#[local] Abbreviation uploadCsv' :=
  (@Controller.uploadCsv toISOString readFileSync parseCsv typeError
     contentTypes components S).

#[local] Abbreviation previewCsv' :=
  (@Controller.previewCsv readFileSync parseCsv typeError contentTypes S).

#[local] Abbreviation importValid' :=
  (importValid toISOString numberToString localeCompare parseMappings fuel
     contentTypes components svc).

#[local] Abbreviation reaches' :=
  (reaches toISOString readFileSync parseCsv contentTypes components).

(** How [importCsv] ends. *)
Lemma importCsv_outcome (ctx : ImportRequest.t) (w : world S) :
  match importCsv' ctx w with
  | (Raised e, w') => serverError "Failed to import CSV: " e /\ w' = w
  | (outcome, w') =>
      exists v,
        reaches' (ImportRequest.file ctx) (ImportRequest.contentType ctx) v
        /\ match Validation.errors (ofValidation v) with
           | [] => importValid' (fieldsOf ctx) (ofTarget v) (ofValidation v) w
                   = (outcome, w')
           | _ :: _ =>
               w' = w
               /\ outcome
                  = Done (Http.mkResponse 400
                            (ImportRejected
                               (Rejection.mk
                                  (Validation.errors (ofValidation v))
                                  (Validation.warnings (ofValidation v))
                                  (Validation.invalidRows (ofValidation v))
                                  None None)))
           end
  end.
Proof.
  unfold Controller.importCsv.
  match goal with
  | |- context [catchH ?m _ w] =>
      assert (Hm : match m w with
                   | (Raised _, w') => w' = w
                   | (outcome, w') =>
                       exists v,
                       reaches' (ImportRequest.file ctx)
                                (ImportRequest.contentType ctx) v
                       /\ match Validation.errors (ofValidation v) with
                          | [] => importValid' (fieldsOf ctx) (ofTarget v)
                                    (ofValidation v) w = (outcome, w')
                          | _ :: _ =>
                              w' = w
                              /\ outcome
                                 = Done (Http.mkResponse 400
                                           (ImportRejected
                                              (Rejection.mk
                                                 (Validation.errors (ofValidation v))
                                                 (Validation.warnings (ofValidation v))
                                                 (Validation.invalidRows (ofValidation v))
                                                 None None)))
                          end
                   end)
  end.
  { cbv zeta.
    destruct (ImportRequest.file ctx) as [file|]; [|reflexivity].
    unfold bindH at 1, ofResult, await.
    destruct (readFileSync (UploadedFile.path file)) as [fileBuffer|msg] eqn:Eread;
      [|reflexivity].
    cbv beta iota. unfold bindH at 1, Controller.listContentTypes.
    destruct (getContentTypes contentTypes) as [api|] eqn:Eapi; [|reflexivity].
    unfold retH at 1. cbv beta iota.
    destruct (Ob.get (ImportRequest.contentType ctx) api) as [target|] eqn:Etarget;
      [|reflexivity].
    unfold bindH at 1. cbv beta iota.
    destruct (parseCsv fileBuffer) as [csvData|msg] eqn:Eparse; [|reflexivity].
    cbv beta iota.
    unfold bindH at 1, Controller.validate.
    destruct (validateCsvData toISOString (registryOf contentTypes components)
                csvData (schemaOf target)) as [validation|] eqn:Evalid;
      [|reflexivity].
    unfold retH at 1. cbv beta iota.
    assert (Hreach : reaches' (Some file) (ImportRequest.contentType ctx)
                       (mkValidated file target csvData validation)).
    { unfold reaches. cbn. split; [reflexivity|].
      split; [now exists fileBuffer|]. split; [now exists api | exact Evalid]. }
    destruct (Validation.errors validation) as [|e es] eqn:Eerr.
    - match goal with
      | |- match ?y with _ => _ end =>
          change y with (importValid' (fieldsOf ctx) target validation w)
      end.
      pose proof (importValid_outcome toISOString numberToString localeCompare
                    parseMappings fuel contentTypes components svc
                    (fieldsOf ctx) target validation w) as Hv.
      destruct (importValid' (fieldsOf ctx) target validation w)
        as [[response|e0|] w'] eqn:Ev; [|contradiction|];
        (exists (mkValidated file target csvData validation);
         split; [exact Hreach|]; cbn; now rewrite Eerr).
    - unfold retH. cbv beta iota.
      exists (mkValidated file target csvData validation).
      split; [exact Hreach|]. cbn. now rewrite Eerr. }
  match goal with
  | |- context [catchH ?m _ w] =>
      pose proof (catchH_serverError m "Failed to import CSV: " w) as Hc
  end.
  match type of Hc with
  | match ?x with _ => _ end => destruct x as [[response|e|] w']
  end.
  - rewrite Hc in Hm. exact Hm.
  - destruct Hc as [Hs [e0 He]]. rewrite He in Hm. now split.
  - rewrite Hc in Hm. exact Hm.
Qed.

(** [importCsv] on a file that passes validation. *)
Lemma importCsv_valid (ctx : ImportRequest.t) (v : validated) (w : world S) :
  reaches' (ImportRequest.file ctx) (ImportRequest.contentType ctx) v ->
  Validation.errors (ofValidation v) = [] ->
  importCsv' ctx w
  = importValid' (fieldsOf ctx) (ofTarget v) (ofValidation v) w.
Proof.
  intros [Hfile [[fileBuffer [Eread Eparse]] [[api [Eapi Etarget]] Evalid]]] Eerr.
  pose proof (importValid_outcome toISOString numberToString localeCompare
                parseMappings fuel contentTypes components svc
                (fieldsOf ctx) (ofTarget v) (ofValidation v) w) as Hv.
  unfold Controller.importCsv, catchH. cbv zeta. rewrite Hfile.
  unfold bindH at 1, ofResult, await. rewrite Eread. cbv beta iota.
  unfold bindH at 1, Controller.listContentTypes. rewrite Eapi.
  unfold retH at 1. cbv beta iota. rewrite Etarget.
  unfold bindH at 1. cbv beta iota. rewrite Eparse. cbv beta iota.
  unfold bindH at 1, Controller.validate. rewrite Evalid.
  unfold retH at 1. cbv beta iota. rewrite Eerr.
  match goal with
  | |- match ?y with _ => _ end = _ =>
      change y with (importValid' (fieldsOf ctx) (ofTarget v) (ofValidation v) w)
  end.
  destruct (importValid' (fieldsOf ctx) (ofTarget v) (ofValidation v) w)
    as [[response|e0|] w']; [reflexivity | contradiction | reflexivity].
Qed.

(** How [uploadCsv] ends. *)
Lemma uploadCsv_outcome (ctx : FileRequest.t) (w : world S) :
  match uploadCsv' ctx w with
  | (Done response, w') =>
      w' = w
      /\ exists v,
           reaches' (FileRequest.file ctx) (FileRequest.contentType ctx) v
           /\ response
              = match Validation.errors (ofValidation v) with
                | [] =>
                    Http.mkResponse 200
                      (Uploaded
                         (UploadReport.mk (ofTarget v) (ofValidation v)
                            (slice (ofRows v) 0 5) (length (ofRows v))
                            (UploadedFile.name (ofFile v))))
                | _ :: _ =>
                    Http.mkResponse 400
                      (UploadRejected
                         (Rejection.mk (Validation.errors (ofValidation v))
                            (Validation.warnings (ofValidation v))
                            (Validation.invalidRows (ofValidation v))
                            (Some (UploadedFile.name (ofFile v)))
                            (Some (length (ofRows v)))))
                end
  | (Raised e, w') => serverError "Failed to process CSV: " e /\ w' = w
  | (Running, _) => False
  end.
Proof.
  unfold Controller.uploadCsv.
  match goal with
  | |- context [catchH ?m _ w] =>
      assert (Hm : match m w with
                   | (Done response, w') =>
                       w' = w
                       /\ exists v,
                            reaches' (FileRequest.file ctx)
                                     (FileRequest.contentType ctx) v
                            /\ response
                               = match Validation.errors (ofValidation v) with
                                 | [] =>
                                     Http.mkResponse 200
                                       (Uploaded
                                          (UploadReport.mk (ofTarget v)
                                             (ofValidation v)
                                             (slice (ofRows v) 0 5)
                                             (length (ofRows v))
                                             (UploadedFile.name (ofFile v))))
                                 | _ :: _ =>
                                     Http.mkResponse 400
                                       (UploadRejected
                                          (Rejection.mk
                                             (Validation.errors (ofValidation v))
                                             (Validation.warnings (ofValidation v))
                                             (Validation.invalidRows (ofValidation v))
                                             (Some (UploadedFile.name (ofFile v)))
                                             (Some (length (ofRows v)))))
                                 end
                   | (Raised _, w') => w' = w
                   | (Running, _) => False
                   end)
  end.
  { unfold bindH at 1, Controller.listContentTypes.
    destruct (getContentTypes contentTypes) as [api|] eqn:Eapi; [|reflexivity].
    unfold retH at 1. cbv beta iota.
    destruct (Ob.get (FileRequest.contentType ctx) api) as [target|] eqn:Etarget;
      [|reflexivity].
    destruct (FileRequest.file ctx) as [file|]; [|reflexivity].
    unfold bindH at 1, ofResult, await.
    destruct (readFileSync (UploadedFile.path file)) as [fileBuffer|msg] eqn:Eread;
      [|reflexivity].
    cbv beta iota. unfold bindH at 1. cbv beta iota.
    destruct (parseCsv fileBuffer) as [csvData|msg] eqn:Eparse; [|reflexivity].
    cbv beta iota.
    unfold bindH at 1, Controller.validate.
    destruct (validateCsvData toISOString (registryOf contentTypes components)
                csvData (schemaOf target)) as [validation|] eqn:Evalid;
      [|reflexivity].
    unfold retH at 1. cbv beta iota.
    assert (Hreach : reaches' (Some file) (FileRequest.contentType ctx)
                       (mkValidated file target csvData validation)).
    { unfold reaches. cbn. split; [reflexivity|].
      split; [now exists fileBuffer|]. split; [now exists api | exact Evalid]. }
    destruct (Validation.errors validation) as [|e es] eqn:Eerr;
      unfold retH; cbv beta iota; (split; [reflexivity|]);
      exists (mkValidated file target csvData validation);
      (split; [exact Hreach|]); cbn; now rewrite Eerr. }
  match goal with
  | |- context [catchH ?m _ w] =>
      pose proof (catchH_serverError m "Failed to process CSV: " w) as Hc
  end.
  match type of Hc with
  | match ?x with _ => _ end => destruct x as [[response|e|] w']
  end.
  - rewrite Hc in Hm. exact Hm.
  - destruct Hc as [Hs [e0 He]]. rewrite He in Hm. now split.
  - rewrite Hc in Hm. exact Hm.
Qed.

(** X26. [importCsv] reaches the entity service only for a file that passed
    validation.  An answer is either 200 with a report or 400 with the
    validation errors, and an error that leaves the handler has status 500
    and a message that starts with [Failed to import CSV: ]; this includes
    the missing file and the unknown content type, whose 400 and 404 are
    thrown inside the [try].  With a 400 and with an error the store is as
    it was and no call was made. *)
Theorem import_touches_store_only_after_validation :
  forall (ctx : ImportRequest.t) (w : world S),
    match importCsv' ctx w with
    | (Done response, w') =>
        match Http.body response with
        | Imported _ => Http.code response = 200%Z
        | ImportRejected details =>
            Http.code response = 400%Z
            /\ Rejection.errors details <> []
            /\ w' = w
        end
    | (Raised e, w') => serverError "Failed to import CSV: " e /\ w' = w
    | (Running, _) => True
    end.
Proof.
  intros ctx w. pose proof (importCsv_outcome ctx w) as H.
  destruct (importCsv' ctx w) as [[response|e|] w']; [|exact H|exact I].
  destruct H as [v [_ H]].
  destruct (Validation.errors (ofValidation v)) as [|e es] eqn:Eerr.
  - pose proof (importValid_outcome toISOString numberToString localeCompare
                  parseMappings fuel contentTypes components svc
                  (fieldsOf ctx) (ofTarget v) (ofValidation v) w) as Hv.
    rewrite H in Hv. destruct Hv as [Hcode [report [Hb _]]]. now rewrite Hb.
  - destruct H as [-> H]. injection H as ->. cbn.
    repeat split. discriminate.
Qed.

(** X27. For a request that names no batch size, so that the default of 100
    applies, a report of [importCsv] accounts for every row of the file:
    the rows it counts as processed are the rows that the parser read, and
    each of them was created, updated or reported with an error.  (A batch
    size that arrives as the text of a form field is outside this
    property.) *)
Theorem import_report_accounts_for_every_row :
  forall (ctx : ImportRequest.t) (file : UploadedFile.t) (fileBuffer : string)
         (csvData : list csvRow) (w w' : world S)
         (response : Http.response importBody) (report : ImportReport.t),
    ImportFields.batchSize (fieldsOf ctx) = None ->
    ImportRequest.file ctx = Some file ->
    readFileSync (UploadedFile.path file) = Ok fileBuffer ->
    parseCsv fileBuffer = Ok csvData ->
    importCsv' ctx w = (Done response, w') ->
    Http.body response = Imported report ->
    ImportReport.totalProcessed report = length csvData
    /\ ImportReport.created report + ImportReport.updated report
       + length (ImportReport.errors report)
       = length csvData.
Proof.
  intros ctx file fileBuffer csvData w w' response report
         _ Hfile Hread Hparse Hrun Hbody.
  pose proof (importCsv_outcome ctx w) as H. rewrite Hrun in H.
  destruct H as [v [[Hf [[b [Er Ep]] [_ Evalid]]] H]].
  assert (Hrows : ofRows v = csvData).
  { rewrite Hfile in Hf. injection Hf as Hf. rewrite <- Hf in Er.
    rewrite Hread in Er. injection Er as <-. rewrite Hparse in Ep.
    now injection Ep. }
  rewrite Hrows in Evalid.
  destruct (Validation.errors (ofValidation v)) as [|e es] eqn:Eerr.
  - pose proof (validation_without_errors _ _ _ _ _ Evalid Eerr) as Hlen.
    pose proof (importValid_outcome toISOString numberToString localeCompare
                  parseMappings fuel contentTypes components svc
                  (fieldsOf ctx) (ofTarget v) (ofValidation v) w) as Hv.
    rewrite H in Hv. destruct Hv as [_ [report' [Hb [Ht Hsum]]]].
    rewrite Hbody in Hb. injection Hb as <-. lia.
  - destruct H as [_ H]. injection H as ->. discriminate Hbody.
Qed.

(** X28. [uploadCsv] only validates: it makes no call of the entity service
    and always ends.  It answers 200 exactly when the validation reported
    no error, and then every row of the file is a valid row; otherwise it
    answers 400 with the errors, or throws with status 500. *)
Theorem upload_only_validates :
  forall (ctx : FileRequest.t) (w : world S),
    match uploadCsv' ctx w with
    | (Done response, w') =>
        w' = w
        /\ match Http.body response with
           | Uploaded data =>
               Http.code response = 200%Z
               /\ Validation.errors (UploadReport.validation data) = []
               /\ length (Validation.validData (UploadReport.validation data))
                  = UploadReport.totalRows data
           | UploadRejected details =>
               Http.code response = 400%Z
               /\ Rejection.errors details <> []
           end
    | (Raised e, w') => serverError "Failed to process CSV: " e /\ w' = w
    | (Running, _) => False
    end.
Proof.
  intros ctx w. pose proof (uploadCsv_outcome ctx w) as H.
  destruct (uploadCsv' ctx w) as [[response|e|] w']; [|exact H|exact H].
  destruct H as [Hw [v [[_ [_ [_ Evalid]]] H]]]. split; [exact Hw|].
  destruct (Validation.errors (ofValidation v)) as [|e es] eqn:Eerr;
    rewrite H; cbn.
  - split; [reflexivity|]. split; [exact Eerr|].
    exact (validation_without_errors _ _ _ _ _ Evalid Eerr).
  - split; [reflexivity | discriminate].
Qed.

(** X29. A file that [uploadCsv] accepts is a file that [importCsv] imports:
    after a 200 of [uploadCsv], [importCsv] for the same content type and
    file neither answers 400 nor throws, whatever the import options, and
    its report counts as many rows as the upload reported. *)
Theorem accepted_upload_is_imported :
  forall (contentType : string) (file : UploadedFile.t)
         (fields : option ImportFields.t) (w w' : world S)
         (response : Http.response uploadBody),
    uploadCsv' (FileRequest.mk contentType (Some file)) w = (Done response, w') ->
    Http.code response = 200%Z ->
    match importCsv' (ImportRequest.mk contentType (Some file) fields) w with
    | (Done answer, _) =>
        Http.code answer = 200%Z
        /\ exists data report,
             Http.body response = Uploaded data
             /\ Http.body answer = Imported report
             /\ ImportReport.totalProcessed report = UploadReport.totalRows data
    | (Raised _, _) => False
    | (Running, _) => True
    end.
Proof.
  intros contentType file fields w w' response Hrun Hcode.
  pose proof (uploadCsv_outcome (FileRequest.mk contentType (Some file)) w) as H.
  rewrite Hrun in H. destruct H as [_ [v [Hreach H]]].
  destruct (Validation.errors (ofValidation v)) as [|e es] eqn:Eerr;
    [|rewrite H in Hcode; discriminate Hcode].
  rewrite (importCsv_valid (ImportRequest.mk contentType (Some file) fields)
             v w Hreach Eerr).
  pose proof (importValid_outcome toISOString numberToString localeCompare
                parseMappings fuel contentTypes components svc
                (fieldsOf (ImportRequest.mk contentType (Some file) fields))
                (ofTarget v) (ofValidation v) w) as Hv.
  destruct (importValid' _ (ofTarget v) (ofValidation v) w)
    as [[answer|e0|] w1]; [|exact Hv|exact I].
  destruct Hv as [Hc [report [Hb [Ht _]]]]. split; [exact Hc|].
  destruct Hreach as [_ [_ [_ Evalid]]].
  eexists. exists report. rewrite H. cbn. split; [reflexivity|].
  split; [exact Hb|]. rewrite Ht.
  exact (validation_without_errors _ _ _ _ _ Evalid Eerr).
Qed.

(** X30. [previewCsv] and [getContentTypes] read the registry and the file
    only: they make no call of the entity service, an answer is a 200, and
    an error that leaves them has status 500 and the handler's text in
    front, the missing file and the unknown content type of [previewCsv]
    included.  A preview shows at most ten rows and counts them all. *)
Theorem preview_and_listing_fail_with_500 :
  forall (ctx : FileRequest.t) (w : world S),
    match previewCsv' ctx w with
    | (Done response, w') =>
        w' = w /\ Http.code response = 200%Z
        /\ length (Preview.preview (Http.body response)) <= 10
        /\ length (Preview.preview (Http.body response))
           <= Preview.totalRows (Http.body response)
    | (Raised e, w') => serverError "Failed to preview CSV: " e /\ w' = w
    | (Running, _) => False
    end
    /\ match @Controller.getContentTypes typeError contentTypes S w with
       | (Done response, w') =>
           w' = w /\ Http.code response = 200%Z
           /\ getContentTypes contentTypes = Some (fst (Http.body response))
       | (Raised e, w') =>
           serverError "Failed to fetch content types: " e /\ w' = w
           /\ getContentTypes contentTypes = None
       | (Running, _) => False
       end.
Proof.
  intros ctx w. split.
  - unfold Controller.previewCsv.
    match goal with
    | |- context [catchH ?m _ w] =>
        pose proof (catchH_serverError m "Failed to preview CSV: " w) as Hc;
        assert (Hm : match m w with
                     | (Done response, w') =>
                         w' = w /\ Http.code response = 200%Z
                         /\ length (Preview.preview (Http.body response)) <= 10
                         /\ length (Preview.preview (Http.body response))
                            <= Preview.totalRows (Http.body response)
                     | (Raised _, w') => w' = w
                     | (Running, _) => False
                     end)
    end.
    { clear Hc.
      destruct (FileRequest.file ctx) as [file|]; [|reflexivity].
      unfold bindH at 1, ofResult, await.
      destruct (readFileSync (UploadedFile.path file)) as [fileBuffer|msg];
        [|reflexivity].
      cbv beta iota. unfold bindH at 1, Controller.listContentTypes.
      destruct (getContentTypes contentTypes) as [api|]; [|reflexivity].
      unfold retH at 1. cbv beta iota.
      destruct (Ob.get (FileRequest.contentType ctx) api) as [target|];
        [|reflexivity].
      unfold bindH at 1. cbv beta iota.
      destruct (parseCsv fileBuffer) as [csvData|msg]; [|reflexivity].
      unfold retH. cbn [Http.body Http.code Preview.preview Preview.totalRows].
      split; [reflexivity|]. split; [reflexivity|].
      unfold slice, sliceIndex. cbn [Z.ltb Z.compare].
      rewrite length_firstn, length_skipn. lia. }
    match type of Hc with
    | match ?x with _ => _ end => destruct x as [[response|e|] w']
    end.
    + rewrite Hc in Hm. exact Hm.
    + destruct Hc as [Hs [e0 He]]. rewrite He in Hm. now split.
    + rewrite Hc in Hm. exact Hm.
  - unfold Controller.getContentTypes, catchH, bindH,
      Controller.listContentTypes, ctxThrow.
    destruct (getContentTypes contentTypes) as [api|]; unfold retH; cbn.
    + now repeat split.
    + split; [split; [reflexivity|] | now split].
      exact (prefix_append "Failed to fetch content types: " typeError).
Qed.

End ControllerTheorems.

Lemma accepted_upload_is_imported_witness :
  match Controller.importCsv Fixtures.noDates SampleRuntime.numberToString
          SampleRuntime.localeCompare Site.readFileSync Site.parseCsv
          Site.parseMappings Site.typeError 10 Site.contentTypes
          Site.components MemoryStore.service
          (ImportRequest.mk "country" (Some Site.file) None)
          (MemoryStore.start []) with
  | (Done answer, _) =>
      Http.code answer = 200%Z
      /\ exists data report,
           Http.body (Http.mkResponse 200%Z (Uploaded Site.countriesUpload))
           = Uploaded data
           /\ Http.body answer = Imported report
           /\ ImportReport.totalProcessed report = UploadReport.totalRows data
  | (Raised _, _) => False
  | (Running, _) => True
  end.
Proof.
  apply (accepted_upload_is_imported Fixtures.noDates
           SampleRuntime.numberToString SampleRuntime.localeCompare
           Site.readFileSync Site.parseCsv Site.parseMappings Site.typeError 10
           Site.contentTypes Site.components MemoryStore.service
           "country" Site.file None (MemoryStore.start [])
           (MemoryStore.start [])
           (Http.mkResponse 200%Z (Uploaded Site.countriesUpload)));
    reflexivity.
Defined.

Lemma import_report_accounts_for_every_row_witness :
  exists response w' report,
    Controller.importCsv Fixtures.noDates SampleRuntime.numberToString
      SampleRuntime.localeCompare Site.readFileSync Site.parseCsv
      Site.parseMappings Site.typeError 10 Site.contentTypes Site.components
      MemoryStore.service
      (ImportRequest.mk "country" (Some Site.file)
         (Some (ImportFields.mk (Some (VStr "false")) None None None)))
      (MemoryStore.start [])
    = (Done response, w')
    /\ Http.body response = Imported report
    /\ ImportReport.totalProcessed report = 3
    /\ ImportReport.created report + ImportReport.updated report
       + length (ImportReport.errors report) = 3.
Proof.
  eexists. eexists. eexists.
  split; [vm_compute; reflexivity|]. split; [reflexivity|].
  eapply (import_report_accounts_for_every_row Fixtures.noDates
           SampleRuntime.numberToString SampleRuntime.localeCompare
           Site.readFileSync Site.parseCsv Site.parseMappings Site.typeError 10
           Site.contentTypes Site.components MemoryStore.service
           (ImportRequest.mk "country" (Some Site.file)
              (Some (ImportFields.mk (Some (VStr "false")) None None None)))
           Site.file Site.countriesCsv Site.validCountries
           (MemoryStore.start []));
    reflexivity.
Defined.
